(** * Reconciliation core of the deployment server: repository cache and
    sync orchestrator.

    The development embeds two source files of package [server]: the
    repository cache ([RepoCache], [GetSha], [CheckoutRepo], ...) and the sync
    orchestrator ([CreateSyncEntry], [runSyncJobs], [runSyncJob], ...).

    Code outside these two files (the metadata store, the Apply and Reload
    engines, go-git, the operating system) is reached through the operations
    of the class [Collaborators]: each one is a transformer of an abstract
    [World].  Every call to such an operation is recorded in a chronological
    trace of [Event]s, so that statements such as "no clone happens" or "the
    transaction is rolled back" are statements about the trace of a call. *)

From Stdlib Require Import ZArith List Lia.
From stdpp Require Import base decidable option gmap strings list pretty.

Local Open Scope string_scope.
Local Open Scope list_scope.
Local Open Scope Z_scope.

(** ** Go values *)

(** A Go [error]: [None] is [nil], [Some m] an error whose [Error()] text is
    [m]. *)
Definition error := option string.

(** A Go result pair [(value, err)]. *)
Inductive result (A : Type) : Type :=
| Ok (a : A)
| Err (msg : string).
Arguments Ok {A} a.
Arguments Err {A} msg.

(** [cmp.Or] on strings: the first argument that is not the zero value. *)
Definition cmp_Or (a b : string) : string :=
  if decide (a = "") then b else a.

(** Go's [int] is 64 bits wide on the platforms the server runs on. *)
Definition int_min : Z := - 2 ^ 63.
Definition int_max : Z := 2 ^ 63 - 1.

Definition wrap64 (z : Z) : Z := (z + 2 ^ 63) mod 2 ^ 64 - 2 ^ 63.

Definition int_add (a b : Z) : Z := wrap64 (a + b).
Definition int_mul (a b : Z) : Z := wrap64 (a * b).

(** ** Time *)

(** A [time.Time] without monotonic reading, as the number of nanoseconds
    since the zero time (January 1, year 1, UTC). *)
Definition Time := Z.
(** A [time.Duration]: a 64-bit count of nanoseconds. *)
Definition Duration := Z.

Definition time_Minute : Duration := 60 * 1000000000.
Definition Time_IsZero (t : Time) : bool := bool_decide (t = 0).
Definition Time_Add (t : Time) (d : Duration) : Time := t + d.
Definition Time_After (t u : Time) : bool := bool_decide (u < t).

(** ** Data of the collaborating packages *)

(** Types declared in packages that are not part of the embedded files; only
    the operations the embedded code uses on them are listed. *)
Class Data := {
  (** [types.AppPathDomain], used as a map key *)
  AppPathDomain : Type;
  AppPathDomain_eq_dec :: EqDecision AppPathDomain;
  AppPathDomain_String : AppPathDomain -> string;
  (** [types.AppEntry] with [app.Metadata.VersionMetadata.GitBranch] and
      [app.Settings.GitAuthName] *)
  AppEntry : Type;
  AppEntry_GitBranch : AppEntry -> string;
  AppEntry_GitAuthName : AppEntry -> string;
  ApproveResult : Type;
  AppCreateResponse : Type;
  (** [ssh.PublicKeys] *)
  PublicKeys : Type;
  (** [plumbing.Hash] with [NewHash] and [String] *)
  Hash : Type;
  plumbing_NewHash : string -> Hash;
  Hash_String : Hash -> string;
  (** [git.Repository] and [git.Worktree] handles *)
  Repository : Type;
  Worktree : Type;
}.

Section Model.
Context {data : Data}.

(** *** Repository cache data (first embedded file) *)

Record Repo := {
  url : string;
  branch : string;
  commit : string;
  auth : string;
}.

#[export] Instance Repo_eq_dec : EqDecision Repo.
Proof. solve_decision. Defined.

#[export] Instance Repo_countable : Countable Repo.
Proof.
  refine (inj_countable'
    (fun r => (url r, branch r, commit r, auth r))
    (fun t => match t with (u, b, c, a) => Build_Repo u b c a end) _).
  intros []; reflexivity.
Defined.

Record CacheDir := {
  dir : string;
  commitMessage : string;
  hash : string;
}.

(** The server configuration fields the embedded code reads
    ([config.Security.DefaultGitAuth], [config.System.DefaultScheduleMins],
    [config.System.MaxSyncFailureCount]). *)
Record Server := {
  DefaultGitAuth : string;
  DefaultScheduleMins : Z;
  MaxSyncFailureCount : Z;
}.

Record RepoCache := {
  server : Server;
  rootDir : string;
  cache : gmap Repo CacheDir;
  shaCache : gmap Repo string;
}.

Definition set_cache (r : RepoCache) (c : gmap Repo CacheDir) : RepoCache :=
  {| server := server r; rootDir := rootDir r; cache := c;
     shaCache := shaCache r |}.

Definition set_shaCache (r : RepoCache) (c : gmap Repo string) : RepoCache :=
  {| server := server r; rootDir := rootDir r; cache := cache r;
     shaCache := c |}.

Definition set_rootDir (r : RepoCache) (d : string) : RepoCache :=
  {| server := server r; rootDir := d; cache := cache r;
     shaCache := shaCache r |}.

(** The entry [loadGitKey] returns. *)
Record gitAuthEntry := {
  user : string;
  key : string;
  password : string;
  usingSSH : bool;
}.

(** [transport.AuthMethod] as the code builds it. *)
Inductive AuthMethod :=
| SSHPublicKeys (k : PublicKeys)
| HTTPBasicAuth (Username Password : string).

(** [plumbing.Reference] and [object.Commit], as far as they are read. *)
Record Reference := { refName : string; refHash : Hash }.
Record Commit := { Message : string; commitHash : Hash }.

Record CloneOptions := {
  URL : string;
  ReferenceName : string;
  SingleBranch : bool;
  Depth : Z;
  Auth : option AuthMethod;
}.

(** [git.CheckoutOptions]: [coHash] is set when a commit is requested,
    [coBranch] otherwise. *)
Record CheckoutOptions := {
  coHash : option Hash;
  coBranch : string;
}.

(** [plumbing.NewBranchReferenceName], e.g. "refs/heads/main". *)
Definition NewBranchReferenceName (b : string) : string :=
  "refs/heads/" +:+ b.

(** *** Sync entry data (second embedded file and the API types) *)

Record AppApplyResponse := {
  DryRun : bool;
  CommitId : string;
  SkippedApply : bool;
  CreateResults : list AppCreateResponse;
  UpdateResults : list AppPathDomain;
  ApproveResults : list ApproveResult;
  PromoteResults : list AppPathDomain;
  ReloadResults : list AppPathDomain;
  SkippedResults : list AppPathDomain;
  FilteredApps : list AppPathDomain;
}.

(** The zero value [types.AppApplyResponse{}]. *)
Definition AppApplyResponse_zero : AppApplyResponse :=
  {| DryRun := false; CommitId := ""; SkippedApply := false;
     CreateResults := []; UpdateResults := []; ApproveResults := [];
     PromoteResults := []; ReloadResults := []; SkippedResults := [];
     FilteredApps := [] |}.

Record AppReloadResult := {
  rrDryRun : bool;
  rrReloadResults : list AppPathDomain;
  rrApproveResult : option ApproveResult;
  rrPromoteResults : list AppPathDomain;
  rrSkippedResults : list AppPathDomain;
}.

Record SyncJobStatus := {
  LastExecutionTime : Time;
  IsApply : bool;
  State : string;
  Error : string;
  FailureCount : Z;
  stCommitId : string;
  ApplyResponse : AppApplyResponse;
}.

Definition SyncJobStatus_zero : SyncJobStatus :=
  {| LastExecutionTime := 0; IsApply := false; State := ""; Error := "";
     FailureCount := 0; stCommitId := "";
     ApplyResponse := AppApplyResponse_zero |}.

Record SyncMetadata := {
  Approve : bool;
  Promote : bool;
  Reload : string;
  GitBranch : string;
  GitAuth : string;
  Clobber : bool;
  ForceReload : bool;
  WebhookUrl : string;
  WebhookSecret : string;
  ScheduleFrequency : Z;
}.

Record SyncEntry := {
  Id : string;
  Path : string;
  IsScheduled : bool;
  UserID : string;
  Metadata : SyncMetadata;
  Status : SyncJobStatus;
}.

Record SyncCreateResponse := {
  crDryRun : bool;
  crId : string;
  crWebhookUrl : string;
  crWebhookSecret : string;
  crScheduleFrequency : Z;
  crSyncJobStatus : SyncJobStatus;
}.

(** [types.AppReloadOption] constants. *)
Definition AppReloadOptionNone : string := "none".
Definition AppReloadOptionUpdated : string := "updated".
Definition AppReloadOptionMatched : string := "matched".

(** [types.Transaction] wraps a pointer [Tx]; the zero value
    [types.Transaction{}] has [Tx == nil].  A handle is a number. *)
Record Transaction := { Tx : option nat }.

#[export] Instance Transaction_eq_dec : EqDecision Transaction.
Proof. solve_decision. Defined.

Definition Transaction_zero : Transaction := {| Tx := None |}.

(** The arguments [runSyncJob] hands to [Apply]. *)
Record ApplyArgs := {
  aTx : Transaction;
  aPath : string;
  aScope : string;
  aApprove : bool;
  aDryRun : bool;
  aPromote : bool;
  aReload : string;
  aGitBranch : string;
  aGitCommit : string;
  aGitAuth : string;
  aClobber : bool;
  aForceReload : bool;
  aLastRunCommitId : string;
  aIsWebhook : bool;
}.

(** The arguments [runSyncJob] hands to [ReloadApp]. *)
Record ReloadArgs := {
  rTx : Transaction;
  rApp : AppEntry;
  rApprove : bool;
  rDryRun : bool;
  rPromote : bool;
  rBranch : string;
  rCommit : string;
  rGitAuth : string;
  rForceReload : bool;
}.

(** What [Apply] returns: on success a non-nil response and the updated
    applications, on failure an error text (the response is replaced by the
    caller) together with whatever application list came back. *)
Inductive ApplyOutcome :=
| ApplyOk (info : AppApplyResponse) (updatedApps : list AppPathDomain)
| ApplyErr (updatedApps : list AppPathDomain) (msg : string).

(** *** Events *)

Inductive Level := LvlTrace | LvlDebug | LvlInfo | LvlWarn | LvlError.

Inductive Event :=
| EvLog (lvl : Level) (err : error) (msg : string)
(* operating system and git *)
| EvMkdirTemp (parent pattern : string) (r : result string)
| EvMkdirAll (path : string)
| EvRemoveAll (path : string)
| EvRemoteList (repoURL : string) (a : option AuthMethod)
| EvPlainClone (path : string) (o : CloneOptions)
| EvCheckout (o : CheckoutOptions)
(* metadata store *)
| EvBeginTransaction (r : result Transaction)
| EvRollback (tx : Transaction)
| EvCreateSync (tx : Transaction) (e : SyncEntry) (err : error)
| EvGetSyncEntries (tx : Transaction)
| EvGetSyncEntry (tx : Transaction) (id : string)
| EvGetAppTx (tx : Transaction) (a : AppPathDomain) (r : result AppEntry)
| EvUpdateSyncStatus (tx : Transaction) (id : string) (st : SyncJobStatus)
    (err : error)
(* engines *)
| EvApply (a : ApplyArgs) (out : ApplyOutcome)
| EvReloadApp (a : ReloadArgs) (r : result AppReloadResult)
| EvCompleteTransaction (tx : Transaction) (apps : list AppPathDomain)
    (dryRun : bool) (tag : string) (err : error)
(* entry into the orchestrator *)
| EvRunSyncJob (id : string) (checkCommitHash : bool).

(** ** Collaborators *)

(** Everything the embedded code calls outside its own two files.  The first
    group is pure; the second group reads and changes the [World]. *)
Class Collaborators := {
  World : Type;

  (** [Server.loadGitKey]: maps a named auth profile of the server
      configuration to its credentials, or fails *)
  loadGitKey : Server -> string -> result gitAuthEntry;
  (** [parseGitUrl]: repository URL and sub-folder of a source URL *)
  parseGitUrl : string -> bool -> result (string * string);
  ssh_NewPublicKeys : string -> string -> string -> result PublicKeys;
  strconv_Quote : string -> string;
  path_Join : string -> string -> string;
  filepath_Base : string -> string;
  strings_ToLower : string -> string;
  base64_EncodeToString : string -> string;

  time_Now : World -> Time;
  os_ExpandEnv : World -> string -> string;
  (** [os.Stat] followed by [os.IsNotExist] on its error *)
  os_Stat_IsNotExist : World -> string -> bool;
  os_MkdirTemp : World -> string -> string -> result string * World;
  os_MkdirAll : World -> string -> error * World;
  os_RemoveAll : World -> string -> World;
  remote_List :
    World -> string -> option AuthMethod -> result (list Reference) * World;
  git_PlainClone :
    World -> string -> CloneOptions -> result Repository * World;
  Repository_Worktree : World -> Repository -> result Worktree * World;
  Worktree_Checkout : World -> Worktree -> CheckoutOptions -> error * World;
  Repository_Head : World -> Repository -> result Reference * World;
  Repository_CommitObject :
    World -> Repository -> Hash -> result Commit * World;

  ksuid_NewRandom : World -> result string * World;
  passwd_GeneratePassword : World -> result string * World;

  (** [BeginTransaction]: on success the handle of a new transaction, which
      the store wraps in a [types.Transaction] with a non-nil [Tx] *)
  db_BeginTransaction : World -> result nat * World;
  Tx_Rollback : World -> Transaction -> World;
  db_CreateSync : World -> Transaction -> SyncEntry -> error * World;
  db_GetSyncEntry :
    World -> Transaction -> string -> result SyncEntry * World;
  db_GetSyncEntries : World -> Transaction -> result (list SyncEntry) * World;
  db_GetAppTx :
    World -> Transaction -> AppPathDomain -> result AppEntry * World;
  db_UpdateSyncStatus :
    World -> Transaction -> string -> SyncJobStatus -> error * World;

  Server_Apply :
    World -> ApplyArgs -> RepoCache -> ApplyOutcome * RepoCache * World;
  Server_ReloadApp :
    World -> ReloadArgs -> RepoCache ->
    result AppReloadResult * RepoCache * World;
  Server_CompleteTransaction :
    World -> Transaction -> list AppPathDomain -> bool -> string ->
    error * World;
}.

Context {collab : Collaborators}.

(** ** The monad of the embedding: world passing with a trace *)

Definition M (A : Type) : Type := World -> A * World * list Event.

Definition ret {A} (a : A) : M A := fun w => (a, w, []).

Definition bind {A B} (m : M A) (k : A -> M B) : M B :=
  fun w =>
    match m w with
    | (a, w1, t1) =>
        match k a w1 with
        | (b, w2, t2) => (b, w2, t1 ++ t2)
        end
    end.

Definition emit (e : Event) : M unit := fun w => (tt, w, [e]).

(** A call that changes the world. *)
Definition call {A} (f : World -> A * World) : M A :=
  fun w => match f w with (a, w1) => (a, w1, []) end.

(** A call that only reads it. *)
Definition ask {A} (f : World -> A) : M A := fun w => (f w, w, []).

Definition log (lvl : Level) (err : error) (msg : string) : M unit :=
  emit (EvLog lvl err msg).

End Model.

Notation "x <- c1 ;; c2" := (bind c1 (fun x => c2))
  (at level 100, c1 at next level, right associativity).
Notation "c1 ;;; c2" := (bind c1 (fun _ => c2))
  (at level 100, right associativity).

(** ** The repository cache *)

Section RepoCacheOps.
Context {data : Data} {collab : Collaborators}.

(** Wrappers of the operating-system and git calls; each records its event. *)

Definition MkdirTemp (parent pattern : string) : M (result string) :=
  r <- call (fun w => os_MkdirTemp w parent pattern) ;;
  emit (EvMkdirTemp parent pattern r) ;;;
  ret r.

Definition MkdirAll (path : string) : M error :=
  emit (EvMkdirAll path) ;;;
  call (fun w => os_MkdirAll w path).

Definition RemoveAll (path : string) : M unit :=
  emit (EvRemoveAll path) ;;;
  call (fun w => (tt, os_RemoveAll w path)).

Definition RemoteList (repoURL : string) (a : option AuthMethod)
  : M (result (list Reference)) :=
  emit (EvRemoteList repoURL a) ;;;
  call (fun w => remote_List w repoURL a).

Definition PlainClone (path : string) (o : CloneOptions)
  : M (result Repository) :=
  emit (EvPlainClone path o) ;;;
  call (fun w => git_PlainClone w path o).

Definition Checkout (wt : Worktree) (o : CheckoutOptions) : M error :=
  emit (EvCheckout o) ;;;
  call (fun w => Worktree_Checkout w wt o).

Definition NewRepoCache (s : Server) : M (result RepoCache) :=
  r <- MkdirTemp "" "openrun_git_" ;;
  match r with
  | Err e => ret (Err e)
  | Ok tmpDir =>
      ret (Ok {| server := s; rootDir := tmpDir; cache := ∅; shaCache := ∅ |})
  end.

Definition createAuthMethod (r : RepoCache) (gitAuth : string)
  : result AuthMethod :=
  match loadGitKey (server r) gitAuth with
  | Err e => Err e
  | Ok authEntry =>
      if decide (key authEntry = "") then
        (* HTTP auth, either basic or using Personal Access Token *)
        Ok (HTTPBasicAuth (user authEntry) (password authEntry))
      else
        (* SSH auth *)
        match ssh_NewPublicKeys (user authEntry) (key authEntry)
                (password authEntry) with
        | Ok k => Ok (SSHPublicKeys k)
        | Err e => Err e
        end
  end.

(** The loop of [latestCommitSHA] over the listed references. *)
Fixpoint findRef (want : string) (refs : list Reference) : option Reference :=
  match refs with
  | [] => None
  | ref :: rest =>
      if decide (refName ref = want) then Some ref else findRef want rest
  end.

Definition latestCommitSHA (repoURL branch : string) (a : option AuthMethod)
  : M (result string) :=
  r <- RemoteList repoURL a ;;
  match r with
  | Err e => ret (Err ("could not list remote refs: " +:+ e))
  | Ok refs =>
      match findRef (NewBranchReferenceName branch) refs with
      | Some ref => ret (Ok (Hash_String (refHash ref)))
      | None =>
          ret (Err ("branch " +:+ strconv_Quote branch +:+ " not found"))
      end
  end.

(** The optional auth method of [GetSha] and [CheckoutRepo]: built, after an
    Info log line, only for a non-empty profile name. *)
Definition authFor (r : RepoCache) (gitAuth : string)
  : M (result (option AuthMethod)) :=
  if decide (gitAuth = "") then ret (Ok None)
  else
    log LvlInfo None ("Using git auth " +:+ gitAuth) ;;;
    match createAuthMethod r gitAuth with
    | Err e => ret (Err e)
    | Ok a => ret (Ok (Some a))
    end.

Definition GetSha (r : RepoCache) (sourceUrl branch gitAuth : string)
  : M (result string * RepoCache) :=
  let gitAuth := cmp_Or gitAuth (DefaultGitAuth (server r)) in
  match loadGitKey (server r) gitAuth with
  | Err e => ret (Err e, r)
  | Ok authEntry =>
      (* Figure on which repo to clone *)
      match parseGitUrl sourceUrl (usingSSH authEntry) with
      | Err e => ret (Err e, r)
      | Ok (repo, _) =>
          (* Check if we have the commit in cache *)
          match shaCache r !! Build_Repo repo branch "" gitAuth with
          | Some sha => ret (Ok sha, r)
          | None =>
              a <- authFor r gitAuth ;;
              match a with
              | Err e => ret (Err e, r)
              | Ok a =>
                  x <- latestCommitSHA repo branch a ;;
                  match x with
                  | Err e => ret (Err e, r)
                  | Ok sha =>
                      ret (Ok sha,
                           set_shaCache r
                             (<[Build_Repo repo branch "" gitAuth := sha]>
                                (shaCache r)))
                  end
              end
          end
      end
  end.

(** [getUnusedRepoPath]: the source loops until [os.Stat] reports a name that
    does not exist.  [fuel] bounds the number of suffixes tried; [None] means
    that none of them was free. *)
Fixpoint unusedSuffix (fuel : nat) (w : World) (targetDir repoName : string)
    (count : Z) : option string :=
  match fuel with
  | O => None
  | S fuel' =>
      let unusedName := repoName +:+ pretty count in
      if os_Stat_IsNotExist w (path_Join targetDir unusedName)
      then Some (path_Join targetDir unusedName)
      else unusedSuffix fuel' w targetDir repoName (int_add count 1)
  end.

Definition getUnusedRepoPath (fuel : nat) (w : World)
    (targetDir repoName : string) : option string :=
  if os_Stat_IsNotExist w (path_Join targetDir repoName)
  then Some (path_Join targetDir repoName)
  else unusedSuffix fuel w targetDir repoName 2.

(** The tuple [CheckoutRepo] returns: local directory, sub-folder, commit
    message, commit hash. *)
Definition Checked : Type := string * string * string * string.

(** The clone options of [CheckoutRepo] before [Auth] is filled in. *)
Definition cloneOptionsFor (repo branch commit : string) (isDev : bool)
    (a : option AuthMethod) : CloneOptions :=
  if decide (commit = "") then
    (* No commit id specified, checkout specified branch *)
    {| URL := repo; ReferenceName := NewBranchReferenceName branch;
       SingleBranch := true; Depth := if isDev then 0 else 1; Auth := a |}
  else
    {| URL := repo; ReferenceName := ""; SingleBranch := false; Depth := 0;
       Auth := a |}.

Definition checkoutOptionsFor (branch commit : string) : CheckoutOptions :=
  if decide (commit = "") then
    {| coHash := None; coBranch := NewBranchReferenceName branch |}
  else
    {| coHash := Some (plumbing_NewHash commit); coBranch := "" |}.

(** The target directory: a persistent one in dev mode, a temporary one under
    the cache's root otherwise.  [None]: no unused dev name within [fuel]. *)
Definition targetPathFor (fuel : nat) (r : RepoCache) (repo : string)
    (isDev : bool) : M (option (result string)) :=
  if isDev then
    (* We don't have a previous dev checkout for this repo, create a new one *)
    let repoName := filepath_Base repo in
    p <- ask (fun w =>
           getUnusedRepoPath fuel w (os_ExpandEnv w "$OPENRUN_HOME/app_src/")
             repoName) ;;
    match p with
    | None => ret None
    | Some targetPath =>
        e <- MkdirAll targetPath ;;
        match e with
        | Some e => ret (Some (Err e))
        | None => ret (Some (Ok targetPath))
        end
    end
  else
    t <- MkdirTemp (rootDir r) "repo_" ;;
    ret (Some t).

(** Clone into [targetPath], check out, read the head commit. *)
Definition cloneAndCheckout (targetPath repo branch commit : string)
    (o : CloneOptions) : M (result Commit) :=
  log LvlInfo None ("Cloning git repo " +:+ repo +:+ " to " +:+ targetPath) ;;;
  g <- PlainClone targetPath o ;;
  match g with
  | Err e => ret (Err ("error checking out branch " +:+ branch +:+ ": " +:+ e))
  | Ok gitRepo =>
      wt <- call (fun w => Repository_Worktree w gitRepo) ;;
      match wt with
      | Err e => ret (Err e)
      | Ok wt =>
          (if decide (commit = "") then ret tt
           else log LvlInfo None ("Checking out commit " +:+ commit)) ;;;
          e <- Checkout wt (checkoutOptionsFor branch commit) ;;
          match e with
          | Some e =>
              ret (Err ("error checking out branch " +:+ branch +:+
                        " commit " +:+ commit +:+ ": " +:+ e))
          | None =>
              ref <- call (fun w => Repository_Head w gitRepo) ;;
              match ref with
              | Err e => ret (Err e)
              | Ok ref =>
                  call (fun w => Repository_CommitObject w gitRepo (refHash ref))
              end
          end
      end
  end.

Definition CheckoutRepo (fuel : nat) (r : RepoCache)
    (sourceUrl branch commit gitAuth : string) (isDev : bool)
  : M (option (result Checked) * RepoCache) :=
  let gitAuth := cmp_Or gitAuth (DefaultGitAuth (server r)) in
  match loadGitKey (server r) gitAuth with
  | Err e => ret (Some (Err e), r)
  | Ok authEntry =>
      (* Figure on which repo to clone *)
      match parseGitUrl sourceUrl (usingSSH authEntry) with
      | Err e => ret (Some (Err e), r)
      | Ok (repo, folder) =>
          let repoKey := Build_Repo repo branch commit gitAuth in
          match cache r !! repoKey with
          | Some d =>
              ret (Some (Ok (dir d, folder, commitMessage d, hash d)), r)
          | None =>
              a <- authFor r gitAuth ;;
              match a with
              | Err e => ret (Some (Err e), r)
              | Ok a =>
                  t <- targetPathFor fuel r repo isDev ;;
                  match t with
                  | None => ret (None, r)
                  | Some (Err e) => ret (Some (Err e), r)
                  | Some (Ok targetPath) =>
                      c <- cloneAndCheckout targetPath repo branch commit
                             (cloneOptionsFor repo branch commit isDev a) ;;
                      match c with
                      | Err e => ret (Some (Err e), r)
                      | Ok newCommit =>
                          (* Save the repo in cache *)
                          let d :=
                            {| dir := targetPath;
                               commitMessage := Message newCommit;
                               hash := Hash_String (commitHash newCommit) |} in
                          ret (Some (Ok (targetPath, folder, Message newCommit,
                                         Hash_String (commitHash newCommit))),
                               set_cache r (<[repoKey := d]> (cache r)))
                      end
                  end
              end
          end
      end
  end.

Definition Cleanup (r : RepoCache) : M RepoCache :=
  if decide (rootDir r = "") then ret r
  else
    RemoveAll (rootDir r) ;;;
    ret (set_rootDir r "").

End RepoCacheOps.

(** ** The sync orchestrator *)

(** How a call ends: it returns, it panics (a nil pointer is dereferenced), or
    the recursion budget of the model ran out before it returned. *)
Inductive outcome (A : Type) : Type :=
| Returns (a : A)
| Panics
| Unfinished.
Arguments Returns {A} a.
Arguments Panics {A}.
Arguments Unfinished {A}.

Section SyncOps.
Context {data : Data} {collab : Collaborators}.

(** Wrappers of the store and engine calls; each records its event. *)

Definition BeginTransaction : M (result Transaction) :=
  h <- call db_BeginTransaction ;;
  let r := match h with
           | Ok h => Ok {| Tx := Some h |}
           | Err e => Err e
           end in
  emit (EvBeginTransaction r) ;;;
  ret r.

Definition Rollback (tx : Transaction) : M unit :=
  emit (EvRollback tx) ;;;
  call (fun w => (tt, Tx_Rollback w tx)).

Definition CreateSync (tx : Transaction) (e : SyncEntry) : M error :=
  r <- call (fun w => db_CreateSync w tx e) ;;
  emit (EvCreateSync tx e r) ;;;
  ret r.

Definition GetSyncEntries (tx : Transaction) : M (result (list SyncEntry)) :=
  emit (EvGetSyncEntries tx) ;;;
  call (fun w => db_GetSyncEntries w tx).

Definition GetSyncEntry (tx : Transaction) (id : string)
  : M (result SyncEntry) :=
  emit (EvGetSyncEntry tx id) ;;;
  call (fun w => db_GetSyncEntry w tx id).

Definition GetAppTx (tx : Transaction) (a : AppPathDomain)
  : M (result AppEntry) :=
  r <- call (fun w => db_GetAppTx w tx a) ;;
  emit (EvGetAppTx tx a r) ;;;
  ret r.

Definition UpdateSyncStatus (tx : Transaction) (id : string)
    (st : SyncJobStatus) : M error :=
  r <- call (fun w => db_UpdateSyncStatus w tx id st) ;;
  emit (EvUpdateSyncStatus tx id st r) ;;;
  ret r.

Definition CompleteTransaction (tx : Transaction) (apps : list AppPathDomain)
    (dryRun : bool) (tag : string) : M error :=
  r <- call (fun w => Server_CompleteTransaction w tx apps dryRun tag) ;;
  emit (EvCompleteTransaction tx apps dryRun tag r) ;;;
  ret r.

Definition Apply (a : ApplyArgs) (rc : RepoCache)
  : M (ApplyOutcome * RepoCache) :=
  x <- call (fun w =>
               match Server_Apply w a rc with
               | (o, rc', w') => ((o, rc'), w')
               end) ;;
  emit (EvApply a (fst x)) ;;;
  ret x.

Definition ReloadApp (a : ReloadArgs) (rc : RepoCache)
  : M (result AppReloadResult * RepoCache) :=
  x <- call (fun w =>
               match Server_ReloadApp w a rc with
               | (o, rc', w') => ((o, rc'), w')
               end) ;;
  emit (EvReloadApp a (fst x)) ;;;
  ret x.

(** *** Deferred calls *)

(** The calls a function registers with [defer]; the list is a stack, most
    recent first, and runs in that order when the function exits.  A deferred
    [tx.Rollback()] holds the transaction that [tx] was when the [defer]
    statement ran. *)
Inductive Deferred :=
| DeferRollback (tx : Transaction)
| DeferCleanup.

Fixpoint runDeferred (ds : list Deferred) (rc : option RepoCache)
  : M (option RepoCache) :=
  match ds with
  | [] => ret rc
  | DeferRollback tx :: ds' => Rollback tx ;;; runDeferred ds' rc
  | DeferCleanup :: ds' =>
      match rc with
      | Some r => r' <- Cleanup r ;; runDeferred ds' (Some r')
      | None => runDeferred ds' None
      end
  end.

(** *** Status of a run *)

(** The failure-count transition: [Disabled] once the count reaches the
    configured maximum, [Failing] below it. *)
Definition failureState (s : Server) (failureCount : Z) : string :=
  if bool_decide (failureCount >= MaxSyncFailureCount s)
  then "Disabled" else "Failing".

Definition set_failure (s : Server) (entry : SyncEntry) (msg : string)
    (status : SyncJobStatus) : SyncJobStatus :=
  let failureCount := int_add (FailureCount (Status entry)) 1 in
  {| LastExecutionTime := LastExecutionTime status;
     IsApply := IsApply status;
     State := failureState s failureCount;
     Error := msg;
     FailureCount := failureCount;
     stCommitId := stCommitId status;
     ApplyResponse := ApplyResponse status |}.

Definition set_ApplyResponse (status : SyncJobStatus) (a : AppApplyResponse)
  : SyncJobStatus :=
  {| LastExecutionTime := LastExecutionTime status;
     IsApply := IsApply status;
     State := State status;
     Error := Error status;
     FailureCount := FailureCount status;
     stCommitId := stCommitId status;
     ApplyResponse := a |}.

(** The status literal [runSyncJob] starts from. *)
Definition initialStatus (now : Time) : SyncJobStatus :=
  {| LastExecutionTime := now; IsApply := true; State := "Enabled";
     Error := ""; FailureCount := 0; stCommitId := "";
     ApplyResponse := AppApplyResponse_zero |}.

Definition set_apply_success (status : SyncJobStatus) (info : AppApplyResponse)
  : SyncJobStatus :=
  {| LastExecutionTime := LastExecutionTime status;
     IsApply := IsApply status;
     State := State status;
     Error := Error status;
     FailureCount := 0;
     stCommitId := CommitId info;
     ApplyResponse := ApplyResponse status |}.

Definition set_FilteredApps (a : AppApplyResponse) (l : list AppPathDomain)
  : AppApplyResponse :=
  {| DryRun := DryRun a; CommitId := CommitId a;
     SkippedApply := SkippedApply a; CreateResults := CreateResults a;
     UpdateResults := UpdateResults a; ApproveResults := ApproveResults a;
     PromoteResults := PromoteResults a; ReloadResults := ReloadResults a;
     SkippedResults := SkippedResults a; FilteredApps := l |}.

Definition set_results (a : AppApplyResponse)
    (reload : list AppPathDomain) (approve : list ApproveResult)
    (promote : list AppPathDomain) : AppApplyResponse :=
  {| DryRun := DryRun a; CommitId := CommitId a;
     SkippedApply := SkippedApply a; CreateResults := CreateResults a;
     UpdateResults := UpdateResults a; ApproveResults := approve;
     PromoteResults := promote; ReloadResults := reload;
     SkippedResults := SkippedResults a; FilteredApps := FilteredApps a |}.

(** The response that replaces Apply's on failure: the zero value with
    [DryRun] and the applications of the last run. *)
Definition failedApplyInfo (dryRun : bool) (lastRunApps : list AppPathDomain)
  : AppApplyResponse :=
  {| DryRun := dryRun; CommitId := ""; SkippedApply := false;
     CreateResults := []; UpdateResults := []; ApproveResults := [];
     PromoteResults := []; ReloadResults := []; SkippedResults := [];
     FilteredApps := lastRunApps |}.

(** The block of [runSyncJob] that follows the call to Apply: status,
    response and updated applications. *)
Definition statusAfterApply (s : Server) (entry : SyncEntry) (dryRun : bool)
    (now : Time) (out : ApplyOutcome)
  : SyncJobStatus * AppApplyResponse * list AppPathDomain :=
  let lastRunApps := FilteredApps (ApplyResponse (Status entry)) in
  match out with
  | ApplyErr updatedApps msg =>
      (set_failure s entry msg (initialStatus now),
       failedApplyInfo dryRun lastRunApps, updatedApps)
  | ApplyOk info updatedApps =>
      (set_apply_success (initialStatus now) info, info, updatedApps)
  end.

Definition applyFailed (out : ApplyOutcome) : option string :=
  match out with
  | ApplyErr _ msg => Some msg
  | ApplyOk _ _ => None
  end.

(** The log line of a failed Apply. *)
Definition logApplyError (entry : SyncEntry) (out : ApplyOutcome) : M unit :=
  match applyFailed out with
  | Some e => log LvlError (Some e) ("Error applying sync job " +:+ Id entry)
  | None => ret tt
  end.

Definition applyArgsFor (tx : Transaction) (entry : SyncEntry)
    (dryRun checkCommitHash : bool) : ApplyArgs :=
  {| aTx := tx; aPath := Path entry; aScope := "all";
     aApprove := Approve (Metadata entry); aDryRun := dryRun;
     aPromote := Promote (Metadata entry);
     aReload := Reload (Metadata entry);
     aGitBranch := GitBranch (Metadata entry); aGitCommit := "";
     aGitAuth := GitAuth (Metadata entry);
     aClobber := Clobber (Metadata entry);
     aForceReload := ForceReload (Metadata entry);
     aLastRunCommitId :=
       if checkCommitHash then stCommitId (Status entry) else "";
     aIsWebhook := false |}.

Definition reloadArgsFor (tx : Transaction) (entry : SyncEntry)
    (app : AppEntry) : ReloadArgs :=
  {| rTx := tx; rApp := app; rApprove := Approve (Metadata entry);
     rDryRun := false; rPromote := Promote (Metadata entry);
     rBranch := AppEntry_GitBranch app; rCommit := "";
     rGitAuth := AppEntry_GitAuthName app;
     rForceReload := ForceReload (Metadata entry) |}.

(** *** The skip optimisation *)

(** [appMap]: a Go map filled by assignment, so a later entry for a key hides
    an earlier one. *)
Definition AppMap : Type := list (AppPathDomain * AppEntry).

Fixpoint appMap_lookup (m : AppMap) (k : AppPathDomain) : option AppEntry :=
  match m with
  | [] => None
  | (k', v) :: m' => if decide (k' = k) then Some v else appMap_lookup m' k
  end.

Definition appMap_insert (k : AppPathDomain) (v : AppEntry) (m : AppMap)
  : AppMap := (k, v) :: m.

(** First loop: look every application of the last run up; stop at the first
    one the store does not return.  The result is [appMissing] and the map. *)
Fixpoint lookupApps (tx : Transaction) (apps : list AppPathDomain)
    (appMap : AppMap) : M (bool * AppMap) :=
  match apps with
  | [] => ret (false, appMap)
  | appPath :: rest =>
      r <- GetAppTx tx appPath ;;
      match r with
      | Err e =>
          log LvlError (Some e)
            ("Error getting app " +:+ AppPathDomain_String appPath) ;;;
          ret (true, appMap)
      | Ok app => lookupApps tx rest (appMap_insert appPath app appMap)
      end
  end.

(** The three result slices the second loop accumulates. *)
Record ReloadAcc := {
  reloadResults : list AppPathDomain;
  approveResults : list ApproveResult;
  promoteResults : list AppPathDomain;
}.

Definition ReloadAcc_empty : ReloadAcc :=
  {| reloadResults := []; approveResults := []; promoteResults := [] |}.

Definition ReloadAcc_add (acc : ReloadAcc) (r : AppReloadResult) : ReloadAcc :=
  {| reloadResults := reloadResults acc ++ rrReloadResults r;
     approveResults :=
       match rrApproveResult r with
       | Some a => approveResults acc ++ [a]
       | None => approveResults acc
       end;
     promoteResults := promoteResults acc ++ rrPromoteResults r |}.

(** Second loop: reload every application of the last run, stopping at the
    first failure.  The result is [reloadErr] and the accumulated slices.  An
    application absent from [appMap] is a nil pointer, and reading its
    metadata panics. *)
Fixpoint reloadApps (tx : Transaction) (entry : SyncEntry) (appMap : AppMap)
    (apps : list AppPathDomain) (rc : RepoCache) (acc : ReloadAcc)
  : M (outcome (error * ReloadAcc) * RepoCache) :=
  match apps with
  | [] => ret (Returns (None, acc), rc)
  | appPath :: rest =>
      match appMap_lookup appMap appPath with
      | None => ret (Panics, rc)
      | Some app =>
          x <- ReloadApp (reloadArgsFor tx entry app) rc ;;
          match x with
          | (Err e, rc') =>
              log LvlError (Some e)
                ("Error reloading app " +:+ AppPathDomain_String appPath +:+
                 " sync job " +:+ Id entry) ;;;
              ret (Returns (Some e, acc), rc')
          | (Ok reloadResult, rc') =>
              reloadApps tx entry appMap rest rc'
                (ReloadAcc_add acc reloadResult)
          end
      end
  end.

(** *** runSyncJob *)

(** What [runSyncJob] returns when it returns: a status with the updated
    applications, or an error. *)
Definition RunValue : Type := result (SyncJobStatus * list AppPathDomain).

(** The transaction of the run: the caller's, or a fresh one whose rollback
    is deferred. *)
Definition acquireTx (inputTx : Transaction)
  : M (result (Transaction * list Deferred)) :=
  match Tx inputTx with
  | None =>
      r <- BeginTransaction ;;
      match r with
      | Err e => ret (Err e)
      | Ok tx => ret (Ok (tx, [DeferRollback tx]))
      end
  | Some _ =>
      (* No rollback here if transaction is passed in *)
      ret (Ok (inputTx, []))
  end.

(** The repository cache of the run: the caller's, or a new one whose cleanup
    is deferred. *)
Definition acquireCache (s : Server) (repoCache : option RepoCache)
    (defers : list Deferred) : M (result (RepoCache * list Deferred)) :=
  match repoCache with
  | Some rc => ret (Ok (rc, defers))
  | None =>
      (* Create a new repo cache if not passed in *)
      r <- NewRepoCache s ;;
      match r with
      | Err e => ret (Err e)
      | Ok rc => ret (Ok (rc, DeferCleanup :: defers))
      end
  end.

(** The end of [runSyncJob], from the test of [status.Error] on. *)
Definition finishRun (inputTx : Transaction) (entry : SyncEntry)
    (dryRun : bool) (tx : Transaction) (status : SyncJobStatus)
    (applyInfo : AppApplyResponse) (updatedApps : list AppPathDomain)
    (defers : list Deferred) : M (RunValue * list Deferred) :=
  r <- (if decide (Error status = "") then ret (Ok (tx, updatedApps, defers))
        else
          (* rollback any changes to db done during apply or reload *)
          Rollback tx ;;;
          (* Use a new transaction to update the sync status *)
          t <- BeginTransaction ;;
          match t with
          | Err e => ret (Err e)
          | Ok tx' => ret (Ok (tx', [], DeferRollback tx' :: defers))
          end) ;;
  match r with
  | Err e => ret (Err e, defers)
  | Ok (tx, updatedApps, defers) =>
      let status := set_ApplyResponse status applyInfo in
      e <- UpdateSyncStatus tx (Id entry) status ;;
      match e with
      | Some e => ret (Err e, defers)
      | None =>
          if decide (Error status = "" /\ Tx inputTx = None) then
            e <- CompleteTransaction tx updatedApps dryRun "sync" ;;
            match e with
            | Some e => ret (Err e, defers)
            | None => ret (Ok (status, updatedApps), defers)
            end
          else ret (Ok (status, updatedApps), defers)
      end
  end.

(** The body of [runSyncJob] between the two acquisitions and the exit.
    [rerun] is the function itself, called with [checkCommitHash = false] and
    the current repository cache. *)
Definition runSyncJobBody
    (rerun : RepoCache -> M (outcome RunValue * option RepoCache))
    (s : Server) (inputTx : Transaction) (entry : SyncEntry)
    (dryRun checkCommitHash : bool) (tx : Transaction) (rc : RepoCache)
    (defers : list Deferred)
  : M (outcome RunValue * RepoCache * list Deferred) :=
  let lastRunApps := FilteredApps (ApplyResponse (Status entry)) in
  x <- Apply (applyArgsFor tx entry dryRun checkCommitHash) rc ;;
  let (out, rc) := x in
  now <- ask time_Now ;;
  logApplyError entry out ;;;
  match statusAfterApply s entry dryRun now out with
  | (status, applyInfo, updatedApps) =>
      if decide (applyFailed out = None /\ SkippedApply applyInfo = true /\
                 Reload (Metadata entry) = AppReloadOptionMatched)
      then
        let applyInfo :=
          match FilteredApps applyInfo with
          | [] => (* This run was skipped, use the last run apps *)
              set_FilteredApps applyInfo lastRunApps
          | _ :: _ => applyInfo
          end in
        (* The apply was skipped, check if the apps need to be reloaded *)
        l <- lookupApps tx lastRunApps [] ;;
        let (appMissing, appMap) := l in
        if appMissing then
          (* App has been deleted, run the full apply with the latest commit
             even if it was already applied *)
          if negb checkCommitHash then
            ret (Returns
                   (Err "Unexpected error, sync rerun with no commit hash"),
                 rc, defers)
          else
            y <- rerun rc ;;
            match y with
            | (o, Some rc') => ret (o, rc', defers)
            | (o, None) => ret (o, rc, defers)
            end
        else
          z <- reloadApps tx entry appMap lastRunApps rc ReloadAcc_empty ;;
          match z with
          | (Panics, rc) => ret (Panics, rc, defers)
          | (Unfinished, rc) => ret (Unfinished, rc, defers)
          | (Returns (reloadErr, acc), rc) =>
              let status :=
                match reloadErr with
                | Some e => set_failure s entry e status
                | None => status
                end in
              let applyInfo :=
                match reloadErr with
                | Some _ =>
                    set_results applyInfo (reloadResults acc)
                      (approveResults acc) (promoteResults acc)
                | None => applyInfo
                end in
              f <- finishRun inputTx entry dryRun tx status applyInfo
                     updatedApps defers ;;
              let (v, defers) := f in
              ret (Returns v, rc, defers)
          end
      else
        f <- finishRun inputTx entry dryRun tx status applyInfo updatedApps
               defers ;;
        let (v, defers) := f in
        ret (Returns v, rc, defers)
  end.

(** [runSyncJob] with a budget of nested calls.  The result carries the
    caller's repository cache as the run left it ([None] if the caller passed
    none). *)
Fixpoint runSyncJobN (fuel : nat) (s : Server) (inputTx : Transaction)
    (entry : SyncEntry) (dryRun checkCommitHash : bool)
    (repoCache : option RepoCache)
  : M (outcome RunValue * option RepoCache) :=
  match fuel with
  | O => ret (Unfinished, repoCache)
  | S fuel' =>
      emit (EvRunSyncJob (Id entry) checkCommitHash) ;;;
      t <- acquireTx inputTx ;;
      match t with
      | Err e => ret (Returns (Err e), repoCache)
      | Ok (tx, defers) =>
          log LvlDebug None ("Running sync job " +:+ Id entry) ;;;
          c <- acquireCache s repoCache defers ;;
          match c with
          | Err e =>
              runDeferred defers None ;;;
              ret (Returns (Err e), repoCache)
          | Ok (rc, defers) =>
              b <- runSyncJobBody
                     (fun rc =>
                        runSyncJobN fuel' s inputTx entry dryRun false
                          (Some rc))
                     s inputTx entry dryRun checkCommitHash tx rc defers ;;
              match b with
              | (o, rc, defers) =>
                  rc' <- runDeferred defers (Some rc) ;;
                  ret (o, match repoCache with
                          | Some _ => rc'
                          | None => None
                          end)
              end
          end
      end
  end.

(** The function as the source calls it: two nested calls are all a call can
    make (see [runSyncJobN_enough]). *)
Definition runSyncJob (s : Server) (inputTx : Transaction) (entry : SyncEntry)
    (dryRun checkCommitHash : bool) (repoCache : option RepoCache)
  : M (outcome RunValue * option RepoCache) :=
  runSyncJobN 2 s inputTx entry dryRun checkCommitHash repoCache.

(** *** The scheduler *)

(** [time.Duration(entry.Metadata.ScheduleFrequency) * time.Minute]. *)
Definition frequencyDuration (entry : SyncEntry) : Duration :=
  int_mul (ScheduleFrequency (Metadata entry)) time_Minute.

(** The three tests of the loop of [runSyncJobs], in source order. *)
Definition notScheduled (entry : SyncEntry) : bool :=
  negb (IsScheduled entry) ||
  bool_decide (ScheduleFrequency (Metadata entry) <= 0).

Definition notReady (entry : SyncEntry) (now : Time) : bool :=
  negb (Time_IsZero (LastExecutionTime (Status entry))) &&
  Time_After
    (Time_Add (LastExecutionTime (Status entry)) (frequencyDuration entry))
    now.

Definition failedTooOften (s : Server) (entry : SyncEntry) : bool :=
  bool_decide (FailureCount (Status entry) >= MaxSyncFailureCount s).

(** The loop of [runSyncJobs] over the entries, with the shared repository
    cache. *)
Fixpoint runEntries (s : Server) (entries : list SyncEntry) (rc : RepoCache)
  : M (outcome unit * RepoCache) :=
  match entries with
  | [] => ret (Returns tt, rc)
  | entry :: rest =>
      if notScheduled entry then runEntries s rest rc
      else
        now <- ask time_Now ;;
        if notReady entry now then
          log LvlTrace None ("Sync job " +:+ Id entry +:+ " not ready to run") ;;;
          runEntries s rest rc
        else if failedTooOften s entry then
          log LvlTrace None
            ("Sync job " +:+ Id entry +:+
             " has failed too many times, skipping") ;;;
          runEntries s rest rc
        else
          (* each sync runs in its own transaction *)
          x <- runSyncJob s Transaction_zero entry false true (Some rc) ;;
          let rc := match snd x with Some rc' => rc' | None => rc end in
          match fst x with
          | Returns (Err e) =>
              log LvlError (Some e) ("Error running sync job " +:+ Id entry) ;;;
              (* One failure does not stop the rest *)
              runEntries s rest rc
          | Returns (Ok _) => runEntries s rest rc
          | Panics => ret (Panics, rc)
          | Unfinished => ret (Unfinished, rc)
          end
  end.

Definition runSyncJobs (s : Server) : M (outcome error) :=
  t <- BeginTransaction ;;
  match t with
  | Err e => ret (Returns (Some e))
  | Ok tx =>
      (* Create a new repo cache if not passed in *)
      c <- NewRepoCache s ;;
      match c with
      | Err e =>
          runDeferred [DeferRollback tx] None ;;;
          ret (Returns (Some e))
      | Ok rc =>
          l <- GetSyncEntries tx ;;
          match l with
          | Err e =>
              runDeferred [DeferCleanup; DeferRollback tx] (Some rc) ;;;
              ret (Returns (Some e))
          | Ok scheduleEntries =>
              x <- runEntries s scheduleEntries rc ;;
              runDeferred [DeferCleanup; DeferRollback tx] (Some (snd x)) ;;;
              match fst x with
              | Returns _ => ret (Returns None)
              | Panics => ret Panics
              | Unfinished => ret Unfinished
              end
          end
      end
  end.

(** Where the loop of [syncRunner] stands after the timer has fired a number
    of times: still waiting for the next tick, or left for good. *)
Inductive LoopState :=
| LoopWaiting
| LoopStopped
| LoopAborted.

(** The loop [for range s.syncTimer.C] over the first [ticks] firings of the
    timer. *)
Fixpoint syncLoop (s : Server) (ticks : nat) : M LoopState :=
  match ticks with
  | O => ret LoopWaiting
  | S ticks' =>
      r <- runSyncJobs s ;;
      match r with
      | Returns (Some e) =>
          log LvlError (Some e) "Error running sync" ;;;
          ret LoopStopped
      | Returns None => syncLoop s ticks'
      | Panics | Unfinished => ret LoopAborted
      end
  end.


(** *** Creating and running an entry on demand *)

(** The part of [CreateSyncEntry] after [BeginTransaction] and before the
    immediate run: the entry is built and written with [CreateSync]. *)
Definition prepareSyncEntry (s : Server) (userId : string) (tx : Transaction)
    (path : string) (scheduled : bool) (sync : SyncMetadata)
  : M (result SyncEntry) :=
  g <- call ksuid_NewRandom ;;
  match g with
  | Err e => ret (Err e)
  | Ok genId =>
      let id := "cl_syn_" +:+ strings_ToLower genId in
      m <- (if negb scheduled then
              (* Webhook sync entry *)
              p <- call passwd_GeneratePassword ;;
              match p with
              | Err e => ret (Err e)
              | Ok secret =>
                  ret (Ok {| Approve := Approve sync; Promote := Promote sync;
                             Reload := Reload sync;
                             GitBranch := GitBranch sync;
                             GitAuth := GitAuth sync; Clobber := Clobber sync;
                             ForceReload := ForceReload sync;
                             WebhookUrl := WebhookUrl sync;
                             WebhookSecret :=
                               "cl_tkn_" +:+ base64_EncodeToString secret;
                             ScheduleFrequency := ScheduleFrequency sync |})
              end
            else if bool_decide (ScheduleFrequency sync <= 0) then
              ret (Ok {| Approve := Approve sync; Promote := Promote sync;
                         Reload := Reload sync; GitBranch := GitBranch sync;
                         GitAuth := GitAuth sync; Clobber := Clobber sync;
                         ForceReload := ForceReload sync;
                         WebhookUrl := WebhookUrl sync;
                         WebhookSecret := WebhookSecret sync;
                         ScheduleFrequency := DefaultScheduleMins s |})
            else ret (Ok sync)) ;;
      match m with
      | Err e => ret (Err e)
      | Ok sync =>
          let syncEntry :=
            {| Id := id; Path := path; IsScheduled := scheduled;
               UserID := userId; Metadata := sync;
               Status := SyncJobStatus_zero |} in
          (* Persist the settings *)
          e <- CreateSync tx syncEntry ;;
          match e with
          | Some e => ret (Err e)
          | None => ret (Ok syncEntry)
          end
      end
  end.

(** The part of [CreateSyncEntry] after the immediate run. *)
Definition concludeCreate (tx : Transaction) (syncEntry : SyncEntry)
    (dryRun : bool) (run : outcome RunValue)
  : M (outcome (result SyncCreateResponse)) :=
  match run with
  | Panics => ret Panics
  | Unfinished => ret Unfinished
  | Returns (Err e) => ret (Returns (Err e))
  | Returns (Ok (syncStatus, updatedApps)) =>
      if decide (Error syncStatus = "") then
        let resp :=
          {| crId := Id syncEntry; crDryRun := dryRun; crWebhookUrl := "";
             crWebhookSecret := WebhookSecret (Metadata syncEntry);
             crScheduleFrequency := ScheduleFrequency (Metadata syncEntry);
             crSyncJobStatus := syncStatus |} in
        e <- CompleteTransaction tx updatedApps dryRun "create_sync" ;;
        match e with
        | Some e => ret (Returns (Err e))
        | None => ret (Returns (Ok resp))
        end
      else
        (* The sync job job failed, delete the entry *)
        ret (Returns (Err (Error syncStatus)))
  end.

Definition CreateSyncEntry (s : Server) (userId path : string)
    (scheduled dryRun : bool) (sync : SyncMetadata)
  : M (outcome (result SyncCreateResponse)) :=
  t <- BeginTransaction ;;
  match t with
  | Err e => ret (Returns (Err e))
  | Ok tx =>
      p <- prepareSyncEntry s userId tx path scheduled sync ;;
      r <- match p with
           | Err e => ret (Returns (Err e))
           | Ok syncEntry =>
               x <- runSyncJob s tx syncEntry dryRun true None ;;
               concludeCreate tx syncEntry dryRun (fst x)
           end ;;
      runDeferred [DeferRollback tx] None ;;;
      ret r
  end.

Definition RunSync (s : Server) (id : string) (dryRun : bool)
  : M (outcome (result SyncJobStatus)) :=
  t <- BeginTransaction ;;
  match t with
  | Err e => ret (Returns (Err e))
  | Ok tx =>
      g <- GetSyncEntry tx id ;;
      r <- match g with
           | Err e => ret (Returns (Err e))
           | Ok syncEntry =>
               x <- runSyncJob s tx syncEntry dryRun true None ;;
               match fst x with
               | Panics => ret Panics
               | Unfinished => ret Unfinished
               | Returns (Err e) => ret (Returns (Err e))
               | Returns (Ok (syncStatus, updatedApps)) =>
                   if decide (Error syncStatus = "") then
                     e <- CompleteTransaction tx updatedApps dryRun
                            "sync_run" ;;
                     match e with
                     | Some e => ret (Returns (Err e))
                     | None => ret (Returns (Ok syncStatus))
                     end
                   else
                     (* The sync job job failed, status would be already
                        updated *)
                     ret (Returns (Err (Error syncStatus)))
               end
           end ;;
      runDeferred [DeferRollback tx] None ;;;
      ret r
  end.

End SyncOps.

(** ** Observations on traces *)

Section Observations.
Context {data : Data} {collab : Collaborators}.

Definition is_clone (ev : Event) : bool :=
  match ev with EvPlainClone _ _ => true | _ => false end.

Definition is_checkout (ev : Event) : bool :=
  match ev with EvCheckout _ => true | _ => false end.

Definition is_remote_list (ev : Event) : bool :=
  match ev with EvRemoteList _ _ => true | _ => false end.

(** A transaction is completed (committed) by [CompleteTransaction] only. *)
Definition is_complete (ev : Event) : bool :=
  match ev with EvCompleteTransaction _ _ _ _ _ => true | _ => false end.

Definition is_run (ev : Event) : bool :=
  match ev with EvRunSyncJob _ _ => true | _ => false end.

(** The [checkCommitHash] flags of the activations of [runSyncJob] in a
    trace, in order. *)
Fixpoint activations (t : list Event) : list bool :=
  match t with
  | [] => []
  | EvRunSyncJob _ c :: t' => c :: activations t'
  | _ :: t' => activations t'
  end.

Definition is_missing_app (ev : Event) : bool :=
  match ev with EvGetAppTx _ _ (Err _) => true | _ => false end.

Definition is_apply (ev : Event) : bool :=
  match ev with EvApply _ _ => true | _ => false end.

Definition is_reload (ev : Event) : bool :=
  match ev with EvReloadApp _ _ => true | _ => false end.

(** A failed Apply or a failed Reload. *)
Definition is_failure (ev : Event) : bool :=
  match ev with
  | EvApply _ (ApplyErr _ _) => true
  | EvReloadApp _ (Err _) => true
  | _ => false
  end.

(** A run is failed when its Apply or one of its reloads failed. *)
Definition run_failed (t : list Event) : bool := existsb is_failure t.

(** A trace is calm when it holds no Apply, no Reload, no completed
    transaction, no entry into [runSyncJob] and no failed lookup of an
    application. *)
Definition calm (t : list Event) : Prop :=
  existsb is_apply t = false /\ existsb is_reload t = false /\
  existsb is_complete t = false /\ activations t = [] /\
  existsb is_missing_app t = false.


Definition count (p : Event -> bool) (t : list Event) : nat :=
  length (List.filter p t).

(** The condition under which [runSyncJob] enters the skip optimisation. *)
Definition skipOptimisation (entry : SyncEntry) (out : ApplyOutcome) : Prop :=
  exists info l, out = ApplyOk info l /\ SkippedApply info = true /\
                 Reload (Metadata entry) = AppReloadOptionMatched.

(** The events of the call to Apply and of the log line that follows a
    failure. *)
Definition applyEvents (entry : SyncEntry) (a : ApplyArgs)
    (out : ApplyOutcome) : list Event :=
  EvApply a out ::
  match applyFailed out with
  | Some e =>
      [EvLog LvlError (Some e) ("Error applying sync job " +:+ Id entry)]
  | None => []
  end.

(** The commit ids handed to Apply as [lastRunCommitId], in order. *)
Fixpoint applyHints (t : list Event) : list string :=
  match t with
  | [] => []
  | EvApply a _ :: t' => aLastRunCommitId a :: applyHints t'
  | _ :: t' => applyHints t'
  end.

(** The entry as the scheduler skips it: one of the three tests holds. *)
Definition skipEntry (s : Server) (entry : SyncEntry) (now : Time) : bool :=
  notScheduled entry || notReady entry now || failedTooOften s entry.

Definition set_Status (entry : SyncEntry) (st : SyncJobStatus) : SyncEntry :=
  {| Id := Id entry; Path := Path entry; IsScheduled := IsScheduled entry;
     UserID := UserID entry; Metadata := Metadata entry; Status := st |}.

Definition set_State (st : SyncJobStatus) (state : string) : SyncJobStatus :=
  {| LastExecutionTime := LastExecutionTime st; IsApply := IsApply st;
     State := state; Error := Error st; FailureCount := FailureCount st;
     stCommitId := stCommitId st; ApplyResponse := ApplyResponse st |}.

End Observations.

(** * A concrete world *)

(** An instance of the collaborators on which the operations can be run: a
    metadata store with transactions, scripted Apply and Reload engines, a
    git remote with one branch.  It serves as the concrete input of the
    examples at the end. *)
Module Scenario.

Definition scenarioData : Data :=
  {| AppPathDomain := string;
     AppPathDomain_eq_dec := _;
     AppPathDomain_String := fun a => a;
     AppEntry := string;
     AppEntry_GitBranch := fun _ => "main";
     AppEntry_GitAuthName := fun _ => "";
     ApproveResult := unit;
     AppCreateResponse := unit;
     PublicKeys := string;
     Hash := string;
     plumbing_NewHash := fun h => h;
     Hash_String := fun h => h;
     Repository := string;
     Worktree := string |}.

#[local] Existing Instance scenarioData.

(** What the engines and the store are scripted to do. *)
Record Script := {
  applyOf : ApplyArgs -> ApplyOutcome;
  reloadOf : ReloadArgs -> result AppReloadResult;
  presentApps : list string;
  entriesFail : bool;
  authKnown : list string;
}.

(** Modelled from the spec: the metadata store (BeginTransaction, CreateSync,
    GetSyncEntry, GetSyncEntries, UpdateSyncStatus, transaction Rollback) and
    CompleteTransaction, which are not part of the embedded files.  A
    transaction works on a private view of the sync table, taken when it
    begins; a rollback drops the view; completing the transaction (outside a
    dry run) makes the view the persisted table. *)
Record SWorld := {
  clock : Z;
  nextTx : nat;
  table : gmap string SyncEntry;
  views : gmap nat (gmap string SyncEntry);
  tmpCount : nat;
}.

Definition set_clock (w : SWorld) (c : Z) : SWorld :=
  {| clock := c; nextTx := nextTx w; table := table w; views := views w;
     tmpCount := tmpCount w |}.

Definition set_views (w : SWorld) (v : gmap nat (gmap string SyncEntry))
  : SWorld :=
  {| clock := clock w; nextTx := nextTx w; table := table w; views := v;
     tmpCount := tmpCount w |}.

Definition viewOf (w : SWorld) (tx : Transaction)
  : option (nat * gmap string SyncEntry) :=
  match Tx tx with
  | Some h => match views w !! h with Some v => Some (h, v) | None => None end
  | None => None
  end.

Definition sBegin (w : SWorld) : result nat * SWorld :=
  (Ok (nextTx w),
   {| clock := clock w; nextTx := S (nextTx w); table := table w;
      views := <[nextTx w := table w]> (views w); tmpCount := tmpCount w |}).

Definition sRollback (w : SWorld) (tx : Transaction) : SWorld :=
  match Tx tx with
  | Some h => set_views w (delete h (views w))
  | None => w
  end.

Definition sCreateSync (w : SWorld) (tx : Transaction) (e : SyncEntry)
  : error * SWorld :=
  match viewOf w tx with
  | Some (h, v) =>
      match v !! Id e with
      | Some _ => (Some "sync entry exists", w)
      | None => (None, set_views w (<[h := <[Id e := e]> v]> (views w)))
      end
  | None => (Some "transaction is closed", w)
  end.

Definition sGetSyncEntry (w : SWorld) (tx : Transaction) (id : string)
  : result SyncEntry * SWorld :=
  match viewOf w tx with
  | Some (_, v) =>
      match v !! id with
      | Some e => (Ok e, w)
      | None => (Err "sync entry not found", w)
      end
  | None => (Err "transaction is closed", w)
  end.

Definition sGetSyncEntries (sc : Script) (w : SWorld) (tx : Transaction)
  : result (list SyncEntry) * SWorld :=
  if entriesFail sc then (Err "metadata store unavailable", w)
  else
    match viewOf w tx with
    | Some (_, v) => (Ok (snd <$> map_to_list v), w)
    | None => (Err "transaction is closed", w)
    end.

Definition sUpdateSyncStatus (w : SWorld) (tx : Transaction) (id : string)
    (st : SyncJobStatus) : error * SWorld :=
  match viewOf w tx with
  | Some (h, v) =>
      match v !! id with
      | Some e =>
          (None, set_views w (<[h := <[id := set_Status e st]> v]> (views w)))
      | None => (None, w)
      end
  | None => (Some "transaction is closed", w)
  end.

Definition sComplete (w : SWorld) (tx : Transaction) (dryRun : bool)
  : error * SWorld :=
  match viewOf w tx with
  | Some (h, v) =>
      (None,
       {| clock := clock w; nextTx := nextTx w;
          table := if dryRun then table w else v;
          views := delete h (views w); tmpCount := tmpCount w |})
  | None => (Some "transaction is closed", w)
  end.

Definition sGetAppTx (sc : Script) (w : SWorld) (a : string)
  : result string * SWorld :=
  if bool_decide (a ∈ presentApps sc) then (Ok a, w)
  else (Err "app not found", w).

Definition sLoadGitKey (sc : Script) (name : string) : result gitAuthEntry :=
  if bool_decide (name ∈ authKnown sc) then
    Ok {| user := "git"; key := ""; password := "token"; usingSSH := false |}
  else Err ("git auth entry not found: " +:+ name).

Definition sMkdirTemp (w : SWorld) (parent pattern : string)
  : result string * SWorld :=
  (Ok (parent +:+ "/" +:+ pattern +:+ pretty (tmpCount w)),
   {| clock := clock w; nextTx := nextTx w; table := table w;
      views := views w; tmpCount := S (tmpCount w) |}).

Definition scenario (sc : Script) : Collaborators :=
  {| World := SWorld;
     loadGitKey := fun _ name => sLoadGitKey sc name;
     parseGitUrl := fun u _ =>
       if decide (u = "") then Err "empty source url" else Ok (u, "");
     ssh_NewPublicKeys := fun _ k _ => Ok k;
     strconv_Quote := fun x => x;
     path_Join := fun a b => a +:+ b;
     filepath_Base := fun x => x;
     strings_ToLower := fun x => x;
     base64_EncodeToString := fun x => x;
     time_Now := clock;
     os_ExpandEnv := fun _ x => x;
     os_Stat_IsNotExist := fun _ _ => true;
     os_MkdirTemp := sMkdirTemp;
     os_MkdirAll := fun w _ => (None, w);
     os_RemoveAll := fun w _ => w;
     remote_List := fun w _ _ =>
       (Ok [ {| refName := "refs/heads/main"; refHash := "abc123" |} ], w);
     git_PlainClone := fun w path _ => (Ok path, w);
     Repository_Worktree := fun w r => (Ok r, w);
     Worktree_Checkout := fun w _ _ => (None, w);
     Repository_Head := fun w _ =>
       (Ok {| refName := "HEAD"; refHash := "abc123" |}, w);
     Repository_CommitObject := fun w _ h =>
       (Ok {| Message := "initial commit"; commitHash := h |}, w);
     ksuid_NewRandom := fun w => (Ok "2abc", w);
     passwd_GeneratePassword := fun w => (Ok "secret", w);
     db_BeginTransaction := sBegin;
     Tx_Rollback := sRollback;
     db_CreateSync := sCreateSync;
     db_GetSyncEntry := sGetSyncEntry;
     db_GetSyncEntries := sGetSyncEntries sc;
     db_GetAppTx := fun w _ a => sGetAppTx sc w a;
     db_UpdateSyncStatus := sUpdateSyncStatus;
     Server_Apply := fun w a rc =>
       (applyOf sc a, rc, set_clock w (clock w + 1000000000));
     Server_ReloadApp := fun w a rc =>
       (reloadOf sc a, rc, set_clock w (clock w + 1000000000));
     Server_CompleteTransaction := fun w tx _ dryRun _ =>
       sComplete w tx dryRun |}.

(** The server: three failures disable an entry. *)
Definition srv : Server :=
  {| DefaultGitAuth := ""; DefaultScheduleMins := 15;
     MaxSyncFailureCount := 3 |}.

Definition meta (reload : string) : SyncMetadata :=
  {| Approve := false; Promote := false; Reload := reload;
     GitBranch := "main"; GitAuth := ""; Clobber := false;
     ForceReload := false; WebhookUrl := ""; WebhookSecret := "";
     ScheduleFrequency := 10 |}.

(** An entry that ran once, at commit "c1", on the application "/app1". *)
Definition lastStatus : SyncJobStatus :=
  {| LastExecutionTime := 63000000000000000000; IsApply := true;
     State := "Enabled"; Error := ""; FailureCount := 0;
     stCommitId := "c1";
     ApplyResponse := set_FilteredApps AppApplyResponse_zero ["/app1"] |}.

Definition entry1 (reload : string) : SyncEntry :=
  {| Id := "cl_syn_1"; Path := "/apps.star"; IsScheduled := true;
     UserID := "admin"; Metadata := meta reload; Status := lastStatus |}.

(** The world twenty minutes after that run, with the entry persisted. *)
Definition world1 (reload : string) : SWorld :=
  {| clock := 63000000000000000000 + 20 * time_Minute; nextTx := 0;
     table := {[ "cl_syn_1" := entry1 reload ]}; views := ∅;
     tmpCount := 0 |}.

(** Apply fails. *)
Definition applyFails : Script :=
  {| applyOf := fun _ => ApplyErr [] "apply failed";
     reloadOf := fun _ => Err "unused";
     presentApps := ["/app1"]; entriesFail := false; authKnown := [""] |}.

Definition skippedInfo : AppApplyResponse :=
  {| DryRun := false; CommitId := "c2"; SkippedApply := true;
     CreateResults := []; UpdateResults := []; ApproveResults := [];
     PromoteResults := []; ReloadResults := []; SkippedResults := [];
     FilteredApps := [] |}.


(** Apply finds nothing to do while it is given a last commit id, and the
    application of the last run is gone. *)
Definition appGone : Script :=
  {| applyOf := fun a =>
       if decide (aLastRunCommitId a = "") then
         ApplyOk (set_FilteredApps AppApplyResponse_zero ["/app2"]) ["/app2"]
       else ApplyOk skippedInfo [];
     reloadOf := fun _ => Err "unused";
     presentApps := []; entriesFail := false; authKnown := [""] |}.



(** A repository cache of the server, with its temporary root. *)
Definition cache0 : RepoCache :=
  {| server := srv; rootDir := "/tmp/openrun_git_0"; cache := ∅;
     shaCache := ∅ |}.

(** The same cache with a commit hash stored for the profile "deploy", which
    the server does not know. *)
Definition cacheDeploy : RepoCache :=
  set_shaCache cache0
    {[ Build_Repo "https://github.com/org/repo" "main" "" "deploy"
         := "abc123" ]}.

(** The entry five minutes after its last run. *)
Definition world5 : SWorld :=
  set_clock (world1 "none") (63000000000000000000 + 5 * time_Minute).

(** A world whose store holds no entry yet. *)
Definition worldEmpty : SWorld :=
  {| clock := 63000000000000000000; nextTx := 0; table := ∅; views := ∅;
     tmpCount := 0 |}.

(** A second entry, and the world with both entries persisted. *)
Definition entry2 : SyncEntry :=
  {| Id := "cl_syn_2"; Path := "/more.star"; IsScheduled := true;
     UserID := "admin"; Metadata := meta "matched"; Status := lastStatus |}.

Definition world2 : SWorld :=
  {| clock := 63000000000000000000 + 20 * time_Minute; nextTx := 0;
     table := {[ "cl_syn_1" := entry1 "matched"; "cl_syn_2" := entry2 ]};
     views := ∅; tmpCount := 0 |}.

End Scenario.

(** * Further operations *)

Section MoreOps.
Context {data : Data} {collab : Collaborators}.

(** The body of the loop of [ListSyncEntries]: the entries are pointers, so
    the assignment changes the listed entry. *)
Definition clearWebhookUrl (e : SyncEntry) : SyncEntry :=
  {| Id := Id e; Path := Path e; IsScheduled := IsScheduled e;
     UserID := UserID e;
     Metadata :=
       {| Approve := Approve (Metadata e); Promote := Promote (Metadata e);
          Reload := Reload (Metadata e); GitBranch := GitBranch (Metadata e);
          GitAuth := GitAuth (Metadata e); Clobber := Clobber (Metadata e);
          ForceReload := ForceReload (Metadata e);
          WebhookUrl := "";
          WebhookSecret := WebhookSecret (Metadata e);
          ScheduleFrequency := ScheduleFrequency (Metadata e) |};
     Status := Status e |}.

Definition ListSyncEntries : M (result (list SyncEntry)) :=
  t <- BeginTransaction ;;
  match t with
  | Err e => ret (Err e)
  | Ok tx =>
      l <- GetSyncEntries tx ;;
      let r := match l with
               | Err e => Err e
               | Ok entries => Ok (clearWebhookUrl <$> entries)
               end in
      runDeferred [DeferRollback tx] None ;;;
      ret r
  end.

End MoreOps.

(** [DeleteSyncEntry] calls two operations of the metadata store that the
    other entry points do not use, [DeleteSync] and the [Commit] of a
    transaction.  They are parameters here, and their calls are recorded
    beside the events of the other calls. *)
Record SyncDeleteResponse := {
  drDryRun : bool;
  drId : string;
}.

Section DeleteOps.
Context {data : Data} {collab : Collaborators}.
Variable db_DeleteSync : World -> Transaction -> string -> error * World.
Variable Tx_Commit : World -> Transaction -> error * World.

Inductive StoreCall :=
| CallDeleteSync (tx : Transaction) (id : string) (err : error)
| CallCommit (tx : Transaction) (err : error).

(** The calls of [DeleteSyncEntry] after [BeginTransaction], before the
    deferred rollback. *)
Definition deleteAndCommit (tx : Transaction) (id : string) (dryRun : bool)
    (w : World) : result SyncDeleteResponse * World * list StoreCall :=
  match db_DeleteSync w tx id with
  | (Some e, w1) => (Err e, w1, [CallDeleteSync tx id (Some e)])
  | (None, w1) =>
      let ret := {| drId := id; drDryRun := dryRun |} in
      if dryRun then (Ok ret, w1, [CallDeleteSync tx id None])
      else
        match Tx_Commit w1 tx with
        | (Some e, w2) =>
            (Err e, w2,
             [CallDeleteSync tx id None; CallCommit tx (Some e)])
        | (None, w2) =>
            (Ok ret, w2, [CallDeleteSync tx id None; CallCommit tx None])
        end
  end.

Definition DeleteSyncEntry (id : string) (dryRun : bool) (w : World)
  : result SyncDeleteResponse * World * list (Event + StoreCall) :=
  match BeginTransaction w with
  | (Err e, w1, t1) => (Err e, w1, inl <$> t1)
  | (Ok tx, w1, t1) =>
      match deleteAndCommit tx id dryRun w1 with
      | (r, w2, t2) =>
          match runDeferred [DeferRollback tx] None w2 with
          | (_, w3, t3) => (r, w3, (inl <$> t1) ++ (inr <$> t2) ++ (inl <$> t3))
          end
      end
  end.

End DeleteOps.

(** * Further observations *)

(** The kinds of events. *)
Inductive EventKind :=
| KLog | KDir | KRemove | KGit | KBegin | KRollback | KStore | KLookup
| KUpdate | KApply | KReload | KComplete | KRun.

#[export] Instance EventKind_eq_dec : EqDecision EventKind.
Proof. solve_decision. Defined.

Section MoreObservations.
Context {data : Data} {collab : Collaborators}.

Definition kind (ev : Event) : EventKind :=
  match ev with
  | EvLog _ _ _ => KLog
  | EvMkdirTemp _ _ _ | EvMkdirAll _ => KDir
  | EvRemoveAll _ => KRemove
  | EvRemoteList _ _ | EvPlainClone _ _ | EvCheckout _ => KGit
  | EvBeginTransaction _ => KBegin
  | EvRollback _ => KRollback
  | EvCreateSync _ _ _ | EvGetSyncEntries _ | EvGetSyncEntry _ _ => KStore
  | EvGetAppTx _ _ _ => KLookup
  | EvUpdateSyncStatus _ _ _ _ => KUpdate
  | EvApply _ _ => KApply
  | EvReloadApp _ _ => KReload
  | EvCompleteTransaction _ _ _ _ _ => KComplete
  | EvRunSyncJob _ _ => KRun
  end.

(** Every event of the trace is of one of the kinds [ks]. *)
Definition onlyKinds (ks : list EventKind) (t : list Event) : bool :=
  forallb (fun ev => bool_decide (kind ev ∈ ks)) t.

Definition is_update (ev : Event) : bool :=
  match ev with EvUpdateSyncStatus _ _ _ _ => true | _ => false end.

Definition is_lookup (ev : Event) : bool :=
  match ev with EvGetAppTx _ _ _ => true | _ => false end.

Definition is_remove (ev : Event) : bool :=
  match ev with EvRemoveAll _ => true | _ => false end.

(** A transaction was completed without error. *)
Definition is_committed (ev : Event) : bool :=
  match ev with EvCompleteTransaction _ _ _ _ None => true | _ => false end.

Definition is_cleanup (d : Deferred) : bool :=
  match d with DeferCleanup => true | DeferRollback _ => false end.

(** The beginning or the rollback of a transaction. *)
Definition is_tx_boundary (ev : Event) : bool :=
  match ev with
  | EvBeginTransaction _ | EvRollback _ => true
  | _ => false
  end.

Definition is_log (ev : Event) : bool :=
  match ev with EvLog _ _ _ => true | _ => false end.

(** The creation of a directory. *)
Definition is_mkdir (ev : Event) : bool :=
  match ev with
  | EvMkdirTemp _ _ _ | EvMkdirAll _ => true
  | _ => false
  end.

(** The number of Reload calls that follow the first failed Reload. *)
Fixpoint reloadsAfterFailure (t : list Event) : nat :=
  match t with
  | [] => 0
  | EvReloadApp _ (Err _) :: t' => count is_reload t'
  | _ :: t' => reloadsAfterFailure t'
  end.

(** The applications that the successful Reloads of a trace report as
    reloaded, and as promoted, in the order of the calls. *)
Fixpoint reloadedApps (t : list Event) : list AppPathDomain :=
  match t with
  | [] => []
  | EvReloadApp _ (Ok r) :: t' => rrReloadResults r ++ reloadedApps t'
  | _ :: t' => reloadedApps t'
  end.

Fixpoint promotedApps (t : list Event) : list AppPathDomain :=
  match t with
  | [] => []
  | EvReloadApp _ (Ok r) :: t' => rrPromoteResults r ++ promotedApps t'
  | _ :: t' => promotedApps t'
  end.

(** The identifiers of the entries into [runSyncJob] made with
    [checkCommitHash] set, in order: the runs that the scheduler and the
    entry points start. *)
Fixpoint topRuns (t : list Event) : list string :=
  match t with
  | [] => []
  | EvRunSyncJob id true :: t' => id :: topRuns t'
  | _ :: t' => topRuns t'
  end.

Definition is_commit_call (c : Event + StoreCall) : bool :=
  match c with inr (CallCommit _ _) => true | _ => false end.

(** The name [getUnusedRepoPath] tries for the suffix [k]. *)
Definition suffixedPath (targetDir repoName : string) (k : Z) : string :=
  path_Join targetDir (repoName +:+ pretty k).

(** The statuses handed to [UpdateSyncStatus], in the order of the calls. *)
Fixpoint writtenStatuses (t : list Event) : list SyncJobStatus :=
  match t with
  | [] => []
  | EvUpdateSyncStatus _ _ st _ :: t' => st :: writtenStatuses t'
  | _ :: t' => writtenStatuses t'
  end.

End MoreObservations.

(** A variant of the concrete world in which the directories [dirs] exist and
    the remote lists the references [refs]. *)
Module DevScenario.
Import Scenario.
#[local] Existing Instance scenarioData.

Definition base : Collaborators := scenario applyFails.

Definition devWorld (dirs : list string) (refs : list Reference)
  : Collaborators :=
  {| World := SWorld;
     loadGitKey := @loadGitKey _ base;
     parseGitUrl := @parseGitUrl _ base;
     ssh_NewPublicKeys := @ssh_NewPublicKeys _ base;
     strconv_Quote := @strconv_Quote _ base;
     path_Join := @path_Join _ base;
     filepath_Base := @filepath_Base _ base;
     strings_ToLower := @strings_ToLower _ base;
     base64_EncodeToString := @base64_EncodeToString _ base;
     time_Now := @time_Now _ base;
     os_ExpandEnv := @os_ExpandEnv _ base;
     os_Stat_IsNotExist := fun _ p => bool_decide (p ∉ dirs);
     os_MkdirTemp := @os_MkdirTemp _ base;
     os_MkdirAll := @os_MkdirAll _ base;
     os_RemoveAll := @os_RemoveAll _ base;
     remote_List := fun w _ _ => (Ok refs, w);
     git_PlainClone := @git_PlainClone _ base;
     Repository_Worktree := @Repository_Worktree _ base;
     Worktree_Checkout := @Worktree_Checkout _ base;
     Repository_Head := @Repository_Head _ base;
     Repository_CommitObject := @Repository_CommitObject _ base;
     ksuid_NewRandom := @ksuid_NewRandom _ base;
     passwd_GeneratePassword := @passwd_GeneratePassword _ base;
     db_BeginTransaction := @db_BeginTransaction _ base;
     Tx_Rollback := @Tx_Rollback _ base;
     db_CreateSync := @db_CreateSync _ base;
     db_GetSyncEntry := @db_GetSyncEntry _ base;
     db_GetSyncEntries := @db_GetSyncEntries _ base;
     db_GetAppTx := @db_GetAppTx _ base;
     db_UpdateSyncStatus := @db_UpdateSyncStatus _ base;
     Server_Apply := @Server_Apply _ base;
     Server_ReloadApp := @Server_ReloadApp _ base;
     Server_CompleteTransaction := @Server_CompleteTransaction _ base |}.

(** Modelled from the spec: [DeleteSync] removes the entry from the view of
    the transaction and fails when it is not there; [Commit] makes the view
    the persisted table and closes the transaction. *)
Definition sDeleteSync (w : SWorld) (tx : Transaction) (id : string)
  : error * SWorld :=
  match viewOf w tx with
  | Some (h, v) =>
      match v !! id with
      | Some _ => (None, set_views w (<[h := delete id v]> (views w)))
      | None => (Some "sync entry not found", w)
      end
  | None => (Some "transaction is closed", w)
  end.

Definition sCommit (w : SWorld) (tx : Transaction) : error * SWorld :=
  sComplete w tx false.

(** Apply succeeds with one updated application. *)
Definition applyWorks : Script :=
  {| applyOf := fun _ =>
       ApplyOk
         {| DryRun := false; CommitId := "c2"; SkippedApply := false;
            CreateResults := []; UpdateResults := ["/app1"];
            ApproveResults := []; PromoteResults := []; ReloadResults := [];
            SkippedResults := []; FilteredApps := ["/app1"] |}
         ["/app1"];
     reloadOf := fun _ => Err "unused";
     presentApps := ["/app1"]; entriesFail := false; authKnown := [""] |}.

(** Apply finds nothing to do and the reload of the application works. *)
Definition reloadWorks : Script :=
  {| applyOf := fun _ => ApplyOk skippedInfo [];
     reloadOf := fun _ =>
       Ok {| rrDryRun := false; rrReloadResults := ["/app1"];
             rrApproveResult := None; rrPromoteResults := [];
             rrSkippedResults := [] |};
     presentApps := ["/app1"]; entriesFail := false; authKnown := [""] |}.

(** The persisted entry after three failed runs, the maximum of [srv]: the
    scheduler passes it over. *)
Definition disabledEntry : SyncEntry :=
  set_Status (entry1 "none")
    {| LastExecutionTime := 63000000000000000000; IsApply := true;
       State := "Disabled"; Error := "apply failed"; FailureCount := 3;
       stCommitId := "";
       ApplyResponse := set_FilteredApps AppApplyResponse_zero ["/app1"] |}.

Definition worldDisabled : SWorld :=
  {| clock := 63000000000000000000 + 20 * time_Minute; nextTx := 0;
     table := {[ "cl_syn_1" := disabledEntry ]}; views := ∅;
     tmpCount := 0 |}.

(** The concrete world with a remote whose clone works and whose checkout
    fails. *)
Definition checkoutFails : Collaborators :=
  {| World := SWorld;
     loadGitKey := @loadGitKey _ base;
     parseGitUrl := @parseGitUrl _ base;
     ssh_NewPublicKeys := @ssh_NewPublicKeys _ base;
     strconv_Quote := @strconv_Quote _ base;
     path_Join := @path_Join _ base;
     filepath_Base := @filepath_Base _ base;
     strings_ToLower := @strings_ToLower _ base;
     base64_EncodeToString := @base64_EncodeToString _ base;
     time_Now := @time_Now _ base;
     os_ExpandEnv := @os_ExpandEnv _ base;
     os_Stat_IsNotExist := @os_Stat_IsNotExist _ base;
     os_MkdirTemp := @os_MkdirTemp _ base;
     os_MkdirAll := @os_MkdirAll _ base;
     os_RemoveAll := @os_RemoveAll _ base;
     remote_List := @remote_List _ base;
     git_PlainClone := @git_PlainClone _ base;
     Repository_Worktree := @Repository_Worktree _ base;
     Worktree_Checkout := fun w _ _ => (Some "reference not found", w);
     Repository_Head := @Repository_Head _ base;
     Repository_CommitObject := @Repository_CommitObject _ base;
     ksuid_NewRandom := @ksuid_NewRandom _ base;
     passwd_GeneratePassword := @passwd_GeneratePassword _ base;
     db_BeginTransaction := @db_BeginTransaction _ base;
     Tx_Rollback := @Tx_Rollback _ base;
     db_CreateSync := @db_CreateSync _ base;
     db_GetSyncEntry := @db_GetSyncEntry _ base;
     db_GetSyncEntries := @db_GetSyncEntries _ base;
     db_GetAppTx := @db_GetAppTx _ base;
     db_UpdateSyncStatus := @db_UpdateSyncStatus _ base;
     Server_Apply := @Server_Apply _ base;
     Server_ReloadApp := @Server_ReloadApp _ base;
     Server_CompleteTransaction := @Server_CompleteTransaction _ base |}.

(** An entry scheduled every 153722868 minutes, a number of minutes whose
    product with [time.Minute] exceeds the largest [Duration], and the world
    five minutes after its last run. *)
Definition entryRare : SyncEntry :=
  {| Id := "cl_syn_1"; Path := "/apps.star"; IsScheduled := true;
     UserID := "admin";
     Metadata :=
       {| Approve := false; Promote := false; Reload := "none";
          GitBranch := "main"; GitAuth := ""; Clobber := false;
          ForceReload := false; WebhookUrl := ""; WebhookSecret := "";
          ScheduleFrequency := 153722868 |};
     Status := lastStatus |}.

Definition worldRare : SWorld :=
  {| clock := 63000000000000000000 + 5 * time_Minute; nextTx := 0;
     table := {[ "cl_syn_1" := entryRare ]}; views := ∅; tmpCount := 0 |}.

End DevScenario.

(** * Properties *)

Section RepoCacheFacts.
Context {data : Data} {collab : Collaborators}.

Lemma count_app (p : Event -> bool) (t1 t2 : list Event) :
  count p (t1 ++ t2) = (count p t1 + count p t2)%nat.
Proof. unfold count. rewrite List.filter_app, length_app. reflexivity. Qed.

(** Unfolding of the monad operations. *)
Ltac unmonad :=
  unfold log in *; unfold bind, ret, emit, call, ask in *.

(** Case analysis on the innermost scrutinee of the goal. *)
Ltac destr :=
  match goal with
  | |- context [match ?x with _ => _ end] =>
      lazymatch x with
      | context [match _ with _ => _ end] => fail
      | _ => destruct x eqn:?
      end
  end.

Lemma authFor_trace r g w :
  forall a w' t, authFor r g w = (a, w', t) ->
    w' = w /\ existsb is_clone t = false /\ existsb is_checkout t = false /\
    existsb is_remote_list t = false.
Proof.
  unfold authFor. intros a w' t. destruct (decide (g = "")); unmonad.
  - intros [= <- <- <-]. auto.
  - destruct (createAuthMethod r g); intros [= <- <- <-]; auto.
Qed.

Lemma latestCommitSHA_trace repo b a w :
  forall x w' t, latestCommitSHA repo b a w = (x, w', t) ->
    existsb is_clone t = false /\ existsb is_checkout t = false.
Proof.
  unfold latestCommitSHA, RemoteList. unmonad. intros x w' t.
  destruct (remote_List w repo a) as [[refs|e] w1].
  - destruct (findRef _ refs); intros [= <- <- <-]; auto.
  - intros [= <- <- <-]; auto.
Qed.

(** C10.  In [GetSha] the auth profile is resolved (with the configured
    default for an empty name) and the URL is parsed before the lookup in
    [shaCache]: when the resolved profile cannot be loaded, or the URL does
    not parse, [GetSha] returns that error, leaves the cache and the world as
    they are and makes no call, whatever [shaCache] holds; in particular
    when it holds an entry for the requested branch and profile. *)
Theorem GetSha_auth_before_cache (r : RepoCache) (sourceUrl b g e : string)
    (w : World) :
  loadGitKey (server r) (cmp_Or g (DefaultGitAuth (server r))) = Err e \/
  (exists authEntry,
     loadGitKey (server r) (cmp_Or g (DefaultGitAuth (server r)))
       = Ok authEntry /\
     parseGitUrl sourceUrl (usingSSH authEntry) = Err e) ->
  GetSha r sourceUrl b g w = (Err e, r, w, []).
Proof.
  unfold GetSha. intros [H | (authEntry & H & Hp)]; rewrite H.
  - reflexivity.
  - rewrite Hp. reflexivity.
Qed.

(** The events of [GetSha]: never a clone, never a checkout. *)
Lemma GetSha_no_clone r sourceUrl b g w :
  forall x w' t, GetSha r sourceUrl b g w = (x, w', t) ->
    existsb is_clone t = false /\ existsb is_checkout t = false.
Proof.
  unfold GetSha. intros x w' t.
  destruct (loadGitKey _ _) as [authEntry|e]; [|intros [= <- <- <-]; auto].
  destruct (parseGitUrl _ _) as [[repo folder]|e]; [|intros [= <- <- <-]; auto].
  destruct (shaCache r !! _) as [sha|]; [intros [= <- <- <-]; auto|].
  unfold bind at 1.
  destruct (authFor _ _ _) as [[a w1] t1] eqn:Ha.
  apply authFor_trace in Ha as (-> & Hc & Hk & _).
  destruct a as [a|e]; unmonad.
  - destruct (latestCommitSHA _ _ _ _) as [[y w2] t2] eqn:Hl.
    apply latestCommitSHA_trace in Hl as [Hc2 Hk2].
    destruct y; intros [= <- <- <-]; rewrite !existsb_app, Hc, Hk, Hc2, Hk2; auto.
  - intros [= <- <- <-]. rewrite !existsb_app, Hc, Hk. auto.
Qed.

(** C6.  [GetSha] never clones and never checks out.  After a call that
    returned a hash, the hash is in [shaCache] under a key whose commit field
    is empty, and a later call with the same arguments on the same cache
    (as left by the first call, or grown since) returns that hash with no
    event at all: no second listing of the remote references. *)
Theorem GetSha_cached :
  (forall (r : RepoCache) (sourceUrl b g : string) (w : World),
     existsb is_clone (snd (GetSha r sourceUrl b g w)) = false /\
     existsb is_checkout (snd (GetSha r sourceUrl b g w)) = false) /\
  (forall (r : RepoCache) (sourceUrl b g : string) (w : World)
          (sha : string) (r' : RepoCache) (w' : World) (t : list Event),
     GetSha r sourceUrl b g w = (Ok sha, r', w', t) ->
     server r' = server r /\
     (exists repo,
        shaCache r' !!
          Build_Repo repo b "" (cmp_Or g (DefaultGitAuth (server r)))
        = Some sha) /\
     forall (r2 : RepoCache) (w2 : World),
       server r2 = server r' -> shaCache r' ⊆ shaCache r2 ->
       GetSha r2 sourceUrl b g w2 = (Ok sha, r2, w2, [])).
Proof.
  split.
  { intros r sourceUrl b g w.
    destruct (GetSha r sourceUrl b g w) as [[x w'] t] eqn:H.
    exact (GetSha_no_clone _ _ _ _ _ _ _ _ H). }
  intros r sourceUrl b g w sha r' w' t. unfold GetSha.
  destruct (loadGitKey _ _) as [authEntry|e] eqn:Hkey; [|discriminate].
  destruct (parseGitUrl _ _) as [[repo folder]|e] eqn:Hurl; [|discriminate].
  set (k := Build_Repo repo b "" _).
  assert (Hhit : forall rr : RepoCache, server rr = server r ->
            shaCache rr !! k = Some sha ->
            forall w2, GetSha rr sourceUrl b g w2 = (Ok sha, rr, w2, [])).
  { intros rr Hs Hl w2. unfold GetSha. rewrite Hs, Hkey, Hurl.
    fold k. rewrite Hl. reflexivity. }
  destruct (shaCache r !! k) as [sha0|] eqn:Hl.
  - intros [= <- <- <- <-]. split; [reflexivity|]. split; [eauto|].
    intros r2 w2 Hs Hsub.
    apply Hhit; [done|]. eapply lookup_weaken; eauto.
  - unfold bind at 1. destruct (authFor _ _ _) as [[a w1] t1].
    destruct a as [a|e]; unmonad; [|discriminate].
    destruct (latestCommitSHA _ _ _ _) as [[y w2] t2].
    destruct y as [sha1|e]; [|discriminate].
    intros [= <- <- <- <-]. simpl. split; [reflexivity|].
    split; [exists repo; apply lookup_insert_eq|].
    intros r2 w3 Hs Hsub.
    apply Hhit; [done|]. eapply lookup_weaken; [|exact Hsub].
    simpl. apply lookup_insert_eq.
Qed.

Lemma targetPathFor_trace fuel r repo isDev w :
  forall x w' t, targetPathFor fuel r repo isDev w = (x, w', t) ->
    count is_clone t = 0%nat.
Proof.
  unfold targetPathFor, MkdirAll, MkdirTemp. intros x w' t.
  destruct isDev; unmonad.
  - destruct (getUnusedRepoPath _ _ _ _) as [p|]; [|intros [= <- <- <-]; auto].
    destruct (os_MkdirAll w p) as [[e|] w1]; intros [= <- <- <-]; auto.
  - destruct (os_MkdirTemp _ _ _) as [y w1]. intros [= <- <- <-]; auto.
Qed.

Lemma cloneAndCheckout_trace p repo b c o w :
  forall x w' t, cloneAndCheckout p repo b c o w = (x, w', t) ->
    count is_clone t = 1%nat.
Proof.
  unfold cloneAndCheckout, PlainClone, Checkout. unmonad. intros x w' t.
  repeat destr; intros [= <- <- <-]; reflexivity.
Qed.

(** Every call of [CheckoutRepo] clones at most once. *)
Lemma CheckoutRepo_clones_once fuel r sourceUrl b c g isDev w :
  forall x w' t, CheckoutRepo fuel r sourceUrl b c g isDev w = (x, w', t) ->
    (count is_clone t <= 1)%nat.
Proof.
  unfold CheckoutRepo. intros x w' t.
  destruct (loadGitKey _ _) as [authEntry|e]; [|intros [= <- <- <-]; auto].
  destruct (parseGitUrl _ _) as [[repo folder]|e]; [|intros [= <- <- <-]; auto].
  destruct (cache r !! _) as [d|]; [intros [= <- <- <-]; auto|].
  unfold bind at 1.
  destruct (authFor _ _ _) as [[a w1] t1] eqn:Ha.
  apply authFor_trace in Ha as (-> & Hc & _).
  assert (Ht1 : count is_clone t1 = 0%nat).
  { clear -Hc. induction t1 as [|ev t1 IH]; [done|]. simpl in Hc.
    apply orb_false_iff in Hc as [He Hc]. unfold count in *. simpl.
    rewrite He. auto. }
  destruct a as [a|e]; [|unmonad; intros [= <- <- <-];
                          rewrite count_app, Ht1; simpl; auto].
  unfold bind at 1.
  destruct (targetPathFor _ _ _ _ _) as [[p w2] t2] eqn:Hp.
  apply targetPathFor_trace in Hp.
  destruct p as [[p|e]|];
    [|unmonad; intros [= <- <- <-]; rewrite !count_app, Ht1, Hp; simpl; auto ..].
  unfold bind at 1.
  destruct (cloneAndCheckout _ _ _ _ _ _) as [[y w3] t3] eqn:Hcl.
  apply cloneAndCheckout_trace in Hcl.
  destruct y; unmonad; intros [= <- <- <-];
    rewrite !count_app, Ht1, Hp, Hcl; simpl; auto.
Qed.

(** C5.  When a call of [CheckoutRepo] has returned a tuple, a later call
    with the same arguments on the same cache (as left by the first call, or
    grown since) returns the same tuple with no event at all, so without a
    clone or a checkout, and leaves cache and world as they are; the two
    calls together clone at most once.  The first call is one that returned
    a tuple: a call that fails stores nothing in the cache, and the statement
    says nothing of a call made after it. *)
Theorem CheckoutRepo_cached (fuel : nat) (r : RepoCache)
    (sourceUrl b c g : string) (isDev : bool) (w : World) (res : Checked)
    (r' : RepoCache) (w' : World) (t : list Event) :
  CheckoutRepo fuel r sourceUrl b c g isDev w = (Some (Ok res), r', w', t) ->
  forall (fuel2 : nat) (r2 : RepoCache) (w2 : World),
    server r2 = server r' -> cache r' ⊆ cache r2 ->
    CheckoutRepo fuel2 r2 sourceUrl b c g isDev w2 = (Some (Ok res), r2, w2, [])
    /\ (count is_clone
          (t ++ snd (CheckoutRepo fuel2 r2 sourceUrl b c g isDev w2)) <= 1)%nat.
Proof.
  intros H fuel2 r2 w2 Hs Hsub.
  pose proof (CheckoutRepo_clones_once _ _ _ _ _ _ _ _ _ _ _ H) as Hone.
  assert (Hhit :
    CheckoutRepo fuel2 r2 sourceUrl b c g isDev w2
      = (Some (Ok res), r2, w2, [])).
  { revert H. unfold CheckoutRepo.
    destruct (loadGitKey (server r) _) as [authEntry|e] eqn:Hkey;
      [|discriminate].
    destruct (parseGitUrl _ _) as [[repo folder]|e] eqn:Hurl; [|discriminate].
    set (k := Build_Repo repo b c _).
    assert (Hh : forall d, server r' = server r -> cache r' !! k = Some d ->
              res = (dir d, folder, commitMessage d, hash d) ->
              CheckoutRepo fuel2 r2 sourceUrl b c g isDev w2
                = (Some (Ok res), r2, w2, [])).
    { intros d Hs' Hl ->. unfold CheckoutRepo. rewrite Hs, Hs', Hkey, Hurl.
      fold k. rewrite (lookup_weaken _ _ _ _ Hl Hsub). reflexivity. }
    destruct (cache r !! k) as [d|] eqn:Hl.
    - intros [= <- <- <- <-]. intros. eapply Hh; eauto.
    - unfold bind at 1. destruct (authFor _ _ _) as [[a w1] t1].
      destruct a as [a|e]; [|unmonad; discriminate].
      unfold bind at 1. destruct (targetPathFor _ _ _ _ _) as [[p w3] t3].
      destruct p as [[p|e]|]; [|unmonad; discriminate ..].
      unfold bind at 1. destruct (cloneAndCheckout _ _ _ _ _ _) as [[y w4] t4].
      destruct y as [nc|e]; [|unmonad; discriminate].
      unmonad. intros [= <- <- <- <-]. intros.
      eapply Hh; [reflexivity|simpl; apply lookup_insert_eq|reflexivity]. }
  split; [exact Hhit|]. rewrite Hhit. simpl. rewrite app_nil_r. exact Hone.
Qed.

End RepoCacheFacts.

Section SyncFacts.
Context {data : Data} {collab : Collaborators}.

Ltac unmonad :=
  unfold log in *; unfold bind, ret, emit, call, ask in *.

Ltac destr :=
  match goal with
  | |- context [match ?x with _ => _ end] =>
      lazymatch x with
      | context [match _ with _ => _ end] => fail
      | _ => destruct x eqn:?
      end
  end.

Lemma calm_nil : calm [].
Proof. repeat split. Qed.

Lemma activations_app t1 t2 :
  activations (t1 ++ t2) = activations t1 ++ activations t2.
Proof.
  induction t1 as [|ev t1 IH]; [reflexivity|].
  destruct ev; simpl; rewrite ?IH; reflexivity.
Qed.

Lemma calm_app t1 t2 : calm t1 -> calm t2 -> calm (t1 ++ t2).
Proof.
  intros (F1 & R1 & C1 & A1 & M1) (F2 & R2 & C2 & A2 & M2). unfold calm.
  rewrite !existsb_app, activations_app, F1, F2, R1, R2, C1, C2, A1, A2,
    M1, M2.
  auto.
Qed.

Lemma calm_cons ev t :
  is_apply ev = false -> is_reload ev = false -> is_complete ev = false ->
  is_run ev = false -> is_missing_app ev = false -> calm t -> calm (ev :: t).
Proof.
  intros Ha Hr Hc Hn Hm (F & R & C & A & M). unfold calm. simpl.
  rewrite Ha, Hr, Hc, Hm, F, R, C, M. repeat split.
  destruct ev; try discriminate; exact A.
Qed.

Lemma applyHints_app t1 t2 :
  applyHints (t1 ++ t2) = applyHints t1 ++ applyHints t2.
Proof.
  induction t1 as [|ev t1 IH]; [reflexivity|].
  destruct ev; simpl; rewrite ?IH; reflexivity.
Qed.

Lemma applyHints_no_apply t : existsb is_apply t = false -> applyHints t = [].
Proof.
  induction t as [|ev t IH]; [reflexivity|]. simpl.
  intros [H1 H2]%orb_false_iff. destruct ev; try discriminate; auto.
Qed.

Lemma no_failure t :
  existsb is_apply t = false -> existsb is_reload t = false ->
  run_failed t = false.
Proof.
  unfold run_failed. induction t as [|ev t IH]; [reflexivity|]. simpl.
  intros [Ha1 Ha2]%orb_false_iff [Hr1 Hr2]%orb_false_iff.
  rewrite IH by assumption. destruct ev; try reflexivity; discriminate.
Qed.

Lemma run_failed_app t1 t2 :
  run_failed (t1 ++ t2) = run_failed t1 || run_failed t2.
Proof. apply existsb_app. Qed.

Lemma run_failed_cons ev t :
  run_failed (ev :: t) = is_failure ev || run_failed t.
Proof. reflexivity. Qed.

Lemma existsb_In (p : Event -> bool) ev t :
  In ev t -> p ev = true -> existsb p t = true.
Proof. intros Hin Hp. apply existsb_exists. eauto. Qed.

Ltac calm_tac :=
  repeat first
    [ assumption
    | apply calm_nil
    | apply calm_app
    | apply calm_cons; [reflexivity ..|] ].

Lemma Cleanup_calm r w :
  forall r' w' t, Cleanup r w = (r', w', t) -> calm t.
Proof.
  unfold Cleanup, RemoveAll. unmonad. intros r' w' t.
  destruct (decide _); intros [= <- <- <-]; calm_tac.
Qed.

Lemma runDeferred_calm ds :
  forall rc w x w' t, runDeferred ds rc w = (x, w', t) -> calm t.
Proof.
  induction ds as [|d ds IH]; intros rc w x w' t; simpl.
  - intros [= <- <- <-]. apply calm_nil.
  - destruct d as [tx|].
    + unfold Rollback. unmonad.
      destruct (runDeferred ds rc _) as [[y w1] t1] eqn:Hd.
      intros [= <- <- <-]. apply IH in Hd. simpl. calm_tac.
    + destruct rc as [r|]; [|apply IH].
      unfold bind.
      destruct (Cleanup r w) as [[r1 w1] t1] eqn:Hc.
      destruct (runDeferred ds _ w1) as [[y w2] t2] eqn:Hd.
      intros [= <- <- <-]. apply calm_app; eauto using Cleanup_calm.
Qed.

(** The deferred rollbacks all happen. *)
Lemma runDeferred_rollback ds tx :
  In (DeferRollback tx) ds ->
  forall rc w x w' t, runDeferred ds rc w = (x, w', t) -> In (EvRollback tx) t.
Proof.
  induction ds as [|d ds IH]; intros Hin rc w x w' t; [destruct Hin|].
  simpl. destruct d as [tx0|].
  - unfold Rollback. unmonad.
    destruct (runDeferred ds rc _) as [[y w1] t1] eqn:Hd.
    intros [= <- <- <-]. destruct Hin as [[= ->]|Hin]; [left; reflexivity|].
    right. simpl. eapply IH; eauto.
  - destruct Hin as [|Hin]; [discriminate|].
    destruct rc as [r|]; [|eapply IH; eauto].
    unfold bind.
    destruct (Cleanup r w) as [[r1 w1] t1] eqn:Hc.
    destruct (runDeferred ds _ w1) as [[y w2] t2] eqn:Hd.
    intros [= <- <- <-]. apply in_or_app. right. eapply IH; eauto.
Qed.

Lemma lookupApps_spec tx apps :
  forall m w x w' t, lookupApps tx apps m w = (x, w', t) ->
    existsb is_apply t = false /\ existsb is_reload t = false /\
    existsb is_complete t = false /\ activations t = [] /\
    existsb is_missing_app t = fst x.
Proof.
  induction apps as [|a apps IH]; intros m w x w' t; simpl.
  - unmonad. intros [= <- <- <-]. repeat split.
  - unfold GetAppTx. unmonad.
    destruct (db_GetAppTx w tx a) as [[app|e] w1].
    + destruct (lookupApps tx apps _ w1) as [[y w2] t2] eqn:Hl.
      intros [= <- <- <-]. apply IH in Hl. exact Hl.
    + intros [= <- <- <-]. repeat split.
Qed.

(** When no application is missing, the map answers for all of them. *)
Lemma lookupApps_complete tx apps :
  forall m w m' w' t, lookupApps tx apps m w = ((false, m'), w', t) ->
    forall a, (In a apps \/ appMap_lookup m a <> None) ->
              appMap_lookup m' a <> None.
Proof.
  induction apps as [|a0 apps IH]; intros m w m' w' t; simpl.
  - unmonad. intros [= <- <- <-] a [[]|H]; exact H.
  - unfold GetAppTx. unmonad.
    destruct (db_GetAppTx w tx a0) as [[app|e] w1]; [|discriminate].
    destruct (lookupApps tx apps _ w1) as [[y w2] t2] eqn:Hl.
    intros [= -> <- <-] a Ha. eapply IH; [exact Hl|].
    unfold appMap_insert. simpl. destruct (decide (a0 = a)) as [->|Hne].
    + right. discriminate.
    + destruct Ha as [[->|Ha]|Ha]; [contradiction|left; exact Ha|right; exact Ha].
Qed.

(** The reload loop: no panic when the map answers for every application;
    the returned error is that of the one failed Reload of the trace. *)
Lemma reloadApps_spec tx entry m apps :
  (forall a, In a apps -> appMap_lookup m a <> None) ->
  forall rc acc w x w' t, reloadApps tx entry m apps rc acc w = (x, w', t) ->
    existsb is_apply t = false /\ existsb is_complete t = false /\
    activations t = [] /\ existsb is_missing_app t = false /\
    exists reloadErr acc', fst x = Returns (reloadErr, acc') /\
      match reloadErr with
      | None => run_failed t = false
      | Some e =>
          run_failed t = true /\
          forall a e', In (EvReloadApp a (Err e')) t -> e' = e
      end.
Proof.
  induction apps as [|a apps IH]; intros Hm rc acc w x w' t; simpl.
  - unmonad. intros [= <- <- <-]. repeat split. exists None, acc. auto.
  - destruct (appMap_lookup m a) as [app|] eqn:Hl;
      [|exfalso; eapply Hm; [left; reflexivity|exact Hl]].
    unfold ReloadApp. unmonad.
    destruct (Server_ReloadApp w _ rc) as [[[r|e] rc1] w1]; simpl.
    + destruct (reloadApps tx entry m apps rc1 _ w1) as [[y w2] t2] eqn:Hr.
      intros [= <- <- <-].
      apply IH in Hr as (Hp & Hc & Ha & Hmi & reloadErr & acc' & Hx & Hf);
        [|intros; apply Hm; right; assumption].
      simpl. split; [exact Hp|]. split; [exact Hc|]. split; [exact Ha|].
      split; [exact Hmi|].
      exists reloadErr, acc'. split; [exact Hx|].
      destruct reloadErr as [e|]; [|exact Hf].
      destruct Hf as [Hf Hin]. split; [exact Hf|].
      intros a' e' [[=]|Hin']. eauto.
    + intros [= <- <- <-]. simpl. repeat split.
      exists (Some e), acc. split; [reflexivity|]. split; [reflexivity|].
      intros a' e' [[= _ ->]|[[=]|[]]]. reflexivity.
Qed.

(** The end of a run.  With an empty [status.Error] the status is written
    through the transaction of the run, which is completed only when the run
    owns it.  With a non-empty one the transaction of the run is rolled back
    and the status is written through a fresh transaction, whose rollback is
    deferred and which is never completed; no application is reported. *)
Lemma finishRun_spec inputTx entry dryRun tx status applyInfo apps defers w :
  forall v defers' w' t,
    finishRun inputTx entry dryRun tx status applyInfo apps defers w
      = ((v, defers'), w', t) ->
    existsb is_apply t = false /\ existsb is_reload t = false /\
    activations t = [] /\ existsb is_missing_app t = false /\
    (Error status = "" ->
       defers' = defers /\
       (Tx inputTx <> None -> existsb is_complete t = false) /\
       forall st a, v = Ok (st, a) ->
         st = set_ApplyResponse status applyInfo /\ a = apps) /\
    (Error status <> "" ->
       existsb is_complete t = false /\
       (exists t', t = EvRollback tx :: t') /\
       forall st a, v = Ok (st, a) ->
         st = set_ApplyResponse status applyInfo /\ a = [] /\
         exists tx',
           defers' = DeferRollback tx' :: defers /\
           t = [EvRollback tx; EvBeginTransaction (Ok tx');
                EvUpdateSyncStatus tx' (Id entry) st None]).
Proof.
  intros v defers' w' t. unfold finishRun.
  unfold Rollback, BeginTransaction, UpdateSyncStatus, CompleteTransaction.
  unmonad.
  repeat destr; intros [= <- <- <- <-]; simpl;
    (split; [reflexivity|]); (split; [reflexivity|]); (split; [reflexivity|]);
    (split; [reflexivity|]);
    (split; [intros He|intros He]); simpl in *; try contradiction;
    repeat match goal with H : _ /\ _ |- _ => destruct H end;
    try congruence.
  all: split; [first [reflexivity | congruence]|].
  all: split; [first [eexists; reflexivity | intros; simpl; congruence]|].
  all: intros st a0 E; inversion E; subst; auto.
  all: split; [reflexivity|]; split; [reflexivity|].
  all: eexists; split; reflexivity.
Qed.

(** The three ways through the body of [runSyncJob]: straight to the end;
    an application of the last run is missing (error or nested call); the
    applications of the last run are reloaded. *)
Lemma runSyncJobBody_inv rerun s inputTx entry dryRun cch tx rc defers w :
  forall o rc' ds' w' t,
    runSyncJobBody rerun s inputTx entry dryRun cch tx rc defers w
      = ((o, rc', ds'), w', t) ->
    exists out rc1 w1,
      let args := applyArgsFor tx entry dryRun cch in
      let sA := statusAfterApply s entry dryRun (time_Now w1) out in
      let lastRunApps := FilteredApps (ApplyResponse (Status entry)) in
      Server_Apply w args rc = (out, rc1, w1) /\
      ((~ skipOptimisation entry out /\
        exists v tF,
          finishRun inputTx entry dryRun tx (fst (fst sA)) (snd (fst sA))
            (snd sA) defers w1 = ((v, ds'), w', tF) /\
          o = Returns v /\ t = applyEvents entry args out ++ tF)
       \/
       (skipOptimisation entry out /\
        exists m w2 tL,
          lookupApps tx lastRunApps [] w1 = ((true, m), w2, tL) /\
          ds' = defers /\
          ((cch = false /\ w' = w2 /\
            o = Returns
                  (Err "Unexpected error, sync rerun with no commit hash") /\
            t = applyEvents entry args out ++ tL)
           \/
           (cch = true /\
            exists orc tR,
              rerun rc1 w2 = ((o, orc), w', tR) /\
              t = applyEvents entry args out ++ tL ++ tR)))
       \/
       (skipOptimisation entry out /\
        exists m w2 tL reloadErr acc rc2 w3 tR v tF,
          lookupApps tx lastRunApps [] w1 = ((false, m), w2, tL) /\
          reloadApps tx entry m lastRunApps rc1 ReloadAcc_empty w2
            = ((Returns (reloadErr, acc), rc2), w3, tR) /\
          finishRun inputTx entry dryRun tx
            (match reloadErr with
             | Some e => set_failure s entry e (fst (fst sA))
             | None => fst (fst sA)
             end)
            (match reloadErr with
             | Some _ =>
                 set_results
                   (match FilteredApps (snd (fst sA)) with
                    | [] => set_FilteredApps (snd (fst sA)) lastRunApps
                    | _ :: _ => snd (fst sA)
                    end)
                   (reloadResults acc) (approveResults acc)
                   (promoteResults acc)
             | None =>
                 match FilteredApps (snd (fst sA)) with
                 | [] => set_FilteredApps (snd (fst sA)) lastRunApps
                 | _ :: _ => snd (fst sA)
                 end
             end)
            (snd sA) defers w3 = ((v, ds'), w', tF) /\
          o = Returns v /\
          t = applyEvents entry args out ++ tL ++ tR ++ tF)).
Proof.
  intros o rc' ds' w' t. unfold runSyncJobBody, Apply.
  unfold bind at 1. unfold bind at 1. unfold call at 1.
  destruct (Server_Apply w _ rc) as [[out rc1] w1] eqn:HA.
  intros H. exists out, rc1, w1. cbv zeta. split; [reflexivity|].
  revert H. cbn [fst snd].
  unfold bind at 1. unfold emit at 1, ret at 1. cbn [fst snd].
  unfold bind at 1. unfold ask at 1.
  unfold bind at 1.
  assert (HtA : logApplyError entry out w1 = (tt, w1,
            match applyFailed out with
            | Some e =>
                [EvLog LvlError (Some e)
                   ("Error applying sync job " +:+ Id entry)]
            | None => []
            end)).
  { unfold logApplyError. destruct (applyFailed out); reflexivity. }
  rewrite HtA. clear HtA.
  destruct (statusAfterApply s entry dryRun (time_Now w1) out)
    as [[status applyInfo] updatedApps] eqn:HsA. cbn [fst snd].
  assert (Hinfo : forall info l, out = ApplyOk info l -> applyInfo = info).
  { intros info l ->. simpl in HsA. congruence. }
  destruct (decide _) as [(Hok & Hskip & Hmatch)|Hno].
  - assert (Hopt : skipOptimisation entry out).
    { destruct out as [info l|l e]; [|discriminate].
      exists info, l. rewrite <- (Hinfo info l eq_refl). auto. }
    unfold bind at 1.
    destruct (lookupApps tx _ [] w1) as [[[missing m] w2] tL] eqn:HL.
    destruct missing.
    + destruct cch; simpl.
      * unfold bind at 1.
        destruct (rerun rc1 w2) as [[[o1 orc] w3] tR] eqn:HR.
        destruct orc; unfold ret; intros [= <- <- <- <- <-];
          right; left; (split; [exact Hopt|]); exists m, w2, tL;
          (split; [reflexivity|]); (split; [reflexivity|]); right;
          (split; [reflexivity|]); eexists _, tR; (split; [first [reflexivity | exact HR]|]);
          unfold applyEvents; simpl; rewrite ?app_nil_r, <- ?app_assoc;
          reflexivity.
      * unfold ret. intros [= <- <- <- <- <-].
        right; left. split; [exact Hopt|]. exists m, w2, tL.
        split; [reflexivity|]. split; [reflexivity|].
        left. repeat split. unfold applyEvents. simpl.
        rewrite ?app_nil_r, <- ?app_assoc. reflexivity.
    + pose proof (lookupApps_complete _ _ _ _ _ _ _ HL) as Hcomplete.
      unfold bind at 1.
      destruct (reloadApps tx entry m _ rc1 _ w2) as [[[z rc2] w3] tR] eqn:HR.
      pose proof (reloadApps_spec tx entry m _
                    (fun a Ha => Hcomplete a (or_introl Ha))
                    _ _ _ _ _ _ HR)
        as (_ & _ & _ & _ & reloadErr & acc & Hz & _).
      simpl in Hz. subst z.
      unfold bind at 1.
      destruct (finishRun _ _ _ _ _ _ _ _ w3) as [[[v ds1] w4] tF] eqn:HF.
      unfold ret. intros [= <- <- <- <- <-].
      right. right. split; [exact Hopt|].
      exists m, w2, tL, reloadErr, acc, rc2, w3, tR, v, tF.
      split; [first [reflexivity | exact HL]|].
      split; [first [reflexivity | exact HR]|].
      split; [first [reflexivity | exact HF]|]. split; [reflexivity|].
      unfold applyEvents. simpl. rewrite ?app_nil_r, <- ?app_assoc.
      reflexivity.
  - unfold bind at 1.
    destruct (finishRun _ _ _ _ _ _ _ _ w1) as [[[v ds1] w4] tF] eqn:HF.
    unfold ret. intros [= <- <- <- <- <-].
    left. split.
    { intros (info & l & -> & Hs & Hm). apply Hno.
      rewrite (Hinfo info l eq_refl). auto. }
    exists v, tF. split; [first [reflexivity | exact HF]|].
    split; [reflexivity|].
    unfold applyEvents. simpl. rewrite ?app_nil_r, <- ?app_assoc.
    reflexivity.
Qed.

Lemma bind_inv {A B} (m : M A) (k : A -> M B) w b w' t :
  bind m k w = (b, w', t) ->
  exists a w1 t1 t2, m w = (a, w1, t1) /\ k a w1 = (b, w', t2) /\ t = t1 ++ t2.
Proof.
  unfold bind. destruct (m w) as [[a w1] t1].
  destruct (k a w1) as [[b' w2] t2] eqn:Hk. intros [= <- <- <-].
  exists a, w1, t1, t2. repeat split. exact Hk.
Qed.

Lemma acquireTx_spec inputTx w :
  forall r w' t, acquireTx inputTx w = (r, w', t) ->
    calm t /\
    forall tx ds, r = Ok (tx, ds) ->
      (Tx inputTx <> None -> tx = inputTx /\ ds = [] /\ t = [] /\ w' = w) /\
      (Tx inputTx = None -> ds = [DeferRollback tx]).
Proof.
  intros r w' t. unfold acquireTx, BeginTransaction.
  destruct (Tx inputTx) as [h|]; unmonad.
  - intros [= <- <- <-]. split; [calm_tac|].
    intros tx ds [= <- <-]. split; [auto|discriminate].
  - destruct (db_BeginTransaction w) as [[h|e] w1]; intros [= <- <- <-];
      (split; [simpl; calm_tac|]); intros tx ds [= <- <-].
    split; [congruence|auto].
Qed.

Lemma acquireCache_spec s repoCache ds w :
  forall r w' t, acquireCache s repoCache ds w = (r, w', t) -> calm t.
Proof.
  intros r w' t. unfold acquireCache, NewRepoCache, MkdirTemp.
  destruct repoCache as [rc|]; unmonad.
  - intros [= <- <- <-]. calm_tac.
  - destruct (os_MkdirTemp w _ _) as [[d|e] w1]; intros [= <- <- <-];
      simpl; calm_tac.
Qed.

(** One activation of [runSyncJob]: either an acquisition fails, or the
    body runs and then the deferred calls. *)
Lemma runSyncJobN_inv fuel s inputTx entry dryRun cch repoCache w :
  forall o orc w' t,
    runSyncJobN (S fuel) s inputTx entry dryRun cch repoCache w
      = ((o, orc), w', t) ->
    (exists e tq,
       o = Returns (Err e) /\ calm tq /\
       t = EvRunSyncJob (Id entry) cch :: tq)
    \/
    (exists tx rc0 ds0 w0 tP rc1 ds1 w1 tB rcf tD,
       calm tP /\
       (Tx inputTx <> None -> tx = inputTx) /\
       runSyncJobBody
         (fun rc => runSyncJobN fuel s inputTx entry dryRun false (Some rc))
         s inputTx entry dryRun cch tx rc0 ds0 w0 = ((o, rc1, ds1), w1, tB) /\
       runDeferred ds1 (Some rc1) w1 = (rcf, w', tD) /\
       t = EvRunSyncJob (Id entry) cch :: tP ++ tB ++ tD).
Proof.
  intros o orc w' t H. simpl in H.
  apply bind_inv in H as (u & w1 & t1 & t2 & H1 & H & ->).
  unfold emit in H1. injection H1 as <- <- <-.
  apply bind_inv in H as (r & w2 & t2' & t3 & Htx & H & ->).
  pose proof (acquireTx_spec _ _ _ _ _ Htx) as [Hc1 Hr].
  destruct r as [[tx ds]|e].
  2:{ unfold ret in H. injection H as <- <- <- <-. left.
      exists e, (t2' ++ []). split; [reflexivity|].
      split; [calm_tac|reflexivity]. }
  apply bind_inv in H as (u & w3 & t4 & t5 & Hlog & H & ->).
  unfold log, emit in Hlog. injection Hlog as <- <- <-.
  apply bind_inv in H as (c & w4 & t6 & t7 & Hca & H & ->).
  pose proof (acquireCache_spec _ _ _ _ _ _ _ Hca) as Hc2.
  destruct c as [[rc0 ds0]|e].
  2:{ apply bind_inv in H as (u & w5 & t8 & t9 & Hd & H & ->).
      apply runDeferred_calm in Hd.
      unfold ret in H. injection H as <- <- <- <-. left.
      eexists e, _. split; [reflexivity|]. split; [|simpl; reflexivity].
      calm_tac. }
  apply bind_inv in H as (b & w5 & tB & t9 & Hb & H & ->).
  destruct b as [[o1 rc1] ds1].
  apply bind_inv in H as (rcf & w6 & tD & t10 & Hd & H & ->).
  unfold ret in H. injection H as <- <- <- <-. right.
  exists tx, rc0, ds0, w4,
    (t2' ++ [EvLog LvlDebug None ("Running sync job " +:+ Id entry)] ++ t6),
    rc1, ds1, w5, tB, rcf, tD.
  split; [calm_tac|]. split; [intros Hn; apply (Hr tx ds eq_refl); exact Hn|].
  split; [exact Hb|]. split; [exact Hd|].
  simpl. rewrite ?app_nil_r, <- ?app_assoc. reflexivity.
Qed.

Lemma bind_ext {A B} (m : M A) (k1 k2 : A -> M B) w :
  (forall a w1, k1 a w1 = k2 a w1) -> bind m k1 w = bind m k2 w.
Proof.
  intros H. unfold bind. destruct (m w) as [[a w1] t1]. rewrite H. reflexivity.
Qed.

(** The body depends on the nested call only when [checkCommitHash] is set. *)
Lemma runSyncJobBody_ext rerun1 rerun2 s inputTx entry dryRun cch tx rc ds w :
  (cch = true -> forall rc1 w1, rerun1 rc1 w1 = rerun2 rc1 w1) ->
  runSyncJobBody rerun1 s inputTx entry dryRun cch tx rc ds w
  = runSyncJobBody rerun2 s inputTx entry dryRun cch tx rc ds w.
Proof.
  intros H. unfold runSyncJobBody.
  apply bind_ext. intros [out rc1] w1.
  apply bind_ext. intros tm w2.
  apply bind_ext. intros _ w3.
  destruct (statusAfterApply _ _ _ _ _) as [[status applyInfo] updatedApps].
  destruct (decide _); [|reflexivity].
  apply bind_ext. intros [missing m] w4.
  destruct missing; [|reflexivity].
  destruct cch; simpl; [|reflexivity].
  unfold bind. rewrite H by reflexivity. reflexivity.
Qed.

Lemma runSyncJobN_ext n1 n2 s inputTx entry dryRun cch repoCache w :
  (cch = true -> forall rc1 w1,
     runSyncJobN n1 s inputTx entry dryRun false (Some rc1) w1
     = runSyncJobN n2 s inputTx entry dryRun false (Some rc1) w1) ->
  runSyncJobN (S n1) s inputTx entry dryRun cch repoCache w
  = runSyncJobN (S n2) s inputTx entry dryRun cch repoCache w.
Proof.
  intros H. simpl.
  apply bind_ext. intros _ w1.
  apply bind_ext. intros [[tx ds]|e] w2; [|reflexivity].
  apply bind_ext. intros _ w3.
  apply bind_ext. intros [[rc ds']|e] w4; [|reflexivity].
  unfold bind at 1 3. rewrite (runSyncJobBody_ext _ _ _ _ _ _ _ _ _ _ _ H).
  reflexivity.
Qed.

(** A call with [checkCommitHash = false] needs a budget of one. *)
Lemma runSyncJobN_false n s inputTx entry dryRun repoCache w :
  runSyncJobN (S n) s inputTx entry dryRun false repoCache w
  = runSyncJobN 1 s inputTx entry dryRun false repoCache w.
Proof. apply runSyncJobN_ext. discriminate. Qed.

(** Any call needs a budget of two at most. *)
Lemma runSyncJobN_enough n s inputTx entry dryRun cch repoCache w :
  runSyncJobN (S (S n)) s inputTx entry dryRun cch repoCache w
  = runSyncJob s inputTx entry dryRun cch repoCache w.
Proof.
  unfold runSyncJob. apply runSyncJobN_ext. intros _ rc1 w1.
  apply runSyncJobN_false.
Qed.

Lemma applyEvents_obs entry a out :
  activations (applyEvents entry a out) = [] /\
  existsb is_missing_app (applyEvents entry a out) = false /\
  existsb is_complete (applyEvents entry a out) = false /\
  existsb is_reload (applyEvents entry a out) = false /\
  applyHints (applyEvents entry a out) = [aLastRunCommitId a] /\
  run_failed (applyEvents entry a out)
    = match applyFailed out with Some _ => true | None => false end.
Proof.
  unfold applyEvents, run_failed. destruct out; simpl; repeat split.
Qed.

(** Rewriting of the observations of a trace along its structure. *)
Ltac obs :=
  repeat first
    [ rewrite activations_app | rewrite applyHints_app
    | rewrite existsb_app | rewrite app_nil_r ].

(** With the budget it needs, a call returns: it neither panics nor runs out
    of budget.  Its activations are the call itself and, only when
    [checkCommitHash] is set and an application of the last run is missing,
    one nested call with [checkCommitHash = false]; the nested call hands
    Apply an empty last commit id. *)
Lemma runSyncJobN_shape fuel :
  forall s inputTx entry dryRun (cch : bool) repoCache w o orc w' t,
    ((if cch then 2 else 1) <= fuel)%nat ->
    runSyncJobN fuel s inputTx entry dryRun cch repoCache w
      = ((o, orc), w', t) ->
    (exists v, o = Returns v) /\
    ((activations t = [cch] /\
      (existsb is_missing_app t = true ->
       cch = false /\
       o = Returns (Err "Unexpected error, sync rerun with no commit hash")) /\
      (forall c, In c (applyHints t) ->
         c = if cch then stCommitId (Status entry) else ""))
     \/
     (cch = true /\ activations t = [true; false] /\
      existsb is_missing_app t = true /\
      exists rest,
        applyHints t = stCommitId (Status entry) :: rest /\
        forall c, In c rest -> c = "")).
Proof.
  induction fuel as [|fuel IH];
    intros s inputTx entry dryRun cch repoCache w o orc w' t Hfuel H.
  { destruct cch; lia. }
  apply runSyncJobN_inv in H
    as [(e & tq & -> & Hq & ->)
       |(tx & rc0 & ds0 & w0 & tP & rc1 & ds1 & w1 & tB & rcf & tD
         & HP & Htx & Hb & Hd & ->)].
  { split; [eauto|]. left. destruct Hq as (Ha & Hr & Hc & Hact & Hm).
    simpl. rewrite Hact, Hm, (applyHints_no_apply _ Ha).
    split; [reflexivity|]. split; [discriminate|]. intros c []. }
  apply runDeferred_calm in Hd. destruct Hd as (DA & DR & DC & DAct & DM).
  destruct HP as (PA & PR & PC & PAct & PM).
  pose proof (applyHints_no_apply _ PA) as PH.
  pose proof (applyHints_no_apply _ DA) as DH.
  apply runSyncJobBody_inv in Hb as (out & rc2 & w2 & HA & Hb).
  cbv zeta in Hb.
  destruct (applyEvents_obs entry (applyArgsFor tx entry dryRun cch) out)
    as (EAct & EM & EC & ER & EH & EF).
  remember (applyEvents entry (applyArgsFor tx entry dryRun cch) out) as tE
    eqn:HtE.
  clear HtE.
  destruct Hb as [(Hno & v & tF & HF & -> & ->)
                 |[(Hopt & m & w3 & tL & HL & -> & Hb)
                  |(Hopt & m & w3 & tL & reloadErr & acc & rc3 & w4 & tR & v
                    & tF & HL & HR & HF & -> & ->)]].
  - apply finishRun_spec in HF as (FA & FR & FAct & FM & _).
    split; [eauto|]. left. simpl. obs.
    rewrite PAct, EAct, FAct, DAct, PM, EM, FM, DM, PH, EH, DH,
      (applyHints_no_apply _ FA).
    simpl. split; [reflexivity|]. split; [discriminate|].
    intros c [<-|[]]. reflexivity.
  - apply lookupApps_spec in HL as (LA & LR & LC & LAct & LM). simpl in LM.
    destruct Hb as [(-> & -> & -> & ->)|(-> & orc1 & tR & HR & ->)].
    + split; [eauto|]. left. simpl. obs.
      rewrite PAct, EAct, LAct, DAct, PH, EH, DH, (applyHints_no_apply _ LA).
      simpl. split; [reflexivity|]. split; [auto|].
      intros c [<-|[]]. reflexivity.
    + apply IH in HR; [|simpl in *; lia].
      destruct HR as [Hv [(RAct & RM & RH)|(Hcontra & _)]]; [|discriminate].
      split; [exact Hv|]. right. simpl. obs.
      rewrite PAct, EAct, LAct, RAct, DAct, LM, PH, EH, DH,
        (applyHints_no_apply _ LA).
      simpl. rewrite ?orb_true_r. split; [reflexivity|].
      split; [reflexivity|]. split; [reflexivity|].
      exists (applyHints tR). rewrite ?app_nil_r.
      split; [reflexivity|exact RH].
  - pose proof (lookupApps_complete _ _ _ _ _ _ _ HL) as Hcomplete.
    apply lookupApps_spec in HL as (LA & LR & LC & LAct & LM). simpl in LM.
    apply finishRun_spec in HF as (FA & FR & FAct & FM & _).
    apply reloadApps_spec in HR as (RA & RC & RAct & RM & _);
      [|intros a Ha; apply Hcomplete; left; exact Ha].
    split; [eauto|]. left. simpl. obs.
    rewrite PAct, EAct, LAct, RAct, FAct, DAct, PM, EM, LM, RM, FM, DM,
      PH, EH, DH, (applyHints_no_apply _ LA), (applyHints_no_apply _ RA),
      (applyHints_no_apply _ FA).
    simpl. split; [reflexivity|]. split; [discriminate|].
    intros c [<-|[]]. reflexivity.
Qed.

(** The end of a run that returns a status, with the deferred calls. *)
Lemma finish_status inputTx entry dryRun tx status applyInfo apps ds0 w :
  forall st apps' ds1 w1 tF rc rcf w' tD,
    finishRun inputTx entry dryRun tx status applyInfo apps ds0 w
      = ((Ok (st, apps'), ds1), w1, tF) ->
    runDeferred ds1 rc w1 = (rcf, w', tD) ->
    st = set_ApplyResponse status applyInfo /\
    run_failed tF = false /\ existsb is_reload tF = false /\
    existsb is_apply tF = false /\
    (Error status <> "" ->
       apps' = [] /\ existsb is_complete tF = false /\
       exists tx',
         tF = [EvRollback tx; EvBeginTransaction (Ok tx');
               EvUpdateSyncStatus tx' (Id entry) st None] /\
         In (EvRollback tx') tD).
Proof.
  intros st apps' ds1 w1 tF rc rcf w' tD HF Hd.
  apply finishRun_spec in HF as (FA & FR & FAct & FM & Hok & Herr).
  assert (Hst : st = set_ApplyResponse status applyInfo).
  { destruct (decide (Error status = "")) as [He|He].
    - apply Hok in He as (_ & _ & Hv). apply (Hv st apps' eq_refl).
    - apply Herr in He as (_ & _ & Hv). apply (Hv st apps' eq_refl). }
  split; [exact Hst|]. split; [apply no_failure; assumption|].
  split; [exact FR|]. split; [exact FA|].
  intros He. apply Herr in He as (Hc & _ & Hv).
  destruct (Hv st apps' eq_refl) as (_ & -> & tx' & -> & ->).
  split; [reflexivity|]. split; [exact Hc|]. exists tx'.
  split; [reflexivity|].
  eapply runDeferred_rollback; [|exact Hd]. left. reflexivity.
Qed.

Lemma not_In_reload t a r :
  existsb is_reload t = false -> ~ In (EvReloadApp a r) t.
Proof.
  intros H Hin. rewrite (existsb_In is_reload _ _ Hin eq_refl) in H.
  discriminate.
Qed.

Lemma In_failure_run_failed t a m :
  In (EvReloadApp a (Err m)) t -> run_failed t = true.
Proof. intros H. eapply existsb_In; [exact H|reflexivity]. Qed.

Lemma In_reload_failure t a m :
  In (EvReloadApp a (Err m)) t -> existsb is_reload t = true.
Proof. intros H. eapply existsb_In; [exact H|reflexivity]. Qed.

(** The status a call returns.
    - Failure rule: after a failed run the count is the entry's count plus
      one and the state follows the threshold; after a run without failure
      the count is zero, the state [Enabled], the error empty.
    - Failure protocol: a status with a non-empty error comes with no updated
      application; the transaction of the run was rolled back, a fresh one
      was begun, the status was written through it, and the fresh one is
      rolled back at exit; no transaction is completed.
    - A failed Reload leaves its error text in the status, together with the
      commit id of a successful, skipped Apply of the run. *)
Lemma runSyncJobN_status fuel :
  forall s inputTx entry dryRun (cch : bool) repoCache w st apps orc w' t,
    runSyncJobN fuel s inputTx entry dryRun cch repoCache w
      = ((Returns (Ok (st, apps)), orc), w', t) ->
    ((run_failed t = true ->
      FailureCount st = int_add (FailureCount (Status entry)) 1 /\
      State st = failureState s (FailureCount st)) /\
     (run_failed t = false ->
      FailureCount st = 0 /\ State st = "Enabled" /\ Error st = "")) /\
    (Error st <> "" ->
     run_failed t = true /\ apps = [] /\ existsb is_complete t = false /\
     exists tx tx' t1 t2,
       t = t1 ++ [EvRollback tx; EvBeginTransaction (Ok tx');
                  EvUpdateSyncStatus tx' (Id entry) st None] ++ t2 /\
       In (EvRollback tx') t2 /\
       exists a out, In (EvApply a out) t1 /\ aTx a = tx) /\
    (forall a m, In (EvReloadApp a (Err m)) t ->
       Error st = m /\
       FailureCount st = int_add (FailureCount (Status entry)) 1 /\
       Reload (Metadata entry) = AppReloadOptionMatched /\
       exists args info l,
         In (EvApply args (ApplyOk info l)) t /\ SkippedApply info = true /\
         stCommitId st = CommitId info).
Proof.
  induction fuel as [|fuel IH];
    intros s inputTx entry dryRun cch repoCache w st apps orc w' t H.
  { discriminate. }
  apply runSyncJobN_inv in H
    as [(e & tq & [=] & _)
       |(tx & rc0 & ds0 & w0 & tP & rc1 & ds1 & w1 & tB & rcf & tD
         & HP & Htx & Hb & Hd & ->)].
  pose proof (runDeferred_calm _ _ _ _ _ _ Hd) as (DA & DR & DC & DAct & DM).
  destruct HP as (PA & PR & PC & PAct & PM).
  pose proof (no_failure _ PA PR) as PF.
  pose proof (no_failure _ DA DR) as DF.
  apply runSyncJobBody_inv in Hb as (out & rc2 & w2 & HA & Hb).
  cbv zeta in Hb.
  destruct (applyEvents_obs entry (applyArgsFor tx entry dryRun cch) out)
    as (EAct & EM & EC & ER & EH & EF).
  assert (EIn : In (EvApply (applyArgsFor tx entry dryRun cch) out)
                  (applyEvents entry (applyArgsFor tx entry dryRun cch) out)).
  { left. reflexivity. }
  remember (applyEvents entry (applyArgsFor tx entry dryRun cch) out) as tE
    eqn:HtE.
  clear HtE.
  destruct Hb as [(Hno & v & tF & HF & [= <-] & ->)
                 |[(Hopt & m & w3 & tL & HL & -> & Hb)
                  |(Hopt & m & w3 & tL & reloadErr & acc & rc3 & w4 & tR & v
                    & tF & HL & HR & HF & [= <-] & ->)]].
  - destruct (finish_status _ _ _ _ _ _ _ _ _ _ _ _ _ _ _ _ _ _ HF Hd)
      as (Hst & FF & FR & FA & Herr).
    assert (Hrel : existsb is_reload
                     (EvRunSyncJob (Id entry) cch :: tP ++ (tE ++ tF) ++ tD)
                   = false).
    { simpl. obs. rewrite PR, ER, FR, DR. reflexivity. }
    assert (Hnone : forall a e,
              ~ In (EvReloadApp a (Err e))
                  (EvRunSyncJob (Id entry) cch :: tP ++ (tE ++ tF) ++ tD)).
    { intros a e Hin. apply In_reload_failure in Hin. congruence. }
    rewrite run_failed_cons, !run_failed_app, PF, EF, FF, DF. simpl.
    split; [|split].
    + destruct out as [info l|l msg]; simpl in Hst; subst st; simpl;
        split; try discriminate; auto.
    + intros He. destruct out as [info l|l msg]; simpl in Hst;
        [subst st; simpl in He; congruence|].
      destruct Herr as (-> & FC & tx' & -> & Hin);
        [simpl; subst st; exact He|].
      split; [reflexivity|]. split; [reflexivity|].
      split; [simpl; obs; rewrite PC, EC, DC; reflexivity|].
      exists tx, tx', (EvRunSyncJob (Id entry) cch :: tP ++ tE), tD.
      split; [simpl; rewrite <- !app_assoc; reflexivity|].
      split; [exact Hin|].
      eexists (applyArgsFor tx entry dryRun cch), _. split; [|reflexivity].
      right. apply in_or_app. right. exact EIn.
    + intros a e Hin. destruct (Hnone a e Hin).
  - pose proof (lookupApps_spec _ _ _ _ _ _ _ HL) as (LA & LR & LC & LAct & LM).
    pose proof (no_failure _ LA LR) as LF.
    destruct Hb as [(_ & _ & [=] & _)|(-> & orc1 & tR & HR & ->)].
    destruct Hopt as (info & l & -> & Hskip & Hmatch). simpl in EF.
    apply IH in HR as ((A1 & A2) & B & C).
    assert (Hin : forall a e,
              In (EvReloadApp a (Err e))
                (EvRunSyncJob (Id entry) true
                 :: tP ++ (tE ++ tL ++ tR) ++ tD) ->
              In (EvReloadApp a (Err e)) tR).
    { intros a e [[=]|Hin].
      apply in_app_or in Hin as [Hin|Hin];
        [destruct (not_In_reload _ _ _ PR Hin)|].
      apply in_app_or in Hin as [Hin|Hin];
        [|destruct (not_In_reload _ _ _ DR Hin)].
      apply in_app_or in Hin as [Hin|Hin];
        [destruct (not_In_reload _ _ _ ER Hin)|].
      apply in_app_or in Hin as [Hin|Hin];
        [destruct (not_In_reload _ _ _ LR Hin)|exact Hin]. }
    rewrite run_failed_cons, !run_failed_app, PF, EF, LF, DF. simpl.
    rewrite orb_false_r.
    split; [split; assumption|]. split.
    + intros He. destruct (B He) as (BF & -> & BC & tx1 & tx2 & t1 & t2
                                     & -> & Hr & a & o & Ha & Hatx).
      split; [exact BF|]. split; [reflexivity|].
      split.
      { rewrite !existsb_app in *. rewrite PC, EC, LC, DC.
        simpl in *. rewrite BC. reflexivity. }
      exists tx1, tx2,
        (EvRunSyncJob (Id entry) true :: tP ++ tE ++ tL ++ t1), (t2 ++ tD).
      split; [simpl; rewrite <- !app_assoc; reflexivity|].
      split; [apply in_or_app; left; exact Hr|].
      exists a, o. split; [|exact Hatx].
      right. apply in_or_app. right. apply in_or_app. right.
      apply in_or_app. right. exact Ha.
    + intros a e Hi. apply Hin in Hi.
      destruct (C a e Hi) as (C1 & C2 & C3 & args & info' & l' & Ha & C4 & C5).
      split; [exact C1|]. split; [exact C2|]. split; [exact C3|].
      exists args, info', l'. split; [|auto].
      right. apply in_or_app. right. apply in_or_app. left.
      apply in_or_app. right. apply in_or_app. right. exact Ha.
  - pose proof (lookupApps_complete _ _ _ _ _ _ _ HL) as Hcomplete.
    pose proof (lookupApps_spec _ _ _ _ _ _ _ HL) as (LA & LR & LC & LAct & LM).
    pose proof (no_failure _ LA LR) as LF.
    pose proof (reloadApps_spec _ _ _ _
                  (fun a Ha => Hcomplete a (or_introl Ha)) _ _ _ _ _ _ HR)
      as (RA & RC & RAct & RM & reloadErr' & acc' & [= <- <-] & Hf).
    destruct (finish_status _ _ _ _ _ _ _ _ _ _ _ _ _ _ _ _ _ _ HF Hd)
      as (Hst & FF & FR & FA & Herr).
    destruct Hopt as (info & l & -> & Hskip & Hmatch). simpl in EF.
    assert (Hin : forall a e,
              In (EvReloadApp a (Err e))
                (EvRunSyncJob (Id entry) cch
                 :: tP ++ (tE ++ tL ++ tR ++ tF) ++ tD) ->
              In (EvReloadApp a (Err e)) tR).
    { intros a e [[=]|Hin].
      apply in_app_or in Hin as [Hin|Hin];
        [destruct (not_In_reload _ _ _ PR Hin)|].
      apply in_app_or in Hin as [Hin|Hin];
        [|destruct (not_In_reload _ _ _ DR Hin)].
      apply in_app_or in Hin as [Hin|Hin];
        [destruct (not_In_reload _ _ _ ER Hin)|].
      apply in_app_or in Hin as [Hin|Hin];
        [destruct (not_In_reload _ _ _ LR Hin)|].
      apply in_app_or in Hin as [Hin|Hin];
        [exact Hin|destruct (not_In_reload _ _ _ FR Hin)]. }
    assert (HinA : In (EvApply (applyArgsFor tx entry dryRun cch)
                         (ApplyOk info l))
                     (EvRunSyncJob (Id entry) cch
                      :: tP ++ (tE ++ tL ++ tR ++ tF) ++ tD)).
    { right. apply in_or_app. right. apply in_or_app. left.
      apply in_or_app. left. exact EIn. }
    rewrite run_failed_cons, !run_failed_app, PF, EF, LF, FF, DF. simpl.
    rewrite !orb_false_r.
    destruct reloadErr as [e|].
    + destruct Hf as [RF Huniq]. rewrite RF. simpl in Hst. subst st. simpl.
      split; [split; [auto|discriminate]|]. split.
      * intros He. destruct Herr as (-> & FC & tx' & -> & Hr);
          [simpl; exact He|].
        split; [reflexivity|]. split; [reflexivity|].
        split; [obs; rewrite PC, EC, LC, RC, DC; reflexivity|].
        exists tx, tx', (EvRunSyncJob (Id entry) cch :: tP ++ tE ++ tL ++ tR),
          tD.
        split; [simpl; rewrite <- !app_assoc; reflexivity|].
        split; [exact Hr|].
        eexists (applyArgsFor tx entry dryRun cch), _.
        split; [|reflexivity].
        right. apply in_or_app. right. apply in_or_app. left. exact EIn.
      * intros a e0 Hi. apply Hin in Hi. apply Huniq in Hi. subst e0.
        split; [reflexivity|]. split; [reflexivity|]. split; [exact Hmatch|].
        exists (applyArgsFor tx entry dryRun cch), info, l. auto.
    + rewrite Hf. simpl in Hst. subst st. simpl.
      split; [split; [discriminate|auto]|]. split.
      * intros He. congruence.
      * intros a e0 Hi. apply Hin in Hi. apply In_failure_run_failed in Hi.
        congruence.
Qed.

(** A call that was handed a transaction completes none: completion is the
    caller's. *)
Lemma runSyncJobN_caller_tx fuel :
  forall s inputTx entry dryRun (cch : bool) repoCache w x w' t,
    Tx inputTx <> None ->
    runSyncJobN fuel s inputTx entry dryRun cch repoCache w = (x, w', t) ->
    existsb is_complete t = false.
Proof.
  induction fuel as [|fuel IH];
    intros s inputTx entry dryRun cch repoCache w [o orc] w' t Hn H.
  { injection H as <- <- <- <-. reflexivity. }
  apply runSyncJobN_inv in H
    as [(e & tq & -> & Hq & ->)
       |(tx & rc0 & ds0 & w0 & tP & rc1 & ds1 & w1 & tB & rcf & tD
         & HP & Htx & Hb & Hd & ->)].
  { simpl. apply Hq. }
  pose proof (runDeferred_calm _ _ _ _ _ _ Hd) as (DA & DR & DC & DAct & DM).
  destruct HP as (PA & PR & PC & PAct & PM).
  apply runSyncJobBody_inv in Hb as (out & rc2 & w2 & HA & Hb).
  cbv zeta in Hb.
  destruct (applyEvents_obs entry (applyArgsFor tx entry dryRun cch) out)
    as (EAct & EM & EC & ER & EH & EF).
  remember (applyEvents entry (applyArgsFor tx entry dryRun cch) out) as tE
    eqn:HtE.
  clear HtE.
  assert (HFc : forall st ai ap ds w3 v ds' w4 tF,
            finishRun inputTx entry dryRun tx st ai ap ds w3
              = ((v, ds'), w4, tF) -> existsb is_complete tF = false).
  { intros st ai ap ds w3 v ds' w4 tF HF.
    apply finishRun_spec in HF as (_ & _ & _ & _ & Hok & Herr).
    destruct (decide (Error st = "")) as [He|He].
    - apply Hok in He as (_ & Hc & _). auto.
    - apply Herr in He as (Hc & _). exact Hc. }
  destruct Hb as [(Hno & v & tF & HF & -> & ->)
                 |[(Hopt & m & w3 & tL & HL & -> & Hb)
                  |(Hopt & m & w3 & tL & reloadErr & acc & rc3 & w4 & tR & v
                    & tF & HL & HR & HF & -> & ->)]].
  - apply HFc in HF. simpl. obs. rewrite PC, EC, HF, DC. reflexivity.
  - apply lookupApps_spec in HL as (LA & LR & LC & LAct & LM).
    destruct Hb as [(-> & -> & -> & ->)|(-> & orc1 & tR & HR & ->)].
    + simpl. obs. rewrite PC, EC, LC, DC. reflexivity.
    + apply IH in HR; [|exact Hn]. simpl. obs.
      rewrite PC, EC, LC, HR, DC. reflexivity.
  - pose proof (lookupApps_complete _ _ _ _ _ _ _ HL) as Hcomplete.
    apply lookupApps_spec in HL as (LA & LR & LC & LAct & LM).
    apply reloadApps_spec in HR as (RA & RC & RAct & RM & _);
      [|intros a Ha; apply Hcomplete; left; exact Ha].
    apply HFc in HF. simpl. obs. rewrite PC, EC, LC, RC, HF, DC. reflexivity.
Qed.

(** C7.  [runSyncJob] calls itself at most once.  Two nested activations are
    all a call needs, whatever the budget: it returns, without panic.  The
    trace of a call shows the call itself and, only when it was made with
    [checkCommitHash = true] and an application of the last run was found
    missing, exactly one nested activation, made with
    [checkCommitHash = false]; every Apply of a nested activation gets the
    empty last commit id, so it is unconditional.  A call made with
    [checkCommitHash = false] never nests: when an application is missing it
    returns the error "Unexpected error, sync rerun with no commit hash". *)
Theorem runSyncJob_recursion_bounded (s : Server) (inputTx : Transaction)
    (entry : SyncEntry) (dryRun cch : bool) (repoCache : option RepoCache)
    (w : World) :
  (forall n, runSyncJobN (S (S n)) s inputTx entry dryRun cch repoCache w
             = runSyncJob s inputTx entry dryRun cch repoCache w) /\
  (exists v,
     fst (fst (fst (runSyncJob s inputTx entry dryRun cch repoCache w)))
     = Returns v) /\
  let t := snd (runSyncJob s inputTx entry dryRun cch repoCache w) in
  let o := fst (fst (fst (runSyncJob s inputTx entry dryRun cch repoCache w)))
  in
  (activations t = [cch] /\ existsb is_missing_app t = false /\
   (forall c, In c (applyHints t) ->
      c = if cch then stCommitId (Status entry) else ""))
  \/
  (cch = false /\ activations t = [false] /\
   existsb is_missing_app t = true /\
   o = Returns (Err "Unexpected error, sync rerun with no commit hash"))
  \/
  (cch = true /\ activations t = [true; false] /\
   existsb is_missing_app t = true /\
   exists rest,
     applyHints t = stCommitId (Status entry) :: rest /\
     forall c, In c rest -> c = "").
Proof.
  split; [intros n; apply runSyncJobN_enough|].
  destruct (runSyncJob s inputTx entry dryRun cch repoCache w)
    as [[[o orc] w'] t] eqn:H.
  unfold runSyncJob in H. apply runSyncJobN_shape in H; [|destruct cch; lia].
  destruct H as [[v ->] H]. cbn [fst snd]. split; [eauto|].
  destruct H as [(Hact & Hm & Hh)|(-> & Hact & Hm & Hh)].
  - destruct (existsb is_missing_app t) eqn:Hmiss.
    + destruct (Hm eq_refl) as [-> ->]. right. left. auto.
    + left. auto.
  - right. right. auto.
Qed.

Lemma wrap64_id z : int_min <= z <= int_max -> wrap64 z = z.
Proof.
  unfold wrap64, int_min, int_max. intros H.
  rewrite Z.mod_small by lia. lia.
Qed.

(** C2.  The failure-count transition of one run of [runSyncJob] that
    returns a status, the entry being the one handed to the run.  After a
    failed run (its Apply or one of its reloads failed) the count of the
    status is the entry's count plus one, in Go's [int], and the state is
    [Disabled] when that count has reached [MaxSyncFailureCount], [Failing]
    otherwise; the count is not capped: from an entry whose count has reached
    the maximum a failed run gives a larger count.  After a run without
    failure the count is zero and the state [Enabled]. *)
Theorem failure_count_rule (s : Server) (inputTx : Transaction)
    (entry : SyncEntry) (dryRun cch : bool) (repoCache : option RepoCache)
    (w : World) (st : SyncJobStatus) (apps : list AppPathDomain)
    (orc : option RepoCache) (w' : World) (t : list Event) :
  runSyncJob s inputTx entry dryRun cch repoCache w
    = ((Returns (Ok (st, apps)), orc), w', t) ->
  (run_failed t = true ->
     FailureCount st = int_add (FailureCount (Status entry)) 1 /\
     (int_min <= FailureCount (Status entry) < int_max ->
      FailureCount st = FailureCount (Status entry) + 1) /\
     State st = (if bool_decide (FailureCount st >= MaxSyncFailureCount s)
                 then "Disabled" else "Failing") /\
     (int_min <= FailureCount (Status entry) < int_max ->
      MaxSyncFailureCount s <= FailureCount (Status entry) ->
      FailureCount st > MaxSyncFailureCount s /\ State st = "Disabled")) /\
  (run_failed t = false ->
     FailureCount st = 0 /\ State st = "Enabled").
Proof.
  intros H. unfold runSyncJob in H.
  apply runSyncJobN_status in H as ((Hf & Hs) & _). split.
  - intros Hr. destruct (Hf Hr) as [Hc Hst].
    assert (Hplus : int_min <= FailureCount (Status entry) < int_max ->
                    FailureCount st = FailureCount (Status entry) + 1).
    { intros Hrange. rewrite Hc. unfold int_add. apply wrap64_id.
      unfold int_min, int_max in *. lia. }
    split; [exact Hc|]. split; [exact Hplus|]. split; [exact Hst|].
    intros Hrange Hmax.
    assert (Hgt : FailureCount st > MaxSyncFailureCount s).
    { rewrite (Hplus Hrange). lia. }
    split; [exact Hgt|]. rewrite Hst. unfold failureState.
    rewrite bool_decide_eq_true_2 by lia. reflexivity.
  - intros Hr. destruct (Hs Hr) as (Hc & Hst & _). auto.
Qed.

(** C1.  A run whose status carries an error text: the status counts one
    more failure, no updated application is returned, the transaction the
    run used (the one handed to Apply) is rolled back, a fresh transaction is
    begun and [UpdateSyncStatus] writes the status through it.  The run
    completes no transaction, and the fresh transaction is rolled back by the
    deferred call before the function returns: the write of the failure
    status is not committed. *)
Theorem failure_status_not_committed (s : Server) (inputTx : Transaction)
    (entry : SyncEntry) (dryRun cch : bool) (repoCache : option RepoCache)
    (w : World) (st : SyncJobStatus) (apps : list AppPathDomain)
    (orc : option RepoCache) (w' : World) (t : list Event) :
  runSyncJob s inputTx entry dryRun cch repoCache w
    = ((Returns (Ok (st, apps)), orc), w', t) ->
  Error st <> "" ->
  apps = [] /\
  FailureCount st = int_add (FailureCount (Status entry)) 1 /\
  existsb is_complete t = false /\
  exists tx tx' t1 t2,
    t = t1 ++ [EvRollback tx; EvBeginTransaction (Ok tx');
               EvUpdateSyncStatus tx' (Id entry) st None] ++ t2 /\
    In (EvRollback tx') t2 /\
    exists a out, In (EvApply a out) t1 /\ aTx a = tx.
Proof.
  intros H He. unfold runSyncJob in H.
  apply runSyncJobN_status in H as ((Hf & _) & Hb & _).
  destruct (Hb He) as (Hr & -> & Hc & Hdec).
  split; [reflexivity|]. split; [apply (Hf Hr)|]. split; [exact Hc|].
  exact Hdec.
Qed.

Lemma prepareSyncEntry_calm s userId tx path scheduled sync w :
  forall r w' t, prepareSyncEntry s userId tx path scheduled sync w
                 = (r, w', t) ->
    calm t /\
    forall e, r = Ok e -> In (EvCreateSync tx e None) t.
Proof.
  intros r w' t. unfold prepareSyncEntry, CreateSync. unmonad.
  repeat destr; intros [= <- <- <-]; simpl;
    (split; [calm_tac|]); intros e0 [= <-]; auto.
Qed.

(** C4.  When the immediate run of [CreateSyncEntry] (made on the
    transaction that holds the [CreateSync] write, with
    [checkCommitHash = true]) reports an error, by an error return or by a
    status with an error text, [CreateSyncEntry] returns an error, no
    transaction is completed during the whole call, and the transaction that
    holds the write is rolled back. *)
Theorem CreateSyncEntry_failed_run (s : Server) (userId path : string)
    (scheduled dryRun : bool) (sync : SyncMetadata) (w : World)
    (tx : Transaction) (w1 : World) (t1 : list Event) (entry : SyncEntry)
    (w2 : World) (t2 : list Event) (run : outcome RunValue)
    (orc : option RepoCache) (w3 : World) (t3 : list Event) :
  BeginTransaction w = (Ok tx, w1, t1) ->
  prepareSyncEntry s userId tx path scheduled sync w1 = (Ok entry, w2, t2) ->
  runSyncJob s tx entry dryRun true None w2 = ((run, orc), w3, t3) ->
  ((exists e, run = Returns (Err e)) \/
   (exists st apps, run = Returns (Ok (st, apps)) /\ Error st <> "")) ->
  exists e w4 t,
    CreateSyncEntry s userId path scheduled dryRun sync w
      = (Returns (Err e), w4, t) /\
    t = t1 ++ t2 ++ t3 ++ [EvRollback tx] /\
    In (EvCreateSync tx entry None) t /\
    existsb is_complete t = false.
Proof.
  intros Hb Hp Hr Hrun.
  assert (Htx : Tx tx <> None).
  { unfold BeginTransaction in Hb. unmonad.
    destruct (db_BeginTransaction w) as [[h|e] w0]; [|discriminate].
    injection Hb as ? ? ?; subst. discriminate. }
  assert (Ht1 : existsb is_complete t1 = false).
  { unfold BeginTransaction in Hb. unmonad.
    destruct (db_BeginTransaction w) as [[h|e] w0]; [|discriminate].
    injection Hb as ? ? ?; subst. reflexivity. }
  pose proof (prepareSyncEntry_calm _ _ _ _ _ _ _ _ _ _ Hp) as [Hc2 Hin].
  specialize (Hin entry eq_refl).
  pose proof Hr as Hc3. unfold runSyncJob in Hc3.
  apply runSyncJobN_caller_tx in Hc3; [|exact Htx].
  assert (Hcon : exists e,
            concludeCreate tx entry dryRun run w3 = (Returns (Err e), w3, [])).
  { destruct Hrun as [[e ->]|(st & apps & -> & He)]; simpl.
    - eauto.
    - destruct (decide (Error st = "")); [contradiction|]. eauto. }
  destruct Hcon as [e Hcon].
  exists e, (Tx_Rollback w3 tx), (t1 ++ t2 ++ t3 ++ [EvRollback tx]).
  split; [|split; [reflexivity|split]].
  - unfold CreateSyncEntry. unfold bind at 1. rewrite Hb.
    unfold bind at 1. unfold bind at 1. rewrite Hp.
    unfold bind at 1. rewrite Hr. cbn [fst]. rewrite Hcon.
    simpl. unfold Rollback. unmonad. simpl.
    rewrite ?app_nil_r, <- ?app_assoc. reflexivity.
  - apply in_or_app. right. apply in_or_app. left. exact Hin.
  - obs. destruct Hc2 as (_ & _ & Hc2 & _). rewrite Ht1, Hc2, Hc3. reflexivity.
Qed.

Lemma runSyncJob_head s inputTx entry dryRun cch repoCache w :
  exists v tail,
    fst (fst (fst (runSyncJob s inputTx entry dryRun cch repoCache w)))
      = Returns v /\
    snd (runSyncJob s inputTx entry dryRun cch repoCache w)
      = EvRunSyncJob (Id entry) cch :: tail.
Proof.
  destruct (runSyncJob s inputTx entry dryRun cch repoCache w)
    as [[[o orc] w'] t] eqn:H.
  unfold runSyncJob in H.
  assert (Hfuel : ((if cch then 2 else 1) <= 2)%nat) by (destruct cch; lia).
  destruct (runSyncJobN_shape _ _ _ _ _ _ _ _ _ _ _ _ Hfuel H) as [[v ->] _].
  apply runSyncJobN_inv in H
    as [(e & tq & _ & _ & ->)
       |(tx & rc0 & ds0 & w0 & tP & rc1 & ds1 & w1 & tB & rcf & tD
         & _ & _ & _ & _ & ->)]; simpl; eauto.
Qed.

(** One turn of the scheduler loop on an entry that is not skipped. *)
Lemma runEntries_run s entry rest rc w :
  skipEntry s entry (time_Now w) = false ->
  forall v orc w1 t1,
    runSyncJob s Transaction_zero entry false true (Some rc) w
      = ((Returns v, orc), w1, t1) ->
    runEntries s (entry :: rest) rc w
    = (fst (runEntries s rest
              (match orc with Some rc' => rc' | None => rc end) w1),
       t1 ++
       match v with
       | Err e =>
           [EvLog LvlError (Some e) ("Error running sync job " +:+ Id entry)]
       | Ok _ => []
       end ++
       snd (runEntries s rest
              (match orc with Some rc' => rc' | None => rc end) w1)).
Proof.
  unfold skipEntry. intros Hskip v orc w1 t1 Hrun.
  apply orb_false_iff in Hskip as [Hskip H3].
  apply orb_false_iff in Hskip as [H1 H2].
  simpl. rewrite H1. unfold bind at 1, ask at 1. rewrite H2, H3.
  unfold bind at 1. rewrite Hrun. cbn [fst snd].
  destruct v as [x|e].
  - destruct (runEntries s rest _ w1) as [[y w2] t2]. reflexivity.
  - unfold bind, log, emit.
    destruct (runEntries s rest _ w1) as [[y w2] t2]. reflexivity.
Qed.

(** One turn of the scheduler loop on an entry that is skipped: at most a
    Trace log line, then the rest of the loop. *)
Lemma runEntries_skip s entry rest rc w :
  skipEntry s entry (time_Now w) = true ->
  exists tskip,
    calm tskip /\
    runEntries s (entry :: rest) rc w
    = (fst (runEntries s rest rc w), tskip ++ snd (runEntries s rest rc w)).
Proof.
  unfold skipEntry. intros Hskip. simpl.
  destruct (notScheduled entry) eqn:H1.
  { exists []. split; [calm_tac|].
    destruct (runEntries s rest rc w) as [[y w2] t2]. reflexivity. }
  unfold bind at 1, ask at 1.
  destruct (notReady entry (time_Now w)) eqn:H2.
  { exists [EvLog LvlTrace None
              ("Sync job " +:+ Id entry +:+ " not ready to run")].
    split; [calm_tac|]. unfold bind, log, emit.
    destruct (runEntries s rest rc w) as [[y w2] t2]. reflexivity. }
  simpl in Hskip. rewrite Hskip.
  exists [EvLog LvlTrace None
            ("Sync job " +:+ Id entry +:+
             " has failed too many times, skipping")].
  split; [calm_tac|]. unfold bind, log, emit.
  destruct (runEntries s rest rc w) as [[y w2] t2]. reflexivity.
Qed.

Lemma runEntries_returns s entries :
  forall rc w, fst (fst (fst (runEntries s entries rc w))) = Returns tt.
Proof.
  induction entries as [|entry rest IH]; intros rc w; [reflexivity|].
  destruct (skipEntry s entry (time_Now w)) eqn:Hskip.
  - destruct (runEntries_skip _ _ rest rc _ Hskip) as (tskip & _ & ->).
    simpl. apply IH.
  - destruct (runSyncJob s Transaction_zero entry false true (Some rc) w)
      as [[[o orc] w1] t1] eqn:Hrun.
    destruct (runSyncJob_head s Transaction_zero entry false true (Some rc) w)
      as (v & tail & Hv & _).
    rewrite Hrun in Hv. simpl in Hv. subst o.
    rewrite (runEntries_run _ _ rest _ _ Hskip _ _ _ _ Hrun). simpl.
    apply IH.
Qed.


End SyncFacts.

(** * The properties on the concrete world *)

Section Examples.
Import Scenario.
#[local] Existing Instance scenarioData.

Lemma tuple4 {A B C D : Type} (x : A * B * C * D) (a : A) :
  fst (fst (fst x)) = a -> x = (a, snd (fst (fst x)), snd (fst x), snd x).
Proof. destruct x as [[[a' b] c] d]. simpl. intros ->. reflexivity. Qed.

Lemma tuple3 {A B C : Type} (x : A * B * C) (a : A) :
  fst (fst x) = a -> x = (a, snd (fst x), snd x).
Proof. destruct x as [[a' b] c]. simpl. intros ->. reflexivity. Qed.

(** The profile "deploy" is unknown: [GetSha] fails although the hash for
    that profile is in the cache. *)
Lemma GetSha_auth_before_cache_witness :
  shaCache cacheDeploy
    !! Build_Repo "https://github.com/org/repo" "main" "" "deploy"
  = Some "abc123" /\
  GetSha (collab := scenario applyFails) cacheDeploy
    "https://github.com/org/repo" "main" "deploy" (world1 "none")
  = (Err "git auth entry not found: deploy", cacheDeploy, world1 "none", []).
Proof.
  split; [vm_compute; reflexivity|].
  apply (GetSha_auth_before_cache (collab := scenario applyFails)).
  left. vm_compute. reflexivity.
Defined.

(** Two calls of [GetSha]: one listing of the remote references. *)
Lemma GetSha_cached_witness :
  let x := GetSha (collab := scenario applyFails) cache0
             "https://github.com/org/repo" "main" "" (world1 "none") in
  fst (fst (fst x)) = Ok "abc123" /\
  count is_remote_list (snd x) = 1%nat /\
  GetSha (collab := scenario applyFails) (snd (fst (fst x)))
    "https://github.com/org/repo" "main" "" (snd (fst x))
  = (Ok "abc123", snd (fst (fst x)), snd (fst x), []).
Proof.
  intros x.
  assert (H : fst (fst (fst x)) = Ok "abc123") by (vm_compute; reflexivity).
  split; [exact H|]. split; [vm_compute; reflexivity|].
  eapply (proj2 (GetSha_cached (collab := scenario applyFails)));
    [apply tuple4; exact H|reflexivity|reflexivity].
Defined.

(** Two calls of [CheckoutRepo]: one clone. *)
Lemma CheckoutRepo_cached_witness :
  let x := CheckoutRepo (collab := scenario applyFails) 0 cache0
             "https://github.com/org/repo" "main" "" "" false
             (world1 "none") in
  let res := ("/tmp/openrun_git_0/repo_0", "", "initial commit", "abc123") in
  fst (fst (fst x)) = Some (Ok res) /\
  count is_clone (snd x) = 1%nat /\
  CheckoutRepo (collab := scenario applyFails) 0 (snd (fst (fst x)))
    "https://github.com/org/repo" "main" "" "" false (snd (fst x))
  = (Some (Ok res), snd (fst (fst x)), snd (fst x), []).
Proof.
  intros x res.
  assert (H : fst (fst (fst x)) = Some (Ok res)) by (vm_compute; reflexivity).
  split; [exact H|]. split; [vm_compute; reflexivity|].
  eapply (CheckoutRepo_cached (collab := scenario applyFails));
    [apply tuple4; exact H|reflexivity|reflexivity].
Defined.

(** A failed Apply on an entry without failures: count one, [Failing]. *)
Lemma failure_count_rule_witness :
  let x := runSyncJob (collab := scenario applyFails) srv Transaction_zero
             (entry1 "none") false true None (world1 "none") in
  exists st,
    fst (fst (fst x)) = Returns (Ok (st, [])) /\
    run_failed (snd x) = true /\
    FailureCount st = 1 /\ State st = "Failing".
Proof.
  intros x. eexists. split; [vm_compute; reflexivity|].
  assert (Hr : run_failed (snd x) = true) by (vm_compute; reflexivity).
  split; [exact Hr|].
  destruct (failure_count_rule (collab := scenario applyFails) srv
              Transaction_zero (entry1 "none") false true None
              (world1 "none") _ _ _ _ _
              (tuple4 x _ ltac:(vm_compute; reflexivity))) as [Hf _].
  destruct (Hf Hr) as (Hc & _ & Hst & _).
  split; [rewrite Hc; vm_compute; reflexivity|].
  rewrite Hst. vm_compute. reflexivity.
Defined.

(** A failed Apply in a run of the scheduler's kind: the failure status is
    written through the second transaction, no transaction is completed, and
    the persisted entry still has the failure count zero after the run. *)
Lemma failure_status_not_committed_witness :
  let x := runSyncJob (collab := scenario applyFails) srv Transaction_zero
             (entry1 "none") false true None (world1 "none") in
  exists st,
    fst (fst (fst x)) = Returns (Ok (st, [])) /\
    Error st = "apply failed" /\ FailureCount st = 1 /\
    existsb is_complete (snd x) = false /\
    (FailureCount ∘ Status) <$> (table (snd (fst x)) !! "cl_syn_1") = Some 0.
Proof.
  intros x. eexists. split; [vm_compute; reflexivity|].
  split; [reflexivity|].
  destruct (failure_status_not_committed (collab := scenario applyFails)
              _ _ _ _ _ _ _ _ _ _ _ _
              (tuple4 x _ ltac:(vm_compute; reflexivity))
              ltac:(vm_compute; discriminate))
    as (_ & Hc & Hcomplete & _).
  split; [rewrite Hc; vm_compute; reflexivity|].
  split; [exact Hcomplete|]. vm_compute. reflexivity.
Defined.

(** Five ticks of the scheduler on an entry whose Apply always fails, with
    three failures as the maximum: Apply is called at every tick, every
    status written has the failure count one, and the persisted count is
    still zero at the end. *)
Lemma failing_entry_stays_enabled_example :
  let x := syncLoop (collab := scenario applyFails) srv 5 (world1 "none") in
  count is_apply (snd x) = 5%nat /\
  forallb (fun ev => match ev with
                     | EvUpdateSyncStatus _ _ st _ => FailureCount st =? 1
                     | _ => true
                     end) (snd x) = true /\
  (FailureCount ∘ Status) <$> (table (snd (fst x)) !! "cl_syn_1") = Some 0.
Proof. intros x. repeat split; vm_compute; reflexivity. Qed.

(** Creating an entry whose first Apply fails: an error comes back, nothing
    is completed, the store holds no entry. *)
Lemma CreateSyncEntry_failed_run_witness :
  let x := CreateSyncEntry (collab := scenario applyFails) srv "admin"
             "/apps.star" true false (meta "none") worldEmpty in
  fst (fst x) = Returns (Err "apply failed") /\
  existsb is_complete (snd x) = false /\
  table (snd (fst x)) = ∅.
Proof.
  intros x.
  split; [vm_compute; reflexivity|]. split; [|vm_compute; reflexivity].
  pose (b := BeginTransaction (collab := scenario applyFails) worldEmpty).
  pose (tx := {| Tx := Some 0%nat |}).
  pose (p := prepareSyncEntry (collab := scenario applyFails) srv "admin" tx
               "/apps.star" true (meta "none") (snd (fst b))).
  pose (e := {| Id := "cl_syn_2abc"; Path := "/apps.star";
                IsScheduled := true; UserID := "admin";
                Metadata := meta "none"; Status := SyncJobStatus_zero |}).
  pose (r := runSyncJob (collab := scenario applyFails) srv tx e false true
               None (snd (fst p))).
  destruct (CreateSyncEntry_failed_run (collab := scenario applyFails)
              srv "admin" "/apps.star" true false (meta "none") worldEmpty
              tx (snd (fst b)) (snd b) e (snd (fst p)) (snd p)
              (fst (fst (fst r))) (snd (fst (fst r))) (snd (fst r)) (snd r)
              (tuple3 b _ ltac:(vm_compute; reflexivity))
              (tuple3 p _ ltac:(vm_compute; reflexivity))
              (tuple4 r _ eq_refl)
              ltac:(right; eexists _, _; split;
                    [vm_compute; reflexivity|vm_compute; discriminate]))
    as (e' & w4 & t & Heq & _ & _ & Hc).
  fold x in Heq. rewrite Heq. exact Hc.
Defined.

(** The application of the last run is gone: one nested activation, whose
    Apply gets no last commit id; more budget changes nothing. *)
Lemma runSyncJob_recursion_bounded_witness :
  let run n := runSyncJobN (collab := scenario appGone) n srv
                 Transaction_zero (entry1 "matched") false true None
                 (world1 "matched") in
  run 5%nat = run 2%nat /\
  activations (snd (run 2%nat)) = [true; false] /\
  applyHints (snd (run 2%nat)) = ["c1"; ""].
Proof.
  intros run. split; [|split; vm_compute; reflexivity].
  apply (proj1 (runSyncJob_recursion_bounded (collab := scenario appGone)
                  srv Transaction_zero (entry1 "matched") false true None
                  (world1 "matched")) 3%nat).
Defined.


End Examples.

(** * Further properties of the repository cache *)

Section RepoCacheMore.
Context {data : Data} {collab : Collaborators}.

Ltac unmonad :=
  unfold log in *; unfold bind, ret, emit, call, ask in *.

Ltac destr :=
  match goal with
  | |- context [match ?x with _ => _ end] =>
      lazymatch x with
      | context [match _ with _ => _ end] => fail
      | _ => destruct x eqn:?
      end
  end.

Lemma findRef_first want l1 ref l2 :
  Forall (fun r => refName r <> want) l1 -> refName ref = want ->
  findRef want (l1 ++ ref :: l2) = Some ref.
Proof.
  intros Hl Hr. induction Hl as [|r l1 Hne _ IH]; simpl.
  - destruct (decide (refName ref = want)); [reflexivity|contradiction].
  - destruct (decide (refName r = want)); [contradiction|exact IH].
Qed.

Lemma findRef_none want refs :
  Forall (fun r => refName r <> want) refs -> findRef want refs = None.
Proof.
  intros Hl. induction Hl as [|r l Hne _ IH]; simpl; [reflexivity|].
  destruct (decide (refName r = want)); [contradiction|exact IH].
Qed.

(** X1. [latestCommitSHA] makes one listing of the remote references. When the
    listing fails its error is returned behind "could not list remote refs: ";
    otherwise the result is the hash of the first reference whose name is
    "refs/heads/" followed by the branch, later references of that name being
    ignored, and the "not found" error when no reference has that name. *)
Theorem latestCommitSHA_first_match (repoURL b : string)
    (a : option AuthMethod) (w w1 : World) :
  (forall e,
     remote_List w repoURL a = (Err e, w1) ->
     latestCommitSHA repoURL b a w
     = (Err ("could not list remote refs: " +:+ e), w1,
        [EvRemoteList repoURL a])) /\
  (forall l1 ref l2,
     remote_List w repoURL a = (Ok (l1 ++ ref :: l2), w1) ->
     Forall (fun r => refName r <> NewBranchReferenceName b) l1 ->
     refName ref = NewBranchReferenceName b ->
     latestCommitSHA repoURL b a w
     = (Ok (Hash_String (refHash ref)), w1, [EvRemoteList repoURL a])) /\
  (forall refs,
     remote_List w repoURL a = (Ok refs, w1) ->
     Forall (fun r => refName r <> NewBranchReferenceName b) refs ->
     latestCommitSHA repoURL b a w
     = (Err ("branch " +:+ strconv_Quote b +:+ " not found"), w1,
        [EvRemoteList repoURL a])).
Proof.
  unfold latestCommitSHA, RemoteList. unmonad. repeat split.
  - intros e ->. reflexivity.
  - intros l1 ref l2 -> Hl Hr. rewrite (findRef_first _ _ _ _ Hl Hr).
    reflexivity.
  - intros refs -> Hl. rewrite (findRef_none _ _ Hl). reflexivity.
Qed.

Lemma unusedSuffix_first_fit fuel w targetDir repoName :
  forall c k,
    int_min <= c -> c <= k -> k < c + Z.of_nat fuel -> k <= int_max ->
    (forall j, c <= j < k ->
       os_Stat_IsNotExist w (suffixedPath targetDir repoName j) = false) ->
    os_Stat_IsNotExist w (suffixedPath targetDir repoName k) = true ->
    unusedSuffix fuel w targetDir repoName c
    = Some (suffixedPath targetDir repoName k).
Proof.
  induction fuel as [|fuel IH]; intros c k Hmin Hck Hk Hmax Htaken Hfree.
  { lia. }
  simpl. fold (suffixedPath targetDir repoName c).
  destruct (decide (c = k)) as [->|Hne].
  - rewrite Hfree. reflexivity.
  - rewrite (Htaken c) by lia.
    assert (Hadd : int_add c 1 = c + 1).
    { unfold int_add. apply wrap64_id. lia. }
    rewrite Hadd. apply IH; [lia|lia|lia|lia| |exact Hfree].
    intros j Hj. apply Htaken. lia.
Qed.

Lemma unusedSuffix_free fuel w targetDir repoName :
  forall c p, unusedSuffix fuel w targetDir repoName c = Some p ->
              os_Stat_IsNotExist w p = true.
Proof.
  induction fuel as [|fuel IH]; intros c p; simpl; [discriminate|].
  destruct (os_Stat_IsNotExist w _) eqn:Hfree.
  - intros [= <-]. exact Hfree.
  - apply IH.
Qed.

(** X2. [getUnusedRepoPath] is first fit. The plain name is taken when it does
    not exist. Otherwise the result is the name with the least suffix, from 2
    upwards, that does not exist: with "foo" and "foo2" present the result is
    "foo3". A path that is returned does not exist. [fuel] is the number of
    suffixes the search may try. *)
Theorem getUnusedRepoPath_first_fit (fuel : nat) (w : World)
    (targetDir repoName : string) :
  (os_Stat_IsNotExist w (path_Join targetDir repoName) = true ->
   getUnusedRepoPath fuel w targetDir repoName
   = Some (path_Join targetDir repoName)) /\
  (forall k,
     os_Stat_IsNotExist w (path_Join targetDir repoName) = false ->
     2 <= k -> k < 2 + Z.of_nat fuel -> k <= int_max ->
     (forall j, 2 <= j < k ->
        os_Stat_IsNotExist w (suffixedPath targetDir repoName j) = false) ->
     os_Stat_IsNotExist w (suffixedPath targetDir repoName k) = true ->
     getUnusedRepoPath fuel w targetDir repoName
     = Some (suffixedPath targetDir repoName k)) /\
  (forall p,
     getUnusedRepoPath fuel w targetDir repoName = Some p ->
     os_Stat_IsNotExist w p = true).
Proof.
  unfold getUnusedRepoPath. repeat split.
  - intros ->. reflexivity.
  - intros k -> H2 Hk Hmax Htaken Hfree.
    apply unusedSuffix_first_fit; try assumption; unfold int_min; lia.
  - intros p. destruct (os_Stat_IsNotExist w _) eqn:Hfree.
    + intros [= <-]. exact Hfree.
    + apply unusedSuffix_free.
Qed.

(** X3. [Cleanup] removes the root at most once: it empties [rootDir], so a
    second call does nothing at all. It keeps both cache maps. *)
Theorem Cleanup_idempotent (r : RepoCache) (w : World) (r1 : RepoCache)
    (w1 : World) (t1 : list Event) :
  Cleanup r w = (r1, w1, t1) ->
  rootDir r1 = "" /\ server r1 = server r /\ cache r1 = cache r /\
  shaCache r1 = shaCache r /\
  (t1 = [] \/ t1 = [EvRemoveAll (rootDir r)]) /\
  (rootDir r = "" -> r1 = r /\ w1 = w /\ t1 = []) /\
  Cleanup r1 w1 = (r1, w1, []).
Proof.
  unfold Cleanup, RemoveAll. unmonad.
  destruct (decide (rootDir r = "")) as [He|He].
  - intros [= <- <- <-]. rewrite He.
    destruct (decide (rootDir r = "")); [|contradiction]. auto 10.
  - intros [= <- <- <-]. simpl.
    repeat split; auto; intros; contradiction.
Qed.

(** A call of [CheckoutRepo] that finds its key in the cache. *)
Lemma CheckoutRepo_hit fuel r sourceUrl b c g isDev w authEntry repo folder d :
  loadGitKey (server r) (cmp_Or g (DefaultGitAuth (server r))) = Ok authEntry ->
  parseGitUrl sourceUrl (usingSSH authEntry) = Ok (repo, folder) ->
  cache r !! Build_Repo repo b c (cmp_Or g (DefaultGitAuth (server r)))
    = Some d ->
  CheckoutRepo fuel r sourceUrl b c g isDev w
  = (Some (Ok (dir d, folder, commitMessage d, hash d)), r, w, []).
Proof.
  intros Hk Hu Hl. unfold CheckoutRepo. rewrite Hk, Hu, Hl. reflexivity.
Qed.

(** What every call of [CheckoutRepo] does to the cache: the entry of a call
    that returned a tuple is in the cache afterwards. *)
Lemma CheckoutRepo_effect fuel r sourceUrl b c g isDev w :
  forall x r' w' t,
    CheckoutRepo fuel r sourceUrl b c g isDev w = (x, r', w', t) ->
    server r' = server r /\ rootDir r' = rootDir r /\
    shaCache r' = shaCache r /\ cache r ⊆ cache r' /\
    (forall k, cache r' !! k <> cache r !! k ->
       branch k = b /\ commit k = c /\
       auth k = cmp_Or g (DefaultGitAuth (server r))) /\
    ((forall res, x <> Some (Ok res)) -> r' = r).
Proof.
  intros x r' w' t. unfold CheckoutRepo.
  destruct (loadGitKey _ _) as [authEntry|e] eqn:Hk.
  2:{ intros [= <- <- <- <-]. repeat split; auto; intros; contradiction. }
  destruct (parseGitUrl _ _) as [[repo folder]|e] eqn:Hu.
  2:{ intros [= <- <- <- <-]. repeat split; auto; intros; contradiction. }
  destruct (cache r !! _) as [d|] eqn:Hl.
  { intros [= <- <- <- <-]. repeat split; auto; try contradiction. }
  unfold bind at 1. destruct (authFor _ _ _) as [[a w1] t1].
  destruct a as [a|e].
  2:{ unmonad. intros [= <- <- <- <-].
      repeat split; auto; intros; contradiction. }
  unfold bind at 1. destruct (targetPathFor _ _ _ _ _) as [[p w2] t2].
  destruct p as [[p|e]|].
  2,3: unmonad; intros [= <- <- <- <-]; repeat split; auto;
       intros; contradiction.
  unfold bind at 1. destruct (cloneAndCheckout _ _ _ _ _ _) as [[y w3] t3].
  destruct y as [nc|e].
  2:{ unmonad. intros [= <- <- <- <-].
      repeat split; auto; intros; contradiction. }
  unmonad. intros [= <- <- <- <-]. simpl.
  split; [reflexivity|]. split; [reflexivity|]. split; [reflexivity|].
  split; [apply insert_subseteq; exact Hl|]. split.
  - intros k Hne.
    destruct (decide (Build_Repo repo b c (cmp_Or g (DefaultGitAuth (server r)))
                      = k)) as [<-|Hk'].
    + auto.
    + rewrite lookup_insert_ne in Hne by exact Hk'. contradiction.
  - intros Hn. destruct (Hn _ eq_refl).
Qed.

(** X4. [CheckoutRepo] only ever adds to the checkout cache. A call keeps the
    server, the root directory and the commit-hash cache; the checkout cache
    after the call contains the one before it and differs from it at most at a
    key made of the branch, the commit and the resolved auth profile of the
    call; and a call that does not return a tuple (an error, or a dev
    directory search that does not end) leaves the cache exactly as it was:
    failures are not cached. *)
Theorem CheckoutRepo_cache_grows (fuel : nat) (r : RepoCache)
    (sourceUrl b c g : string) (isDev : bool) (w : World)
    (x : option (result Checked)) (r' : RepoCache) (w' : World)
    (t : list Event) :
  CheckoutRepo fuel r sourceUrl b c g isDev w = (x, r', w', t) ->
  server r' = server r /\ rootDir r' = rootDir r /\
  shaCache r' = shaCache r /\ cache r ⊆ cache r' /\
  (forall k, cache r' !! k <> cache r !! k ->
     branch k = b /\ commit k = c /\
     auth k = cmp_Or g (DefaultGitAuth (server r))) /\
  ((forall res, x <> Some (Ok res)) -> r' = r).
Proof. apply CheckoutRepo_effect. Qed.

(** X5. [GetSha] only ever adds to the commit-hash cache. A call keeps the
    server, the root directory and the checkout cache, so a resolved hash
    never stands in for a checkout; the commit-hash cache after the call
    contains the one before it and differs from it at most at a key with the
    branch and the resolved auth profile of the call and an empty commit; a
    failed call leaves the cache as it was; and a call lists the remote
    references at most once. *)
Theorem GetSha_cache_grows (r : RepoCache) (sourceUrl b g : string)
    (w : World) (x : result string) (r' : RepoCache) (w' : World)
    (t : list Event) :
  GetSha r sourceUrl b g w = (x, r', w', t) ->
  server r' = server r /\ rootDir r' = rootDir r /\
  cache r' = cache r /\ shaCache r ⊆ shaCache r' /\
  (forall k, shaCache r' !! k <> shaCache r !! k ->
     branch k = b /\ commit k = "" /\
     auth k = cmp_Or g (DefaultGitAuth (server r))) /\
  ((forall sha, x <> Ok sha) -> r' = r) /\
  (count is_remote_list t <= 1)%nat.
Proof.
  unfold GetSha.
  destruct (loadGitKey _ _) as [authEntry|e] eqn:Hk.
  2:{ intros [= <- <- <- <-]. repeat split; auto; congruence. }
  destruct (parseGitUrl _ _) as [[repo folder]|e] eqn:Hu.
  2:{ intros [= <- <- <- <-]. repeat split; auto; congruence. }
  destruct (shaCache r !! _) as [sha|] eqn:Hl.
  { intros [= <- <- <- <-]. repeat split; auto; congruence. }
  unfold bind at 1. destruct (authFor _ _ _) as [[a w1] t1] eqn:Ha.
  apply authFor_trace in Ha as (-> & _ & _ & Hrl).
  assert (Ht1 : count is_remote_list t1 = 0%nat).
  { clear -Hrl. induction t1 as [|ev t1 IH]; [reflexivity|]. simpl in Hrl.
    apply orb_false_iff in Hrl as [He Hrl]. unfold count in *. simpl.
    rewrite He. auto. }
  destruct a as [a|e].
  2:{ unmonad. intros [= <- <- <- <-]. rewrite count_app, Ht1.
      repeat split; auto; congruence. }
  unfold latestCommitSHA, RemoteList. unmonad.
  destruct (remote_List w repo a) as [[refs|e] w2].
  2:{ intros [= <- <- <- <-]. rewrite ?count_app, Ht1.
      repeat split; auto; congruence. }
  destruct (findRef _ refs) as [ref|]; intros [= <- <- <- <-];
    rewrite ?count_app, Ht1; simpl.
  2:{ repeat split; auto; congruence. }
  split; [reflexivity|]. split; [reflexivity|]. split; [reflexivity|].
  split; [apply insert_subseteq; exact Hl|].
  split; [|split; [|unfold count; simpl; lia]].
  - intros k Hne.
    destruct (decide (Build_Repo repo b "" (cmp_Or g (DefaultGitAuth (server r)))
                      = k)) as [<-|Hk'].
    + auto.
    + rewrite lookup_insert_ne in Hne by exact Hk'. contradiction.
  - intros Hn. destruct (Hn _ eq_refl).
Qed.

Ltac in_cases :=
  repeat match goal with
    | H : In _ [] |- _ => destruct H
    | H : In _ (_ :: _) |- _ => destruct H as [H|H]
    | H : In _ (_ ++ _) |- _ => apply in_app_or in H as [H|H]
    | H : @eq Event _ _ |- _ =>
        first [discriminate H | injection H as ? ?; subst]
    end.

Ltac absurd_in :=
  match goal with
  | H : In _ ?t, HF : forall x, In x ?t -> _ |- _ =>
      apply HF in H;
      first [ discriminate H
            | destruct H as [H|[H|H]]; try discriminate H;
              simplify_eq; reflexivity ]
  end.

Lemma authFor_events r g w :
  forall a w' t, authFor r g w = (a, w', t) ->
    w' = w /\ Forall (fun ev => is_log ev = true) t /\
    forall a', a = Ok a' -> (a' = None <-> g = "").
Proof.
  unfold authFor. intros a w' t. destruct (decide (g = "")); unmonad.
  - intros [= <- <- <-]. split; [reflexivity|]. split; [constructor|].
    intros a' [= <-]. split; auto.
  - destruct (createAuthMethod r g); intros [= <- <- <-];
      (split; [reflexivity|]); (split; [repeat constructor|]);
      intros a' [= <-]. split; [discriminate|contradiction].
Qed.

Lemma targetPathFor_events fuel r repo isDev w :
  forall x w' t, targetPathFor fuel r repo isDev w = (x, w', t) ->
    Forall (fun ev => is_mkdir ev = true) t /\
    forall p, x = Some (Ok p) ->
      (isDev = false -> t = [EvMkdirTemp (rootDir r) "repo_" (Ok p)]) /\
      (isDev = true ->
         t = [EvMkdirAll p] /\ os_Stat_IsNotExist w p = true).
Proof.
  unfold targetPathFor, MkdirAll, MkdirTemp. intros x w' t.
  destruct isDev; unmonad.
  - destruct (getUnusedRepoPath _ _ _ _) as [p|] eqn:Hp.
    2:{ intros [= <- <- <-]. split; [constructor|discriminate]. }
    destruct (os_MkdirAll w p) as [[e|] w1]; intros [= <- <- <-];
      (split; [repeat constructor|]); intros p' [= <-].
    split; [discriminate|]. intros _. split; [reflexivity|].
    unfold getUnusedRepoPath in Hp.
    destruct (os_Stat_IsNotExist w _) eqn:Hfree.
    + injection Hp as <-. exact Hfree.
    + eapply unusedSuffix_free. exact Hp.
  - destruct (os_MkdirTemp _ _ _) as [y w1]. intros [= <- <- <-].
    split; [repeat constructor|]. intros p [= ->].
    split; [reflexivity|discriminate].
Qed.

Lemma cloneAndCheckout_events p repo b c o w :
  forall x w' t, cloneAndCheckout p repo b c o w = (x, w', t) ->
    Forall (fun ev => ev = EvPlainClone p o \/
                      ev = EvCheckout (checkoutOptionsFor b c) \/
                      is_log ev = true) t.
Proof.
  unfold cloneAndCheckout, PlainClone, Checkout. unmonad. intros x w' t.
  repeat destr; intros [= <- <- <-]; simpl;
    repeat (apply List.Forall_cons;
            [first [ left; reflexivity
                   | right; left; reflexivity
                   | right; right; reflexivity ]|]);
    apply List.Forall_nil.
Qed.

(** X6. How [CheckoutRepo] clones. A clone made for a branch (no commit given)
    is restricted to that branch and, outside dev mode, to depth 1; a clone
    made for a commit is neither, and the checkout is then by hash. The clone
    is authenticated exactly when the resolved auth profile is not empty.
    Outside dev mode the clone goes to a directory made under the root of the
    cache; in dev mode to a directory that did not exist and was made for it.
    [CheckoutRepo] removes nothing: the directory of a failed clone stays. *)
Theorem CheckoutRepo_clone_shape (fuel : nat) (r : RepoCache)
    (sourceUrl b c g : string) (isDev : bool) (w : World)
    (x : option (result Checked)) (r' : RepoCache) (w' : World)
    (t : list Event) :
  CheckoutRepo fuel r sourceUrl b c g isDev w = (x, r', w', t) ->
  (forall p o, In (EvPlainClone p o) t ->
     (Auth o = None <-> cmp_Or g (DefaultGitAuth (server r)) = "") /\
     (c = "" ->
        SingleBranch o = true /\
        ReferenceName o = NewBranchReferenceName b /\
        Depth o = if isDev then 0 else 1) /\
     (c <> "" ->
        SingleBranch o = false /\ ReferenceName o = "" /\ Depth o = 0) /\
     (isDev = false -> In (EvMkdirTemp (rootDir r) "repo_" (Ok p)) t) /\
     (isDev = true ->
        In (EvMkdirAll p) t /\ os_Stat_IsNotExist w p = true)) /\
  (forall o, In (EvCheckout o) t ->
     (c = "" ->
        coHash o = None /\ coBranch o = NewBranchReferenceName b) /\
     (c <> "" ->
        coHash o = Some (plumbing_NewHash c) /\ coBranch o = "")) /\
  (forall p, ~ In (EvRemoveAll p) t).
Proof.
  unfold CheckoutRepo.
  destruct (loadGitKey _ _) as [authEntry|e] eqn:Hk.
  2:{ intros [= <- <- <- <-]. repeat split; unfold not; intros; in_cases. }
  destruct (parseGitUrl _ _) as [[repo folder]|e] eqn:Hu.
  2:{ intros [= <- <- <- <-]. repeat split; unfold not; intros; in_cases. }
  destruct (cache r !! _) as [d|] eqn:Hl.
  { intros [= <- <- <- <-]. repeat split; unfold not; intros; in_cases. }
  unfold bind at 1. destruct (authFor _ _ _) as [[a w1] t1] eqn:Ha.
  apply authFor_events in Ha as (-> & Ht1 & Hauth).
  rewrite List.Forall_forall in Ht1.
  destruct a as [a|e].
  2:{ unmonad. intros [= <- <- <- <-].
      repeat split; unfold not; intros; in_cases;
        absurd_in. }
  specialize (Hauth a eq_refl).
  unfold bind at 1.
  destruct (targetPathFor _ _ _ _ _) as [[tp w2] t2] eqn:Hp.
  apply targetPathFor_events in Hp as (Ht2 & Hdir).
  rewrite List.Forall_forall in Ht2.
  destruct tp as [[tp|e]|].
  2,3: unmonad; intros [= <- <- <- <-];
       repeat split; unfold not; intros; in_cases;
       absurd_in.
  specialize (Hdir tp eq_refl).
  unfold bind at 1.
  destruct (cloneAndCheckout _ _ _ _ _ _) as [[y w3] t3] eqn:Hcl.
  apply cloneAndCheckout_events in Hcl. rewrite List.Forall_forall in Hcl.
  assert (Hshape :
    (forall p o, In (EvPlainClone p o) (t1 ++ t2 ++ t3) ->
       p = tp /\ o = cloneOptionsFor repo b c isDev a) /\
    (forall o, In (EvCheckout o) (t1 ++ t2 ++ t3) ->
       o = checkoutOptionsFor b c) /\
    (forall p, ~ In (EvRemoveAll p) (t1 ++ t2 ++ t3))).
  { repeat split; unfold not; intros; in_cases;
      absurd_in. }
  destruct Hshape as (Hclone & Hcheck & Hrm).
  assert (Hgoal :
    (forall p o, In (EvPlainClone p o) (t1 ++ t2 ++ t3) ->
       (Auth o = None <-> cmp_Or g (DefaultGitAuth (server r)) = "") /\
       (c = "" ->
          SingleBranch o = true /\
          ReferenceName o = NewBranchReferenceName b /\
          Depth o = if isDev then 0 else 1) /\
       (c <> "" ->
          SingleBranch o = false /\ ReferenceName o = "" /\ Depth o = 0) /\
       (isDev = false ->
          In (EvMkdirTemp (rootDir r) "repo_" (Ok p)) (t1 ++ t2 ++ t3)) /\
       (isDev = true ->
          In (EvMkdirAll p) (t1 ++ t2 ++ t3) /\
          os_Stat_IsNotExist w p = true)) /\
    (forall o, In (EvCheckout o) (t1 ++ t2 ++ t3) ->
       (c = "" ->
          coHash o = None /\ coBranch o = NewBranchReferenceName b) /\
       (c <> "" ->
          coHash o = Some (plumbing_NewHash c) /\ coBranch o = "")) /\
    (forall p, ~ In (EvRemoveAll p) (t1 ++ t2 ++ t3))).
  { split; [|split; [|exact Hrm]].
    - intros p o Hin. apply Hclone in Hin as [-> ->].
      unfold cloneOptionsFor.
      split; [destruct (decide (c = "")); exact Hauth|].
      split; [intros Hc; destruct (decide (c = "")); [auto|contradiction]|].
      split; [intros Hc; destruct (decide (c = "")); [contradiction|auto]|].
      split.
      + intros Hd. destruct Hdir as [Hdir _]. rewrite (Hdir Hd).
        apply in_or_app. right. apply in_or_app. left. left. reflexivity.
      + intros Hd. destruct Hdir as [_ Hdir].
        destruct (Hdir Hd) as [-> Hfree]. split; [|exact Hfree].
        apply in_or_app. right. apply in_or_app. left. left. reflexivity.
    - intros o Hin. apply Hcheck in Hin as ->. unfold checkoutOptionsFor.
      split; intros Hc; destruct (decide (c = "")); auto; contradiction. }
  destruct y as [nc|e]; unmonad; intros [= <- <- <- <-];
    rewrite ?app_nil_r; exact Hgoal.
Qed.

(** X7. An empty auth profile name stands for the configured default: a call
    that names no profile and a call that names the default profile are the
    same call, with the same cache key, the same events and the same result.
    *)
Theorem default_auth_same_call (fuel : nat) (r : RepoCache)
    (sourceUrl b c : string) (isDev : bool) (w : World) :
  GetSha r sourceUrl b "" w
  = GetSha r sourceUrl b (DefaultGitAuth (server r)) w /\
  CheckoutRepo fuel r sourceUrl b c "" isDev w
  = CheckoutRepo fuel r sourceUrl b c (DefaultGitAuth (server r)) isDev w.
Proof.
  assert (H : cmp_Or "" (DefaultGitAuth (server r))
              = cmp_Or (DefaultGitAuth (server r)) (DefaultGitAuth (server r))).
  { unfold cmp_Or. destruct (decide (DefaultGitAuth (server r) = "")) as [->|];
      reflexivity. }
  unfold GetSha, CheckoutRepo. rewrite H. split; reflexivity.
Qed.

(** X8. A cache that was cleaned up still answers. A key checked out before
    [Cleanup] is a hit afterwards: the call returns the directory under the
    removed root, with no event. A miss outside dev mode after [Cleanup] makes
    its directory with an empty parent, outside any root of the cache, and a
    further [Cleanup] does not remove it. *)
Theorem Cleanup_then_checkout (fuel : nat) (r : RepoCache) (w : World)
    (r1 : RepoCache) (w1 : World) (t1 : list Event)
    (sourceUrl b c g : string) :
  Cleanup r w = (r1, w1, t1) ->
  (forall authEntry repo folder d isDev,
     loadGitKey (server r) (cmp_Or g (DefaultGitAuth (server r)))
       = Ok authEntry ->
     parseGitUrl sourceUrl (usingSSH authEntry) = Ok (repo, folder) ->
     cache r !! Build_Repo repo b c (cmp_Or g (DefaultGitAuth (server r)))
       = Some d ->
     CheckoutRepo fuel r1 sourceUrl b c g isDev w1
     = (Some (Ok (dir d, folder, commitMessage d, hash d)), r1, w1, [])) /\
  (forall x r2 w2 t2,
     CheckoutRepo fuel r1 sourceUrl b c g false w1 = (x, r2, w2, t2) ->
     (forall parent pattern res,
        In (EvMkdirTemp parent pattern res) t2 ->
        parent = "" /\ pattern = "repo_") /\
     Cleanup r2 w2 = (r2, w2, [])).
Proof.
  intros Hc.
  assert (Hr1 : rootDir r1 = "" /\ server r1 = server r /\ cache r1 = cache r).
  { revert Hc. unfold Cleanup, RemoveAll. unmonad.
    destruct (decide (rootDir r = "")) as [He|He]; intros [= <- <- <-]; auto. }
  destruct Hr1 as (Hroot & Hsrv & Hcache). split.
  - intros authEntry repo folder d isDev Hk Hu Hl.
    apply (CheckoutRepo_hit _ _ _ _ _ _ _ _ authEntry repo folder d).
    + rewrite Hsrv. exact Hk.
    + exact Hu.
    + rewrite Hsrv, Hcache. exact Hl.
  - intros x r2 w2 t2 H2.
    pose proof (CheckoutRepo_effect _ _ _ _ _ _ _ _ _ _ _ _ H2)
      as (_ & Hroot2 & _).
    split.
    + revert H2. unfold CheckoutRepo.
      destruct (loadGitKey _ _) as [authEntry|e].
      2:{ intros [= <- <- <- <-]. intros; in_cases. }
      destruct (parseGitUrl _ _) as [[repo folder]|e].
      2:{ intros [= <- <- <- <-]. intros; in_cases. }
      destruct (cache r1 !! _) as [d|].
      { intros [= <- <- <- <-]. intros; in_cases. }
      unfold bind at 1. destruct (authFor _ _ _) as [[a w3] t3] eqn:Ha.
      apply authFor_events in Ha as (-> & Ht3 & _).
      rewrite List.Forall_forall in Ht3.
      destruct a as [a|e].
      2:{ unmonad. intros [= <- <- <- <-]. intros; in_cases.
          absurd_in. }
      unfold bind at 1. unfold targetPathFor at 1, MkdirTemp.
      unfold bind at 1. unfold bind at 1. unfold bind at 1.
      unfold call at 1.
      destruct (os_MkdirTemp w1 _ _) as [[tp|e] w4]; unfold emit, ret.
      2:{ intros [= <- <- <- <-]. rewrite Hroot. intros; in_cases; auto.
          absurd_in. }
      unfold bind at 1.
      destruct (cloneAndCheckout _ _ _ _ _ _) as [[y w5] t5] eqn:Hcl.
      apply cloneAndCheckout_events in Hcl. rewrite List.Forall_forall in Hcl.
      rewrite Hroot.
      destruct y; intros [= <- <- <- <-]; intros; in_cases; auto;
        absurd_in.
    + unfold Cleanup. rewrite Hroot2, Hroot. reflexivity.
Qed.

End RepoCacheMore.

(** * Further properties of a run *)

Section RunMore.
Context {data : Data} {collab : Collaborators}.

Ltac unmonad :=
  unfold log in *; unfold bind, ret, emit, call, ask in *.

Ltac destr :=
  match goal with
  | |- context [match ?x with _ => _ end] =>
      lazymatch x with
      | context [match _ with _ => _ end] => fail
      | _ => destruct x eqn:?
      end
  end.

Lemma onlyKinds_app ks t1 t2 :
  onlyKinds ks (t1 ++ t2) = onlyKinds ks t1 && onlyKinds ks t2.
Proof. apply forallb_app. Qed.

Lemma onlyKinds_none ks (p : Event -> bool) t :
  (forall ev, bool_decide (kind ev ∈ ks) = true -> p ev = false) ->
  onlyKinds ks t = true -> existsb p t = false.
Proof.
  intros Hp. induction t as [|ev t IH]; [reflexivity|]. simpl.
  intros [He Ht]%andb_true_iff. rewrite (Hp ev He). auto.
Qed.

Lemma onlyKinds_mono ks ks' t :
  (forall k, bool_decide (k ∈ ks) = true -> bool_decide (k ∈ ks') = true) ->
  onlyKinds ks t = true -> onlyKinds ks' t = true.
Proof.
  intros Hk. induction t as [|ev t IH]; [reflexivity|]. simpl.
  intros [He Ht]%andb_true_iff. rewrite (Hk _ He). auto.
Qed.

Lemma count_none (p : Event -> bool) t :
  existsb p t = false -> count p t = 0%nat.
Proof.
  unfold count. induction t as [|ev t IH]; [reflexivity|]. simpl.
  intros [He Ht]%orb_false_iff. rewrite He. auto.
Qed.

Lemma count_nil (p : Event -> bool) : count p [] = 0%nat.
Proof. reflexivity. Qed.

Lemma count_cons (p : Event -> bool) ev t :
  count p (ev :: t) = ((if p ev then 1 else 0) + count p t)%nat.
Proof. unfold count. simpl. destruct (p ev); reflexivity. Qed.

(** Brings the counts of a trace to the counts of its parts; the absence of
    a kind of event in a part gives a count of zero. *)
Ltac counts :=
  repeat match goal with
    | H : existsb ?p ?t = false |- _ =>
        lazymatch goal with
        | _ : count p t = 0%nat |- _ => fail
        | _ => pose proof (count_none p t H)
        end
    end;
  cbn [app];
  repeat first [rewrite count_cons | rewrite count_app | rewrite count_nil];
  simpl.

(** Discharges [existsb p t = false] from a hypothesis on the kinds of
    [t]. *)
Ltac by_kinds H :=
  (eapply onlyKinds_none; [|exact H]);
  let ev := fresh "ev" in
  let Hev := fresh "Hev" in
  intros ev Hev; destruct ev; try reflexivity;
  vm_compute in Hev; discriminate Hev.

Ltac weaken_kinds H :=
  (eapply onlyKinds_mono; [|exact H]);
  let k := fresh "k" in
  let Hk := fresh "Hk" in
  intros k Hk; destruct k; try reflexivity;
  vm_compute in Hk; discriminate Hk.

Lemma applyEvents_kinds entry a out :
  onlyKinds [KApply; KLog] (applyEvents entry a out) = true.
Proof. destruct out; reflexivity. Qed.

Lemma lookupApps_kinds tx apps :
  forall m w x w' t, lookupApps tx apps m w = (x, w', t) ->
    onlyKinds [KLookup; KLog] t = true.
Proof.
  induction apps as [|a apps IH]; intros m w x w' t; simpl.
  - unmonad. intros [= <- <- <-]. reflexivity.
  - unfold GetAppTx. unmonad.
    destruct (db_GetAppTx w tx a) as [[app|e] w1].
    + destruct (lookupApps tx apps _ w1) as [[y w2] t2] eqn:Hl.
      intros [= <- <- <-]. apply IH in Hl. simpl. exact Hl.
    + intros [= <- <- <-]. reflexivity.
Qed.

Lemma lookupApps_tx tx apps :
  forall m w x w' t, lookupApps tx apps m w = (x, w', t) ->
    forall tx' a r, In (EvGetAppTx tx' a r) t -> tx' = tx.
Proof.
  induction apps as [|a apps IH]; intros m w x w' t; simpl.
  - unmonad. intros [= <- <- <-] tx' a r [].
  - unfold GetAppTx. unmonad.
    destruct (db_GetAppTx w tx a) as [[app|e] w1].
    + destruct (lookupApps tx apps _ w1) as [[y w2] t2] eqn:Hl.
      intros [= <- <- <-] tx' a0 r [[= <- <- <-]|Hin]; [reflexivity|].
      eapply IH; eauto.
    + intros [= <- <- <-] tx' a0 r [[= <- <- <-]|[[=]|[]]]. reflexivity.
Qed.

Lemma reloadsAfterFailure_calm t1 t2 :
  existsb is_reload t1 = false ->
  reloadsAfterFailure (t1 ++ t2) = reloadsAfterFailure t2.
Proof.
  induction t1 as [|ev t1 IH]; [reflexivity|]. simpl.
  intros [He Ht]%orb_false_iff. destruct ev; try discriminate; auto.
Qed.

Lemma reloadsAfterFailure_calm_r t1 t2 :
  existsb is_reload t2 = false ->
  reloadsAfterFailure (t1 ++ t2) = reloadsAfterFailure t1.
Proof.
  intros H2. induction t1 as [|ev t1 IH]; simpl.
  - rewrite <- (app_nil_r t2). rewrite reloadsAfterFailure_calm by exact H2.
    reflexivity.
  - destruct ev; auto. destruct r; auto.
    rewrite count_app, (count_none _ _ H2). lia.
Qed.

(** The reload loop makes at most one call for each application, all of
    them in the transaction of the run, and none after a failed one. *)
Lemma reloadApps_more tx entry m apps :
  forall rc acc w x w' t, reloadApps tx entry m apps rc acc w = (x, w', t) ->
    onlyKinds [KReload; KLog] t = true /\
    (count is_reload t <= length apps)%nat /\
    reloadsAfterFailure t = 0%nat /\
    forall a r, In (EvReloadApp a r) t -> rTx a = tx.
Proof.
  induction apps as [|a apps IH]; intros rc acc w x w' t; simpl.
  - unmonad. intros [= <- <- <-]. split; [reflexivity|].
    split; [unfold count; simpl; lia|]. split; [reflexivity|]. intros a r [].
  - destruct (appMap_lookup m a) as [app|] eqn:Hl.
    2:{ unmonad. intros [= <- <- <-]. split; [reflexivity|].
        split; [unfold count; simpl; lia|]. split; [reflexivity|].
        intros a0 r []. }
    unfold ReloadApp. unmonad.
    destruct (Server_ReloadApp w _ rc) as [[[r|e] rc1] w1]; simpl.
    + destruct (reloadApps tx entry m apps rc1 _ w1) as [[y w2] t2] eqn:Hr.
      intros [= <- <- <-]. apply IH in Hr as (Hk & Hc & Hf & Htx).
      simpl. split; [exact Hk|]. rewrite count_cons. simpl.
      split; [lia|]. split; [exact Hf|].
      intros a0 r0 [[= <- <-]|Hin]; [reflexivity|eauto].
    + intros [= <- <- <-]. simpl. split; [reflexivity|].
      split; [unfold count; simpl; lia|]. split; [reflexivity|].
      intros a0 r0 [[= <- <-]|[[=]|[]]]. reflexivity.
Qed.

(** The end of a run, as events. *)
Lemma finishRun_more inputTx entry dryRun tx status applyInfo apps ds w :
  forall v ds' w' t,
    finishRun inputTx entry dryRun tx status applyInfo apps ds w
      = ((v, ds'), w', t) ->
    onlyKinds [KRollback; KBegin; KUpdate; KComplete] t = true /\
    (count is_update t <= 1)%nat /\ (count is_complete t <= 1)%nat /\
    (ds' = ds \/ exists tx', ds' = DeferRollback tx' :: ds) /\
    (forall st apps', v = Ok (st, apps') -> Error st = Error status) /\
    (Error status = "" ->
       ds' = ds /\
       forall st apps', v = Ok (st, apps') ->
         st = set_ApplyResponse status applyInfo /\ apps' = apps /\
         t = EvUpdateSyncStatus tx (Id entry) st None ::
             match Tx inputTx with
             | None => [EvCompleteTransaction tx apps dryRun "sync" None]
             | Some _ => []
             end).
Proof.
  intros v ds' w' t. unfold finishRun.
  unfold Rollback, BeginTransaction, UpdateSyncStatus, CompleteTransaction.
  unmonad.
  repeat destr; intros [= <- <- <- <-]; simpl;
    (split; [reflexivity|]);
    (split; [unfold count; simpl; lia|]);
    (split; [unfold count; simpl; lia|]);
    (split; [first [left; reflexivity | right; eexists; reflexivity]|]);
    (split; [intros st0 apps0 E0; inversion E0; reflexivity|]);
    intros He; simpl in *; try contradiction;
    (split; [reflexivity|]); intros st apps' E; inversion E; subst;
    repeat match goal with H : _ /\ _ |- _ => destruct H end;
    try (split; [reflexivity|]; split; [reflexivity|]);
    try congruence;
    exfalso; match goal with n : ~ _ |- _ => apply n; auto end.
Qed.

Lemma Cleanup_more r w :
  forall r' w' t, Cleanup r w = (r', w', t) ->
    onlyKinds [KRemove] t = true /\ (count is_remove t <= 1)%nat.
Proof.
  unfold Cleanup, RemoveAll. unmonad. intros r' w' t.
  destruct (decide _); intros [= <- <- <-]; split; try reflexivity;
    unfold count; simpl; lia.
Qed.

(** The deferred calls: one rollback for each deferred rollback, at most one
    removal for each deferred cleanup. *)
Lemma runDeferred_more ds :
  forall rc w rcf w' t, runDeferred ds rc w = (rcf, w', t) ->
    onlyKinds [KRollback; KRemove] t = true /\
    (count is_remove t <= length (List.filter is_cleanup ds))%nat /\
    (forall tx, In (EvRollback tx) t <-> In (DeferRollback tx) ds) /\
    (forall r, rc = Some r -> exists r', rcf = Some r') /\
    (rc = None -> rcf = None).
Proof.
  induction ds as [|d ds IH]; intros rc w rcf w' t; simpl.
  - unmonad. intros [= <- <- <-]. split; [reflexivity|].
    split; [unfold count; simpl; lia|]. split; [tauto|]. split; eauto.
  - destruct d as [tx0|].
    + unfold Rollback. unmonad.
      destruct (runDeferred ds rc _) as [[y w1] t1] eqn:Hd.
      intros [= <- <- <-]. apply IH in Hd as (Hk & Hc & Hr & Hs & Hn).
      simpl. split; [exact Hk|]. rewrite count_cons. simpl.
      split; [exact Hc|]. split; [|split; assumption].
      intros tx. rewrite <- Hr. split.
      * intros [[= ->]|H]; auto.
      * intros [[= ->]|H]; auto.
    + destruct rc as [r|].
      * unfold bind.
        destruct (Cleanup r w) as [[r1 w1] t1] eqn:Hc.
        destruct (runDeferred ds _ w1) as [[y w2] t2] eqn:Hd.
        intros [= <- <- <-]. apply Cleanup_more in Hc as [Hk1 Hc1].
        apply IH in Hd as (Hk & Hc & Hr & Hs & Hn).
        rewrite onlyKinds_app, count_app, Hk, andb_true_r.
        split; [weaken_kinds Hk1|]. simpl. split; [lia|].
        split; [|split; [intros r0 _; eapply Hs; reflexivity|intros [=]]].
        intros tx. rewrite <- Hr. rewrite in_app_iff. split.
        -- intros [H|H]; [|right; exact H].
           assert (Hno : existsb (fun ev => bool_decide (kind ev = KRollback)) t1
                         = false) by (by_kinds Hk1).
           exfalso. apply Bool.not_true_iff_false in Hno. apply Hno.
           apply existsb_exists. exists (EvRollback tx). split; [exact H|].
           reflexivity.
        -- intros [[=]|H]. right. exact H.
      * intros H. apply IH in H as (Hk & Hc & Hr & Hs & Hn).
        split; [exact Hk|]. simpl. split; [lia|].
        split; [|split; [intros r0 [=]|auto]].
        intros tx. rewrite Hr. split; [auto|]. intros [[=]|H]. exact H.
Qed.

Lemma acquireTx_exact inputTx w :
  forall r w' t, acquireTx inputTx w = (r, w', t) ->
    (Tx inputTx <> None -> r = Ok (inputTx, []) /\ w' = w /\ t = []) /\
    (Tx inputTx = None ->
       exists rb, t = [EvBeginTransaction rb] /\
         match rb with
         | Ok tx => r = Ok (tx, [DeferRollback tx])
         | Err e => r = Err e
         end).
Proof.
  intros r w' t. unfold acquireTx, BeginTransaction.
  destruct (Tx inputTx) as [h|]; unmonad.
  - intros [= <- <- <-]. split; [auto|discriminate].
  - destruct (db_BeginTransaction w) as [[h|e] w1]; intros [= <- <- <-];
      (split; [congruence|]); intros _; eexists; split; reflexivity.
Qed.

Lemma acquireCache_exact s repoCache ds w :
  forall r w' t, acquireCache s repoCache ds w = (r, w', t) ->
    match repoCache with
    | Some rc => r = Ok (rc, ds) /\ w' = w /\ t = []
    | None =>
        exists res, t = [EvMkdirTemp "" "openrun_git_" res] /\
          match res with
          | Ok d => exists rc, r = Ok (rc, DeferCleanup :: ds)
          | Err e => r = Err e
          end
    end.
Proof.
  intros r w' t. unfold acquireCache, NewRepoCache, MkdirTemp.
  destruct repoCache as [rc|]; unmonad.
  - intros [= <- <- <-]. auto.
  - destruct (os_MkdirTemp w _ _) as [[d|e] w1]; intros [= <- <- <-];
      eexists; (split; [reflexivity|]); simpl; eauto.
Qed.

(** One activation of [runSyncJob], step by step. *)
Lemma runSyncJobN_steps fuel s inputTx entry dryRun cch repoCache w :
  forall o orc w' t,
    runSyncJobN (S fuel) s inputTx entry dryRun cch repoCache w
      = ((o, orc), w', t) ->
    exists r1 w1 t1,
      acquireTx inputTx w = (r1, w1, t1) /\
      match r1 with
      | Err e =>
          o = Returns (Err e) /\ orc = repoCache /\
          t = EvRunSyncJob (Id entry) cch :: t1
      | Ok (tx, ds) =>
          exists r2 w2 t2,
            acquireCache s repoCache ds w1 = (r2, w2, t2) /\
            match r2 with
            | Err e =>
                exists rcf tD,
                  runDeferred ds None w2 = (rcf, w', tD) /\
                  o = Returns (Err e) /\ orc = repoCache /\
                  t = EvRunSyncJob (Id entry) cch :: t1 ++
                      EvLog LvlDebug None ("Running sync job " +:+ Id entry)
                      :: t2 ++ tD
            | Ok (rc0, ds0) =>
                exists rc1 ds1 w3 tB rcf tD,
                  runSyncJobBody
                    (fun rc =>
                       runSyncJobN fuel s inputTx entry dryRun false (Some rc))
                    s inputTx entry dryRun cch tx rc0 ds0 w2
                    = ((o, rc1, ds1), w3, tB) /\
                  runDeferred ds1 (Some rc1) w3 = (rcf, w', tD) /\
                  orc = match repoCache with
                        | Some _ => rcf
                        | None => None
                        end /\
                  t = EvRunSyncJob (Id entry) cch :: t1 ++
                      EvLog LvlDebug None ("Running sync job " +:+ Id entry)
                      :: t2 ++ tB ++ tD
            end
      end.
Proof.
  intros o orc w' t H. simpl in H.
  apply bind_inv in H as (u & w1 & t1 & t2 & H1 & H & ->).
  unfold emit in H1. injection H1 as <- <- <-.
  apply bind_inv in H as (r & w2 & t2' & t3 & Htx & H & ->).
  exists r, w2, t2'. split; [exact Htx|].
  destruct r as [[tx ds]|e].
  2:{ unfold ret in H. injection H as <- <- <- <-.
      rewrite app_nil_r. auto. }
  apply bind_inv in H as (u & w3 & t4 & t5 & Hlog & H & ->).
  unfold log, emit in Hlog. injection Hlog as <- <- <-.
  apply bind_inv in H as (c & w4 & t6 & t7 & Hca & H & ->).
  exists c, w4, t6. split; [exact Hca|].
  destruct c as [[rc0 ds0]|e].
  2:{ apply bind_inv in H as (u & w5 & t8 & t9 & Hd & H & ->).
      unfold ret in H. injection H as <- <- <- <-.
      exists u, t8. split; [exact Hd|]. split; [reflexivity|].
      split; [reflexivity|]. simpl. rewrite ?app_nil_r. reflexivity. }
  apply bind_inv in H as (b & w5 & tB & t9 & Hb & H & ->).
  destruct b as [[o1 rc1] ds1].
  apply bind_inv in H as (rcf & w6 & tD & t10 & Hd & H & ->).
  unfold ret in H. injection H as <- <- <- <-.
  exists rc1, ds1, w5, tB, rcf, tD.
  split; [exact Hb|]. split; [exact Hd|]. split; [reflexivity|].
  simpl. rewrite ?app_nil_r. reflexivity.
Qed.

Lemma applyEvents_more entry a out :
  count is_apply (applyEvents entry a out) = 1%nat /\
  In (EvApply a out) (applyEvents entry a out) /\
  (forall a' out', In (EvApply a' out') (applyEvents entry a out) -> a' = a) /\
  (forall a' r, ~ In (EvReloadApp a' r) (applyEvents entry a out)).
Proof.
  unfold applyEvents. split; [destruct out; reflexivity|].
  split; [left; reflexivity|]. split.
  - intros a' out' [[= <- <-]|H]; [reflexivity|].
    destruct (applyFailed out); [destruct H as [[=]|[]]|destruct H].
  - intros a' r [[=]|H].
    destruct (applyFailed out); [destruct H as [[=]|[]]|destruct H].
Qed.

Lemma not_In_kind (p : Event -> bool) ev t :
  existsb p t = false -> p ev = true -> ~ In ev t.
Proof.
  intros Hn Hp Hin. apply Bool.not_true_iff_false in Hn. apply Hn.
  apply existsb_exists. eauto.
Qed.

(** The body of an activation: its own events, followed by a nested
    activation, by nothing, or by the end of the run. *)
Lemma runSyncJobBody_facts rerun s inputTx entry dryRun cch tx rc ds w :
  forall o rc' ds' w' t,
    runSyncJobBody rerun s inputTx entry dryRun cch tx rc ds w
      = ((o, rc', ds'), w', t) ->
    exists out tOwn,
      onlyKinds [KApply; KLog; KLookup; KReload] tOwn = true /\
      count is_apply tOwn = 1%nat /\
      In (EvApply (applyArgsFor tx entry dryRun cch) out) tOwn /\
      (forall a out', In (EvApply a out') tOwn -> aTx a = tx) /\
      (forall a r, In (EvReloadApp a r) tOwn -> rTx a = tx) /\
      (forall tx' a r, In (EvGetAppTx tx' a r) tOwn -> tx' = tx) /\
      (count is_reload tOwn
       <= length (FilteredApps (ApplyResponse (Status entry))))%nat /\
      reloadsAfterFailure tOwn = 0%nat /\
      (Reload (Metadata entry) <> AppReloadOptionMatched ->
       onlyKinds [KApply; KLog] tOwn = true) /\
      ((cch = true /\ Reload (Metadata entry) = AppReloadOptionMatched /\
        ds' = ds /\ existsb is_reload tOwn = false /\
        exists rc1 w1 orc tN,
          rerun rc1 w1 = ((o, orc), w', tN) /\ t = tOwn ++ tN)
       \/
       (cch = false /\ Reload (Metadata entry) = AppReloadOptionMatched /\
        ds' = ds /\ t = tOwn /\
        o = Returns (Err "Unexpected error, sync rerun with no commit hash"))
       \/
       (exists status applyInfo apps w1 v tF,
          finishRun inputTx entry dryRun tx status applyInfo apps ds w1
            = ((v, ds'), w', tF) /\
          o = Returns v /\ t = tOwn ++ tF)).
Proof.
  intros o rc' ds' w' t H.
  apply runSyncJobBody_inv in H as (out & rc1 & w1 & HA & H). cbv zeta in H.
  pose proof (applyEvents_kinds entry (applyArgsFor tx entry dryRun cch) out)
    as EK.
  destruct (applyEvents_more entry (applyArgsFor tx entry dryRun cch) out)
    as (EC & EI & EA & ER).
  remember (applyEvents entry (applyArgsFor tx entry dryRun cch) out) as tE
    eqn:HtE.
  clear HtE.
  assert (ENR : existsb is_reload tE = false) by (by_kinds EK).
  assert (ENL : existsb is_lookup tE = false) by (by_kinds EK).
  exists out.
  destruct H as [(Hno & v & tF & HF & -> & ->)
                |[(Hopt & m & w2 & tL & HL & -> & Hre)
                 |(Hopt & m & w2 & tL & reloadErr & acc & rc2 & w3 & tR & v
                   & tF & HL & HR & HF & -> & ->)]].
  - exists tE. split; [weaken_kinds EK|]. split; [exact EC|].
    split; [exact EI|]. split; [intros a out' Hin; rewrite (EA _ _ Hin); reflexivity|].
    split; [intros a r Hin; destruct (ER _ _ Hin)|].
    split.
    { intros tx' a r Hin. exfalso.
      eapply (not_In_kind is_lookup); [exact ENL| |exact Hin]. reflexivity. }
    split; [rewrite (count_none _ _ ENR); lia|].
    split; [rewrite <- (app_nil_r tE), reloadsAfterFailure_calm by exact ENR;
            reflexivity|].
    split; [intros _; exact EK|]. right. right. eauto 10.
  - pose proof (lookupApps_kinds _ _ _ _ _ _ _ HL) as LK.
    assert (LNR : existsb is_reload tL = false) by (by_kinds LK).
    assert (LNA : existsb is_apply tL = false) by (by_kinds LK).
    assert (Hmatch : Reload (Metadata entry) = AppReloadOptionMatched).
    { destruct Hopt as (info & l & _ & _ & Hm). exact Hm. }
    exists (tE ++ tL).
    split; [rewrite onlyKinds_app; apply andb_true_iff; split;
            [weaken_kinds EK|weaken_kinds LK]|].
    split; [rewrite count_app, EC, (count_none _ _ LNA); reflexivity|].
    split; [apply in_or_app; left; exact EI|].
    split.
    { intros a out' [Hin|Hin]%in_app_or; [rewrite (EA _ _ Hin); reflexivity|].
      exfalso. eapply (not_In_kind is_apply); [exact LNA| |exact Hin].
      reflexivity. }
    split.
    { intros a r [Hin|Hin]%in_app_or; [destruct (ER _ _ Hin)|].
      exfalso. eapply (not_In_kind is_reload); [exact LNR| |exact Hin].
      reflexivity. }
    split.
    { intros tx' a r [Hin|Hin]%in_app_or.
      - exfalso. eapply (not_In_kind is_lookup); [exact ENL| |exact Hin].
        reflexivity.
      - eapply lookupApps_tx; eauto. }
    split; [rewrite count_app, (count_none _ _ ENR), (count_none _ _ LNR); lia|].
    split; [rewrite reloadsAfterFailure_calm by exact ENR;
            rewrite <- (app_nil_r tL), reloadsAfterFailure_calm by exact LNR;
            reflexivity|].
    split; [intros Hne; contradiction|].
    destruct Hre as [(-> & -> & -> & ->)|(-> & orc & tR & HR & ->)].
    + right. left. auto.
    + left. split; [reflexivity|]. split; [exact Hmatch|].
      split; [reflexivity|].
      split; [rewrite existsb_app, ENR, LNR; reflexivity|].
      exists rc1, w2, orc, tR. split; [exact HR|].
      rewrite app_assoc. reflexivity.
  - pose proof (lookupApps_kinds _ _ _ _ _ _ _ HL) as LK.
    assert (LNR : existsb is_reload tL = false) by (by_kinds LK).
    assert (LNA : existsb is_apply tL = false) by (by_kinds LK).
    apply reloadApps_more in HR as (RK & RC & RF & RT).
    assert (RNA : existsb is_apply tR = false) by (by_kinds RK).
    assert (RNL : existsb is_lookup tR = false) by (by_kinds RK).
    assert (Hmatch : Reload (Metadata entry) = AppReloadOptionMatched).
    { destruct Hopt as (info & l & _ & _ & Hm). exact Hm. }
    exists (tE ++ tL ++ tR).
    split; [rewrite !onlyKinds_app; repeat (apply andb_true_iff; split);
            [weaken_kinds EK|weaken_kinds LK|weaken_kinds RK]|].
    split; [rewrite !count_app, EC, (count_none _ _ LNA),
              (count_none _ _ RNA); reflexivity|].
    split; [apply in_or_app; left; exact EI|].
    split.
    { intros a out' [Hin|[Hin|Hin]%in_app_or]%in_app_or;
        [rewrite (EA _ _ Hin); reflexivity| |].
      - exfalso. eapply (not_In_kind is_apply); [exact LNA| |exact Hin].
        reflexivity.
      - exfalso. eapply (not_In_kind is_apply); [exact RNA| |exact Hin].
        reflexivity. }
    split.
    { intros a r [Hin|[Hin|Hin]%in_app_or]%in_app_or;
        [destruct (ER _ _ Hin)| |eauto].
      exfalso. eapply (not_In_kind is_reload); [exact LNR| |exact Hin].
      reflexivity. }
    split.
    { intros tx' a r [Hin|[Hin|Hin]%in_app_or]%in_app_or.
      - exfalso. eapply (not_In_kind is_lookup); [exact ENL| |exact Hin].
        reflexivity.
      - eapply lookupApps_tx; eauto.
      - exfalso. eapply (not_In_kind is_lookup); [exact RNL| |exact Hin].
        reflexivity. }
    split; [rewrite !count_app, (count_none _ _ ENR), (count_none _ _ LNR);
            simpl; exact RC|].
    split; [rewrite !reloadsAfterFailure_calm by assumption; exact RF|].
    split; [intros Hne; contradiction|].
    right. right. eexists _, _, _, _, v, tF. split; [exact HF|].
    split; [reflexivity|]. rewrite <- !app_assoc. reflexivity.
Qed.

Lemma acquireTx_more inputTx w :
  forall tx ds w' t, acquireTx inputTx w = (Ok (tx, ds), w', t) ->
    onlyKinds [KBegin] t = true /\ List.filter is_cleanup ds = [] /\
    (Tx inputTx <> None -> tx = inputTx /\ ds = [] /\ t = []) /\
    (Tx inputTx = None ->
       ds = [DeferRollback tx] /\ t = [EvBeginTransaction (Ok tx)]).
Proof.
  intros tx ds w' t H. apply acquireTx_exact in H as [Hs Hn].
  destruct (Tx inputTx) as [h|] eqn:Htx.
  - destruct Hs as ([= -> ->] & _ & ->); [discriminate|].
    repeat split; auto; discriminate.
  - destruct (Hn eq_refl) as ([tx0|e] & -> & [= -> ->]).
    repeat split; auto; exfalso; auto.
Qed.

Lemma acquireCache_more s repoCache ds w :
  forall rc ds' w' t, acquireCache s repoCache ds w = (Ok (rc, ds'), w', t) ->
    match repoCache with
    | Some _ => ds' = ds /\ t = []
    | None =>
        ds' = DeferCleanup :: ds /\
        exists d, t = [EvMkdirTemp "" "openrun_git_" (Ok d)]
    end.
Proof.
  intros rc ds' w' t H. apply acquireCache_exact in H.
  destruct repoCache as [rc0|].
  - destruct H as ([= -> ->] & _ & ->). auto.
  - destruct H as ([d|e] & -> & H); [|discriminate].
    destruct H as (rc1 & [= -> ->]). eauto.
Qed.

Lemma acquireCache_failed s ds w :
  forall repoCache e w' t, acquireCache s repoCache ds w = (Err e, w', t) ->
    repoCache = None /\ exists e', t = [EvMkdirTemp "" "openrun_git_" (Err e')].
Proof.
  intros repoCache e w' t H. apply acquireCache_exact in H.
  destruct repoCache as [rc0|].
  - destruct H as ([=] & _).
  - destruct H as ([d|e'] & -> & H); [destruct H as (rc1 & [=])|]. eauto.
Qed.

Lemma filter_cleanup_finish (ds ds' : list Deferred) :
  (ds' = ds \/ exists tx', ds' = DeferRollback tx' :: ds) ->
  List.filter is_cleanup ds' = List.filter is_cleanup ds.
Proof. intros [->|(tx' & ->)]; reflexivity. Qed.

(** Who owns the repository cache.  A run that was handed a cache neither
    makes nor removes a directory and hands the cache back.  A run that was
    handed none makes a root at most once, the nested run sharing it, and
    removes at most what it made. *)
Lemma runSyncJobN_cache fuel :
  forall s inputTx entry dryRun cch repoCache w o orc w' t,
    runSyncJobN fuel s inputTx entry dryRun cch repoCache w
      = ((o, orc), w', t) ->
    match repoCache with
    | Some _ =>
        (exists rc', orc = Some rc') /\
        existsb is_mkdir t = false /\ existsb is_remove t = false
    | None =>
        orc = None /\
        (count is_remove t <= count is_mkdir t)%nat /\
        (count is_mkdir t <= 1)%nat
    end.
Proof.
  induction fuel as [|fuel IH];
    intros s inputTx entry dryRun cch repoCache w o orc w' t H.
  { injection H as <- <- <- <-. destruct repoCache; eauto. }
  apply runSyncJobN_steps in H as (r1 & w1 & t1 & Htx & H).
  destruct r1 as [[tx ds]|e].
  2:{ destruct H as (-> & -> & ->).
      apply acquireTx_exact in Htx as [Hs Hn].
      assert (Hk : onlyKinds [KBegin] t1 = true).
      { destruct (Tx inputTx) as [h|].
        - destruct Hs as (_ & _ & ->); [discriminate|reflexivity].
        - destruct (Hn eq_refl) as (rb & -> & _). reflexivity. }
      assert (Hm : existsb is_mkdir t1 = false) by (by_kinds Hk).
      assert (Hr : existsb is_remove t1 = false) by (by_kinds Hk).
      destruct repoCache; simpl; rewrite ?Hm, ?Hr; eauto.
      split; [reflexivity|]. counts. lia. }
  apply acquireTx_more in Htx as (Hk1 & Hcl & _).
  assert (Hm1 : existsb is_mkdir t1 = false) by (by_kinds Hk1).
  assert (Hr1 : existsb is_remove t1 = false) by (by_kinds Hk1).
  destruct H as (r2 & w2 & t2 & Hca & H).
  destruct r2 as [[rc0 ds0]|e].
  2:{ destruct H as (rcf & tD & Hd & -> & -> & ->).
      apply acquireCache_failed in Hca as (-> & e' & ->).
      apply runDeferred_more in Hd as (Hk & Hc & _).
      rewrite Hcl in Hc. simpl in Hc.
      assert (Hm : existsb is_mkdir tD = false) by (by_kinds Hk).
      split; [reflexivity|]. counts. lia. }
  destruct H as (rc1 & ds1 & w3 & tB & rcf & tD & Hb & Hd & -> & ->).
  apply acquireCache_more in Hca.
  apply runSyncJobBody_facts in Hb
    as (out & tOwn & OK & _ & _ & _ & _ & _ & _ & _ & _ & Hb).
  assert (Hm3 : existsb is_mkdir tOwn = false) by (by_kinds OK).
  assert (Hr3 : existsb is_remove tOwn = false) by (by_kinds OK).
  apply runDeferred_more in Hd as (DK & DC & _ & DS & _).
  assert (Hm4 : existsb is_mkdir tD = false) by (by_kinds DK).
  assert (Hmid : exists tMid,
            tB = tOwn ++ tMid /\ existsb is_mkdir tMid = false /\
            existsb is_remove tMid = false /\
            List.filter is_cleanup ds1 = List.filter is_cleanup ds0).
  { destruct Hb as [(_ & _ & -> & _ & rc2 & w4 & orc & tN & HN & ->)
                   |[(_ & _ & -> & -> & _)
                    |(status & applyInfo & apps & w4 & v & tF & HF & _ & ->)]].
    - exists tN. apply IH in HN as (_ & HNm & HNr). auto.
    - exists []. rewrite app_nil_r. auto.
    - exists tF. apply finishRun_more in HF as (FK & _ & _ & Hds & _).
      split; [reflexivity|]. split; [by_kinds FK|]. split; [by_kinds FK|].
      apply filter_cleanup_finish. exact Hds. }
  destruct Hmid as (tMid & -> & Hm5 & Hr5 & Hfilter).
  rewrite Hfilter in DC.
  destruct repoCache as [rc|].
  - destruct Hca as [-> ->]. rewrite Hcl in DC. simpl in DC.
    split; [apply (DS rc1 eq_refl)|].
    assert (Hr4 : existsb is_remove tD = false).
    { destruct (existsb is_remove tD) eqn:Hx; [|reflexivity].
      exfalso. apply existsb_exists in Hx as (ev & Hin & Hev).
      assert (Hpos : (0 < count is_remove tD)%nat); [|lia].
      clear -Hin Hev. induction tD as [|e0 tD IHt]; [destruct Hin|].
      rewrite count_cons. destruct Hin as [->|Hin].
      - rewrite Hev. lia.
      - specialize (IHt Hin). lia. }
    simpl. rewrite !existsb_app. simpl. rewrite !existsb_app.
    rewrite Hm1, Hr1, Hm3, Hr3, Hm5, Hr5, Hm4, Hr4. auto.
  - destruct Hca as (-> & d & ->). simpl in DC. rewrite Hcl in DC.
    simpl in DC. split; [reflexivity|]. counts. lia.
Qed.

Lemma reloadsAfterFailure_mid pre mid post :
  existsb is_reload pre = false -> existsb is_reload post = false ->
  reloadsAfterFailure (pre ++ mid ++ post) = reloadsAfterFailure mid.
Proof.
  intros Hpre Hpost. rewrite reloadsAfterFailure_calm by exact Hpre.
  apply reloadsAfterFailure_calm_r. exact Hpost.
Qed.

Lemma reloadsAfterFailure_none t :
  existsb is_reload t = false -> reloadsAfterFailure t = 0%nat.
Proof.
  intros H. rewrite <- (app_nil_r t), reloadsAfterFailure_calm by exact H.
  reflexivity.
Qed.

(** How many calls a run makes. *)
Lemma runSyncJobN_bounds fuel :
  forall s inputTx entry dryRun (cch : bool) repoCache w o orc w' t,
    runSyncJobN fuel s inputTx entry dryRun cch repoCache w
      = ((o, orc), w', t) ->
    (count is_apply t <= (if cch then 2 else 1))%nat /\
    (count is_reload t
     <= length (FilteredApps (ApplyResponse (Status entry))))%nat /\
    reloadsAfterFailure t = 0%nat /\
    (count is_update t <= 1)%nat /\ (count is_complete t <= 1)%nat /\
    (Reload (Metadata entry) <> AppReloadOptionMatched ->
     (count is_apply t <= 1)%nat /\ existsb is_lookup t = false /\
     existsb is_reload t = false).
Proof.
  induction fuel as [|fuel IH];
    intros s inputTx entry dryRun cch repoCache w o orc w' t H.
  { injection H as <- <- <- <-. unfold count. simpl.
    repeat split; destruct cch; lia. }
  apply runSyncJobN_steps in H as (r1 & w1 & t1 & Htx & H).
  assert (Hk1 : onlyKinds [KBegin] t1 = true).
  { apply acquireTx_exact in Htx as [Hs Hn].
    destruct (Tx inputTx) as [h|].
    - destruct Hs as (_ & _ & ->); [discriminate|reflexivity].
    - destruct (Hn eq_refl) as (rb & -> & _). reflexivity. }
  assert (A1 : existsb is_apply t1 = false) by (by_kinds Hk1).
  assert (R1 : existsb is_reload t1 = false) by (by_kinds Hk1).
  assert (U1 : existsb is_update t1 = false) by (by_kinds Hk1).
  assert (C1 : existsb is_complete t1 = false) by (by_kinds Hk1).
  assert (L1 : existsb is_lookup t1 = false) by (by_kinds Hk1).
  destruct r1 as [[tx ds]|e].
  2:{ destruct H as (-> & -> & ->).
      assert (RT : existsb is_reload (EvRunSyncJob (Id entry) cch :: t1)
                   = false) by (simpl; exact R1).
      rewrite (reloadsAfterFailure_none _ RT). simpl. rewrite L1, R1.
      counts. repeat split; destruct cch; lia. }
  destruct H as (r2 & w2 & t2 & Hca & H).
  assert (Hk2 : onlyKinds [KDir] t2 = true).
  { apply acquireCache_exact in Hca. destruct repoCache as [rc|].
    - destruct Hca as (_ & _ & ->). reflexivity.
    - destruct Hca as (res & -> & _). reflexivity. }
  assert (A2 : existsb is_apply t2 = false) by (by_kinds Hk2).
  assert (R2 : existsb is_reload t2 = false) by (by_kinds Hk2).
  assert (U2 : existsb is_update t2 = false) by (by_kinds Hk2).
  assert (C2 : existsb is_complete t2 = false) by (by_kinds Hk2).
  assert (L2 : existsb is_lookup t2 = false) by (by_kinds Hk2).
  destruct r2 as [[rc0 ds0]|e].
  2:{ destruct H as (rcf & tD & Hd & -> & -> & ->).
      apply runDeferred_more in Hd as (DK & _).
      assert (A4 : existsb is_apply tD = false) by (by_kinds DK).
      assert (R4 : existsb is_reload tD = false) by (by_kinds DK).
      assert (U4 : existsb is_update tD = false) by (by_kinds DK).
      assert (C4 : existsb is_complete tD = false) by (by_kinds DK).
      assert (L4 : existsb is_lookup tD = false) by (by_kinds DK).
      assert (RT : existsb is_reload
                     (EvRunSyncJob (Id entry) cch :: t1 ++
                      EvLog LvlDebug None ("Running sync job " +:+ Id entry)
                      :: t2 ++ tD) = false).
      { simpl. rewrite existsb_app. simpl. rewrite existsb_app, R1, R2, R4.
        reflexivity. }
      rewrite (reloadsAfterFailure_none _ RT), RT.
      simpl. rewrite !existsb_app. simpl. rewrite !existsb_app.
      rewrite L1, L2, L4. counts.
      repeat split; destruct cch; lia. }
  destruct H as (rc1 & ds1 & w3 & tB & rcf & tD & Hb & Hd & -> & ->).
  apply runSyncJobBody_facts in Hb
    as (out & tOwn & OK & OA & _ & _ & _ & _ & OR & OF & ONM & Hb).
  assert (U3 : existsb is_update tOwn = false) by (by_kinds OK).
  assert (C3 : existsb is_complete tOwn = false) by (by_kinds OK).
  apply runDeferred_more in Hd as (DK & _).
  assert (A4 : existsb is_apply tD = false) by (by_kinds DK).
  assert (R4 : existsb is_reload tD = false) by (by_kinds DK).
  assert (U4 : existsb is_update tD = false) by (by_kinds DK).
  assert (C4 : existsb is_complete tD = false) by (by_kinds DK).
  assert (L4 : existsb is_lookup tD = false) by (by_kinds DK).
  assert (Hshape :
    EvRunSyncJob (Id entry) cch :: t1 ++
      EvLog LvlDebug None ("Running sync job " +:+ Id entry) :: t2 ++ tB ++ tD
    = ([EvRunSyncJob (Id entry) cch] ++ t1 ++
       [EvLog LvlDebug None ("Running sync job " +:+ Id entry)] ++ t2) ++
      tB ++ tD) by (simpl; rewrite <- ?app_assoc; reflexivity).
  assert (Hpre : existsb is_reload
            ([EvRunSyncJob (Id entry) cch] ++ t1 ++
             [EvLog LvlDebug None ("Running sync job " +:+ Id entry)] ++ t2)
            = false).
  { simpl. rewrite existsb_app. simpl. rewrite R1, R2. reflexivity. }
  rewrite Hshape at 3. rewrite reloadsAfterFailure_mid by assumption.
  destruct Hb as [(-> & Hmatch & -> & ONR & rc2 & w4 & orc & tN & HN & ->)
                 |[(-> & Hmatch & -> & -> & _)
                  |(status & applyInfo & apps & w4 & v & tF & HF & _ & ->)]].
  - apply IH in HN as (NA & NR & NF & NU & NC & _).
    rewrite reloadsAfterFailure_calm by exact ONR.
    split; [counts; lia|]. split; [counts; lia|]. split; [exact NF|].
    split; [counts; lia|]. split; [counts; lia|].
    intros Hne. contradiction.
  - split; [counts; lia|]. split; [counts; lia|]. split; [exact OF|].
    split; [counts; lia|]. split; [counts; lia|].
    intros Hne. contradiction.
  - apply finishRun_more in HF as (FK & FU & FC & _).
    assert (A5 : existsb is_apply tF = false) by (by_kinds FK).
    assert (R5 : existsb is_reload tF = false) by (by_kinds FK).
    assert (L5 : existsb is_lookup tF = false) by (by_kinds FK).
    rewrite reloadsAfterFailure_calm_r by exact R5.
    split; [counts; destruct cch; lia|]. split; [counts; lia|].
    split; [exact OF|].
    split; [counts; lia|]. split; [counts; lia|].
    intros Hne. specialize (ONM Hne).
    assert (R3 : existsb is_reload tOwn = false) by (by_kinds ONM).
    assert (L3 : existsb is_lookup tOwn = false) by (by_kinds ONM).
    split; [counts; lia|].
    simpl. rewrite !existsb_app. simpl. rewrite !existsb_app.
    rewrite L1, L2, L3, L4, L5, R1, R2, R3, R4, R5. auto.
Qed.

Lemma onlyKinds_In ks ev t :
  onlyKinds ks t = true -> In ev t -> bool_decide (kind ev ∈ ks) = true.
Proof.
  unfold onlyKinds. rewrite forallb_forall. intros H Hin. apply (H _ Hin).
Qed.

Lemma no_rollback_no_boundary t :
  onlyKinds [KRollback; KRemove] t = true ->
  (forall tx, ~ In (EvRollback tx) t) ->
  existsb is_tx_boundary t = false.
Proof.
  intros Hk Hno. apply Bool.not_true_iff_false. intros Hx.
  apply existsb_exists in Hx as (ev & Hin & Hev).
  pose proof (onlyKinds_In _ _ _ Hk Hin) as Hkind.
  destruct ev; try discriminate Hev.
  - vm_compute in Hkind. discriminate Hkind.
  - apply (Hno _ Hin).
Qed.

Lemma In_run_trace (ev e1 e2 : Event) t1 t2 tB tD :
  In ev (e1 :: t1 ++ e2 :: t2 ++ tB ++ tD) ->
  ev = e1 \/ In ev t1 \/ ev = e2 \/ In ev t2 \/ In ev tB \/ In ev tD.
Proof.
  intros [<-|[H|[<-|[H|[H|H]%in_app_or]%in_app_or]]%in_app_or]; auto 10.
Qed.

(** A run in the transaction of its caller. *)
Lemma runSyncJobN_in_tx fuel :
  forall s inputTx entry dryRun (cch : bool) repoCache w o orc w' t,
    Tx inputTx <> None ->
    runSyncJobN fuel s inputTx entry dryRun cch repoCache w
      = ((o, orc), w', t) ->
    (forall a out, In (EvApply a out) t -> aTx a = inputTx) /\
    (forall a r, In (EvReloadApp a r) t -> rTx a = inputTx) /\
    (forall tx' a r, In (EvGetAppTx tx' a r) t -> tx' = inputTx) /\
    (forall st apps, o = Returns (Ok (st, apps)) -> Error st = "" ->
       existsb is_tx_boundary t = false /\
       In (EvUpdateSyncStatus inputTx (Id entry) st None) t).
Proof.
  induction fuel as [|fuel IH];
    intros s inputTx entry dryRun cch repoCache w o orc w' t Hin H.
  { injection H as <- <- <- <-.
    repeat split; try (intros; contradiction); discriminate. }
  apply runSyncJobN_steps in H as (r1 & w1 & t1 & Htx & H).
  destruct r1 as [[tx ds]|e].
  2:{ apply acquireTx_exact in Htx as [Hs _].
      destruct (Hs Hin) as ([=] & _). }
  apply acquireTx_more in Htx as (_ & _ & Hs & _).
  destruct (Hs Hin) as (-> & -> & ->). clear Hs.
  destruct H as (r2 & w2 & t2 & Hca & H).
  destruct r2 as [[rc0 ds0]|e].
  2:{ destruct H as (rcf & tD & Hd & -> & -> & ->).
      apply acquireCache_failed in Hca as (-> & e' & ->).
      apply runDeferred_more in Hd as (DK & _).
      assert (A4 : existsb is_apply tD = false) by (by_kinds DK).
      assert (R4 : existsb is_reload tD = false) by (by_kinds DK).
      assert (L4 : existsb is_lookup tD = false) by (by_kinds DK).
      split; [|split; [|split; [|discriminate]]].
      - intros a out [[=]|[[=]|[[=]|Hi]]]. exfalso.
        eapply (not_In_kind is_apply); [exact A4| |exact Hi]. reflexivity.
      - intros a r [[=]|[[=]|[[=]|Hi]]]. exfalso.
        eapply (not_In_kind is_reload); [exact R4| |exact Hi]. reflexivity.
      - intros tx' a r [[=]|[[=]|[[=]|Hi]]]. exfalso.
        eapply (not_In_kind is_lookup); [exact L4| |exact Hi]. reflexivity. }
  destruct H as (rc1 & ds1 & w3 & tB & rcf & tD & Hb & Hd & -> & ->).
  assert (Hds0 : forall tx, ~ In (DeferRollback tx) ds0).
  { apply acquireCache_more in Hca. destruct repoCache as [rc|].
    - destruct Hca as [-> _]. intros tx [].
    - destruct Hca as [-> _]. intros tx [[=]|[]]. }
  assert (Hk2 : onlyKinds [KDir] t2 = true).
  { apply acquireCache_more in Hca. destruct repoCache as [rc|].
    - destruct Hca as (_ & ->). reflexivity.
    - destruct Hca as (_ & d & ->). reflexivity. }
  assert (A2 : existsb is_apply t2 = false) by (by_kinds Hk2).
  assert (R2 : existsb is_reload t2 = false) by (by_kinds Hk2).
  assert (L2 : existsb is_lookup t2 = false) by (by_kinds Hk2).
  assert (B2 : existsb is_tx_boundary t2 = false) by (by_kinds Hk2).
  apply runSyncJobBody_facts in Hb
    as (out & tOwn & OK & _ & _ & OA & OR & OL & _ & _ & _ & Hb).
  assert (B3 : existsb is_tx_boundary tOwn = false) by (by_kinds OK).
  apply runDeferred_more in Hd as (DK & _ & DR & _).
  assert (A4 : existsb is_apply tD = false) by (by_kinds DK).
  assert (R4 : existsb is_reload tD = false) by (by_kinds DK).
  assert (L4 : existsb is_lookup tD = false) by (by_kinds DK).
  assert (Hmid : exists tMid,
    tB = tOwn ++ tMid /\
    (forall a out, In (EvApply a out) tMid -> aTx a = inputTx) /\
    (forall a r, In (EvReloadApp a r) tMid -> rTx a = inputTx) /\
    (forall tx' a r, In (EvGetAppTx tx' a r) tMid -> tx' = inputTx) /\
    (forall st apps, o = Returns (Ok (st, apps)) -> Error st = "" ->
       ds1 = ds0 /\ existsb is_tx_boundary tMid = false /\
       In (EvUpdateSyncStatus inputTx (Id entry) st None) tMid)).
  { destruct Hb as [(_ & _ & -> & _ & rc2 & w4 & orc & tN & HN & ->)
                   |[(_ & _ & -> & -> & ->)
                    |(status & applyInfo & apps & w4 & v & tF & HF & -> & ->)]].
    - exists tN. apply (IH _ _ _ _ _ _ _ _ _ _ _ Hin) in HN
        as (NA & NR & NL & NS).
      repeat split; auto; apply (NS _ _ H H0).
    - exists []. rewrite app_nil_r.
      repeat split; try (intros; contradiction); discriminate.
    - exists tF. apply finishRun_more in HF as (FK & _ & _ & _ & FE & FS).
      assert (A5 : existsb is_apply tF = false) by (by_kinds FK).
      assert (R5 : existsb is_reload tF = false) by (by_kinds FK).
      assert (L5 : existsb is_lookup tF = false) by (by_kinds FK).
      split; [reflexivity|]. split; [|split; [|split]].
      + intros a out' Hi. exfalso.
        eapply (not_In_kind is_apply); [exact A5| |exact Hi]. reflexivity.
      + intros a r Hi. exfalso.
        eapply (not_In_kind is_reload); [exact R5| |exact Hi]. reflexivity.
      + intros tx' a r Hi. exfalso.
        eapply (not_In_kind is_lookup); [exact L5| |exact Hi]. reflexivity.
      + intros st apps' [= ->] He.
        rewrite (FE _ _ eq_refl) in He. destruct (FS He) as [-> Hv].
        destruct (Hv _ _ eq_refl) as (_ & _ & ->).
        destruct (Tx inputTx) as [h|]; [|contradiction].
        split; [reflexivity|]. split; [reflexivity|left; reflexivity]. }
  destruct Hmid as (tMid & -> & MA & MR & ML & MS).
  split; [|split; [|split]].
  - intros a out' Hi.
    apply In_run_trace in Hi as [[=]|[[]|[[=]|[Hi|[Hi|Hi]]]]].
    + exfalso. eapply (not_In_kind is_apply); [exact A2| |exact Hi].
      reflexivity.
    + apply in_app_or in Hi as [Hi|Hi]; eauto.
    + exfalso. eapply (not_In_kind is_apply); [exact A4| |exact Hi].
      reflexivity.
  - intros a r Hi.
    apply In_run_trace in Hi as [[=]|[[]|[[=]|[Hi|[Hi|Hi]]]]].
    + exfalso. eapply (not_In_kind is_reload); [exact R2| |exact Hi].
      reflexivity.
    + apply in_app_or in Hi as [Hi|Hi]; eauto.
    + exfalso. eapply (not_In_kind is_reload); [exact R4| |exact Hi].
      reflexivity.
  - intros tx' a r Hi.
    apply In_run_trace in Hi as [[=]|[[]|[[=]|[Hi|[Hi|Hi]]]]].
    + exfalso. eapply (not_In_kind is_lookup); [exact L2| |exact Hi].
      reflexivity.
    + apply in_app_or in Hi as [Hi|Hi]; eauto.
    + exfalso. eapply (not_In_kind is_lookup); [exact L4| |exact Hi].
      reflexivity.
  - intros st apps Ho He. destruct (MS _ _ Ho He) as (-> & MB & MU).
    assert (B4 : existsb is_tx_boundary tD = false).
    { apply no_rollback_no_boundary; [exact DK|].
      intros tx Hi. apply DR in Hi. apply (Hds0 _ Hi). }
    split.
    + simpl. rewrite !existsb_app, B2, B3, MB, B4. reflexivity.
    + right. simpl. right. apply in_or_app. right. apply in_or_app. left.
      apply in_or_app. right. exact MU.
Qed.

(** A run in a transaction of its own that ends well. *)
Lemma runSyncJobN_commits fuel :
  forall s inputTx entry dryRun (cch : bool) repoCache w st apps orc w' t,
    Tx inputTx = None ->
    runSyncJobN fuel s inputTx entry dryRun cch repoCache w
      = ((Returns (Ok (st, apps)), orc), w', t) ->
    Error st = "" ->
    exists tx t1 t2,
      t = t1 ++
          [EvUpdateSyncStatus tx (Id entry) st None;
           EvCompleteTransaction tx apps dryRun "sync" None] ++ t2 /\
      In (EvBeginTransaction (Ok tx)) t1 /\
      (exists a out, In (EvApply a out) t1 /\ aTx a = tx) /\
      existsb is_complete t1 = false /\ existsb is_complete t2 = false /\
      In (EvRollback tx) t2.
Proof.
  induction fuel as [|fuel IH];
    intros s inputTx entry dryRun cch repoCache w st apps orc w' t Hin H He.
  { discriminate H. }
  apply runSyncJobN_steps in H as (r1 & w1 & t1 & Htx & H).
  destruct r1 as [[tx ds]|e]; [|destruct H as ([=] & _)].
  apply acquireTx_more in Htx as (_ & _ & _ & Hs).
  destruct (Hs Hin) as (-> & ->). clear Hs.
  destruct H as (r2 & w2 & t2 & Hca & H).
  destruct r2 as [[rc0 ds0]|e]; [|destruct H as (? & ? & _ & [=] & _)].
  destruct H as (rc1 & ds1 & w3 & tB & rcf & tD & Hb & Hd & -> & ->).
  assert (Hds0 : In (DeferRollback tx) ds0).
  { apply acquireCache_more in Hca. destruct repoCache as [rc|].
    - destruct Hca as [-> _]. left. reflexivity.
    - destruct Hca as [-> _]. right. left. reflexivity. }
  assert (Hk2 : onlyKinds [KDir] t2 = true).
  { apply acquireCache_more in Hca. destruct repoCache as [rc|].
    - destruct Hca as (_ & ->). reflexivity.
    - destruct Hca as (_ & d & ->). reflexivity. }
  assert (C2 : existsb is_complete t2 = false) by (by_kinds Hk2).
  apply runSyncJobBody_facts in Hb
    as (out & tOwn & OK & _ & OI & _ & _ & _ & _ & _ & _ & Hb).
  assert (C3 : existsb is_complete tOwn = false) by (by_kinds OK).
  apply runDeferred_more in Hd as (DK & _ & DR & _).
  assert (C4 : existsb is_complete tD = false) by (by_kinds DK).
  destruct Hb as [(_ & _ & -> & _ & rc2 & w4 & orc' & tN & HN & ->)
                 |[(_ & _ & _ & _ & [=])
                  |(status & applyInfo & apps' & w4 & v & tF & HF & [= <-] & ->)]].
  - apply (IH _ _ _ _ _ _ _ _ _ _ _ _ Hin) in HN
      as (tx' & n1 & n2 & -> & NB & (a & out' & NA & NT) & NC1 & NC2 & NR);
      [|exact He].
    exists tx',
      (EvRunSyncJob (Id entry) cch :: [EvBeginTransaction (Ok tx)] ++
       EvLog LvlDebug None ("Running sync job " +:+ Id entry) :: t2 ++
       tOwn ++ n1),
      (n2 ++ tD).
    split; [simpl; rewrite <- ?app_assoc; simpl; rewrite <- ?app_assoc;
            reflexivity|].
    split; [right; right; right; apply in_or_app; right; apply in_or_app;
            right; exact NB|].
    split; [exists a, out'; split; [|exact NT];
            right; right; right; apply in_or_app; right; apply in_or_app;
            right; exact NA|].
    split; [simpl; rewrite !existsb_app, C2, C3, NC1; reflexivity|].
    split; [rewrite existsb_app, NC2, C4; reflexivity|].
    apply in_or_app. left. exact NR.
  - apply finishRun_more in HF as (_ & _ & _ & _ & FE & FS).
    rewrite (FE _ _ eq_refl) in He. destruct (FS He) as [-> Hv].
    destruct (Hv _ _ eq_refl) as (_ & -> & ->). rewrite Hin.
    exists tx,
      (EvRunSyncJob (Id entry) cch :: [EvBeginTransaction (Ok tx)] ++
       EvLog LvlDebug None ("Running sync job " +:+ Id entry) :: t2 ++ tOwn),
      tD.
    split; [simpl; rewrite <- ?app_assoc; simpl; rewrite <- ?app_assoc;
            reflexivity|].
    split; [right; left; reflexivity|].
    split; [exists (applyArgsFor tx entry dryRun cch), out;
            split; [|reflexivity];
            right; right; right; apply in_or_app; right; exact OI|].
    split; [simpl; rewrite !existsb_app, C2, C3; reflexivity|].
    split; [exact C4|]. apply DR. exact Hds0.
Qed.

(** X9. A run that is handed no transaction and ends with a status without
    error commits its work. It begins a transaction, hands it to Apply, writes
    the status through it and completes it with the updated applications, the
    dry-run flag and the tag "sync"; this is the only completion of the run.
    The deferred rollback of the same transaction still runs afterwards. *)
Theorem runSyncJob_success_commits (s : Server) (inputTx : Transaction)
    (entry : SyncEntry) (dryRun cch : bool) (repoCache : option RepoCache)
    (w : World) (st : SyncJobStatus) (apps : list AppPathDomain)
    (orc : option RepoCache) (w' : World) (t : list Event) :
  Tx inputTx = None ->
  runSyncJob s inputTx entry dryRun cch repoCache w
    = ((Returns (Ok (st, apps)), orc), w', t) ->
  Error st = "" ->
  exists tx t1 t2,
    t = t1 ++
        [EvUpdateSyncStatus tx (Id entry) st None;
         EvCompleteTransaction tx apps dryRun "sync" None] ++ t2 /\
    In (EvBeginTransaction (Ok tx)) t1 /\
    (exists a out, In (EvApply a out) t1 /\ aTx a = tx) /\
    existsb is_complete t1 = false /\ existsb is_complete t2 = false /\
    In (EvRollback tx) t2.
Proof. unfold runSyncJob. apply runSyncJobN_commits. Qed.

(** X10. A run that is handed a transaction works in it: every Apply, every
    lookup of an application and every Reload of the run gets that
    transaction, and the run completes none. When the run ends with a status
    without error it has neither begun nor rolled back a transaction, and the
    status was written through the transaction of the caller: committing is
    left to the caller. *)
Theorem runSyncJob_in_caller_tx (s : Server) (inputTx : Transaction)
    (entry : SyncEntry) (dryRun cch : bool) (repoCache : option RepoCache)
    (w : World) (o : outcome RunValue) (orc : option RepoCache) (w' : World)
    (t : list Event) :
  Tx inputTx <> None ->
  runSyncJob s inputTx entry dryRun cch repoCache w = ((o, orc), w', t) ->
  existsb is_complete t = false /\
  (forall a out, In (EvApply a out) t -> aTx a = inputTx) /\
  (forall a r, In (EvReloadApp a r) t -> rTx a = inputTx) /\
  (forall tx' a r, In (EvGetAppTx tx' a r) t -> tx' = inputTx) /\
  (forall st apps, o = Returns (Ok (st, apps)) -> Error st = "" ->
     existsb is_tx_boundary t = false /\
     In (EvUpdateSyncStatus inputTx (Id entry) st None) t).
Proof.
  unfold runSyncJob. intros Hin H. split.
  - eapply runSyncJobN_caller_tx; eauto.
  - eapply runSyncJobN_in_tx; eauto.
Qed.

(** X11. Who owns the repository cache of a run. The events are those of
    [runSyncJob] itself; what Apply and Reload do with the cache they are
    handed happens inside those calls. A run that is handed a cache makes no
    directory and removes none, and hands a cache back: cleaning up is left to
    the caller. A run that is handed none hands none back; it makes the root
    of its own cache at most once, also when it runs a second time for a
    missing application, and removes at most what it made. *)
Theorem runSyncJob_cache_ownership (s : Server) (inputTx : Transaction)
    (entry : SyncEntry) (dryRun cch : bool) (repoCache : option RepoCache)
    (w : World) (o : outcome RunValue) (orc : option RepoCache) (w' : World)
    (t : list Event) :
  runSyncJob s inputTx entry dryRun cch repoCache w = ((o, orc), w', t) ->
  (forall rc, repoCache = Some rc ->
     (exists rc', orc = Some rc') /\
     existsb is_mkdir t = false /\ existsb is_remove t = false) /\
  (repoCache = None ->
     orc = None /\
     (count is_remove t <= count is_mkdir t)%nat /\
     (count is_mkdir t <= 1)%nat).
Proof.
  unfold runSyncJob. intros H. apply runSyncJobN_cache in H.
  destruct repoCache as [rc|]; split; try discriminate; auto.
Qed.

(** X12. How many calls a run makes. Apply is called at most twice, and at
    most once when [checkCommitHash] is not set; Reload is called at most once
    for each application of the last run, and never again after a Reload has
    failed; the status is written at most once and at most one transaction is
    completed. Unless the reload policy is "matched" the run calls Apply at
    most once, looks no application up and reloads none. *)
Theorem runSyncJob_call_bounds (s : Server) (inputTx : Transaction)
    (entry : SyncEntry) (dryRun cch : bool) (repoCache : option RepoCache)
    (w : World) (o : outcome RunValue) (orc : option RepoCache) (w' : World)
    (t : list Event) :
  runSyncJob s inputTx entry dryRun cch repoCache w = ((o, orc), w', t) ->
  (count is_apply t <= (if cch then 2 else 1))%nat /\
  (count is_reload t
   <= length (FilteredApps (ApplyResponse (Status entry))))%nat /\
  reloadsAfterFailure t = 0%nat /\
  (count is_update t <= 1)%nat /\ (count is_complete t <= 1)%nat /\
  (Reload (Metadata entry) <> AppReloadOptionMatched ->
   (count is_apply t <= 1)%nat /\ existsb is_lookup t = false /\
   existsb is_reload t = false).
Proof. unfold runSyncJob. apply runSyncJobN_bounds. Qed.

Lemma reloadedApps_app t1 t2 :
  reloadedApps (t1 ++ t2) = reloadedApps t1 ++ reloadedApps t2.
Proof.
  induction t1 as [|ev t1 IH]; [reflexivity|].
  destruct ev; simpl; auto. destruct r; simpl; auto.
  rewrite IH, app_assoc. reflexivity.
Qed.

Lemma promotedApps_app t1 t2 :
  promotedApps (t1 ++ t2) = promotedApps t1 ++ promotedApps t2.
Proof.
  induction t1 as [|ev t1 IH]; [reflexivity|].
  destruct ev; simpl; auto. destruct r; simpl; auto.
  rewrite IH, app_assoc. reflexivity.
Qed.

Lemma reloadedApps_none t :
  existsb is_reload t = false -> reloadedApps t = [] /\ promotedApps t = [].
Proof.
  induction t as [|ev t IH]; [auto|]. simpl.
  intros [He Ht]%orb_false_iff. destruct ev; try discriminate He; auto.
Qed.

(** The reload loop gathers what the successful Reloads report. *)
Lemma reloadApps_acc tx entry m apps :
  forall rc acc w reloadErr acc' rc' w' t,
    reloadApps tx entry m apps rc acc w
      = ((Returns (reloadErr, acc'), rc'), w', t) ->
    reloadResults acc' = reloadResults acc ++ reloadedApps t /\
    promoteResults acc' = promoteResults acc ++ promotedApps t.
Proof.
  induction apps as [|a apps IH];
    intros rc acc w reloadErr acc' rc' w' t; simpl.
  - unmonad. intros [= <- <- <- <- <-]. simpl. rewrite !app_nil_r. auto.
  - destruct (appMap_lookup m a) as [app|] eqn:Hl; [|discriminate].
    unfold ReloadApp. unmonad.
    destruct (Server_ReloadApp w _ rc) as [[[r|e] rc1] w1]; simpl.
    + destruct (reloadApps tx entry m apps rc1 _ w1) as [[y w2] t2] eqn:Hr.
      intros [= -> <- <-]. apply IH in Hr as [H1 H2]. simpl in *.
      rewrite H1, H2, <- !app_assoc. auto.
    + intros [= <- <- <- <- <-]. simpl. rewrite !app_nil_r. auto.
Qed.

(** What the response in the status of a run holds. *)
Lemma runSyncJobN_response fuel :
  forall s inputTx entry dryRun (cch : bool) repoCache w st apps orc w' t,
    runSyncJobN fuel s inputTx entry dryRun cch repoCache w
      = ((Returns (Ok (st, apps)), orc), w', t) ->
    (run_failed t = false ->
     exists a info l,
       In (EvApply a (ApplyOk info l)) t /\
       ReloadResults (ApplyResponse st) = ReloadResults info /\
       PromoteResults (ApplyResponse st) = PromoteResults info /\
       ApproveResults (ApplyResponse st) = ApproveResults info /\
       (FilteredApps (ApplyResponse st) = FilteredApps info \/
        (FilteredApps info = [] /\
         FilteredApps (ApplyResponse st)
         = FilteredApps (ApplyResponse (Status entry))))) /\
    (forall a l m, In (EvApply a (ApplyErr l m)) t ->
       ApplyResponse st
       = failedApplyInfo dryRun
           (FilteredApps (ApplyResponse (Status entry)))) /\
    (forall a m, In (EvReloadApp a (Err m)) t ->
       ReloadResults (ApplyResponse st) = reloadedApps t /\
       PromoteResults (ApplyResponse st) = promotedApps t).
Proof.
  induction fuel as [|fuel IH];
    intros s inputTx entry dryRun cch repoCache w st apps orc w' t H.
  { discriminate. }
  apply runSyncJobN_inv in H
    as [(e & tq & [=] & _)
       |(tx & rc0 & ds0 & w0 & tP & rc1 & ds1 & w1 & tB & rcf & tD
         & HP & _ & Hb & Hd & ->)].
  pose proof (runDeferred_calm _ _ _ _ _ _ Hd) as (DA & DR & _).
  destruct HP as (PA & PR & _).
  apply runSyncJobBody_inv in Hb as (out & rc2 & w2 & HA & Hb).
  cbv zeta in Hb.
  destruct (applyEvents_obs entry (applyArgsFor tx entry dryRun cch) out)
    as (_ & _ & _ & ER & _ & EF).
  destruct (applyEvents_more entry (applyArgsFor tx entry dryRun cch) out)
    as (_ & EI & EA & _).
  assert (EO : forall a0 out0,
            In (EvApply a0 out0)
              (applyEvents entry (applyArgsFor tx entry dryRun cch) out) ->
            out0 = out).
  { unfold applyEvents. intros a0 out0 [[= _ <-]|Hi]; [reflexivity|].
    destruct (applyFailed out); [destruct Hi as [[=]|[]]|destruct Hi]. }
  remember (applyEvents entry (applyArgsFor tx entry dryRun cch) out) as tE
    eqn:HtE.
  clear HtE.
  assert (Hcalm : forall t0, existsb is_apply t0 = false ->
            forall a0 out0, ~ In (EvApply a0 out0) t0).
  { intros t0 H0 a0 out0. eapply (not_In_kind is_apply); eauto. }
  assert (HcalmR : forall t0, existsb is_reload t0 = false ->
            forall a0 r0, ~ In (EvReloadApp a0 r0) t0).
  { intros t0 H0 a0 r0. eapply (not_In_kind is_reload); eauto. }
  destruct (reloadedApps_none _ PR) as [PRa PPa].
  destruct (reloadedApps_none _ DR) as [DRa DPa].
  destruct (reloadedApps_none _ ER) as [ERa EPa].
  destruct Hb as [(Hno & v & tF & HF & [= <-] & ->)
                 |[(Hopt & m & w3 & tL & HL & -> & Hre)
                  |(Hopt & m & w3 & tL & reloadErr & acc & rc3 & w4 & tR & v
                    & tF & HL & HR & HF & [= <-] & ->)]].
  - destruct (finish_status _ _ _ _ _ _ _ _ _ _ _ _ _ _ _ _ _ _ HF Hd)
      as (-> & FF & FR & FA & _).
    split; [|split].
    + intros Hrf. destruct out as [info l|l msg].
      * exists (applyArgsFor tx entry dryRun cch), info, l.
        split; [right; apply in_or_app; right; apply in_or_app; left;
                apply in_or_app; left; exact EI|].
        simpl. auto.
      * exfalso. simpl in Hrf. rewrite !run_failed_app, EF in Hrf.
        simpl in Hrf. rewrite orb_true_r in Hrf. discriminate Hrf.
    + intros a l msg [[=]|Hi]. apply in_app_or in Hi as [Hi|Hi];
        [destruct (Hcalm _ PA _ _ Hi)|].
      apply in_app_or in Hi as [Hi|Hi]; [|destruct (Hcalm _ DA _ _ Hi)].
      apply in_app_or in Hi as [Hi|Hi]; [|destruct (Hcalm _ FA _ _ Hi)].
      apply EO in Hi as <-. reflexivity.
    + intros a msg [[=]|Hi]. exfalso.
      apply in_app_or in Hi as [Hi|Hi]; [destruct (HcalmR _ PR _ _ Hi)|].
      apply in_app_or in Hi as [Hi|Hi]; [|destruct (HcalmR _ DR _ _ Hi)].
      apply in_app_or in Hi as [Hi|Hi]; [destruct (HcalmR _ ER _ _ Hi)|].
      destruct (HcalmR _ FR _ _ Hi).
  - apply lookupApps_spec in HL as (LA & LR & _).
    destruct (reloadedApps_none _ LR) as [LRa LPa].
    destruct Hre as [(_ & _ & [=] & _)|(-> & orc' & tN & HN & ->)].
    apply IH in HN as (N1 & N2 & N3).
    assert (Hok : exists info l, out = ApplyOk info l).
    { destruct Hopt as (info & l & -> & _). eauto. }
    destruct Hok as (info0 & l0 & ->).
    split; [|split].
    + intros Hrf. simpl in Hrf. rewrite !run_failed_app in Hrf.
      apply orb_false_iff in Hrf as [_ Hrf].
      apply orb_false_iff in Hrf as [Hrf _].
      apply orb_false_iff in Hrf as [_ Hrf].
      apply orb_false_iff in Hrf as [_ Hrf].
      destruct (N1 Hrf) as (a & info & l & Hi & Hres).
      exists a, info, l. split; [|exact Hres].
      right. apply in_or_app. right. apply in_or_app. left.
      apply in_or_app. right. apply in_or_app. right. exact Hi.
    + intros a l msg [[=]|Hi]. apply in_app_or in Hi as [Hi|Hi];
        [destruct (Hcalm _ PA _ _ Hi)|].
      apply in_app_or in Hi as [Hi|Hi]; [|destruct (Hcalm _ DA _ _ Hi)].
      apply in_app_or in Hi as [Hi|Hi]; [apply EO in Hi; discriminate Hi|].
      apply in_app_or in Hi as [Hi|Hi]; [destruct (Hcalm _ LA _ _ Hi)|].
      eapply N2; exact Hi.
    + intros a msg [[=]|Hi].
      apply in_app_or in Hi as [Hi|Hi]; [destruct (HcalmR _ PR _ _ Hi)|].
      apply in_app_or in Hi as [Hi|Hi]; [|destruct (HcalmR _ DR _ _ Hi)].
      apply in_app_or in Hi as [Hi|Hi]; [destruct (HcalmR _ ER _ _ Hi)|].
      apply in_app_or in Hi as [Hi|Hi]; [destruct (HcalmR _ LR _ _ Hi)|].
      destruct (N3 _ _ Hi) as [-> ->]. simpl.
      rewrite !reloadedApps_app, !promotedApps_app.
      rewrite PRa, PPa, DRa, DPa, ERa, EPa, LRa, LPa. simpl.
      rewrite !app_nil_r. auto.
  - pose proof (lookupApps_complete _ _ _ _ _ _ _ HL) as Hcomplete.
    apply lookupApps_spec in HL as (LA & LR & _).
    destruct (reloadedApps_none _ LR) as [LRa LPa].
    pose proof (reloadApps_acc _ _ _ _ _ _ _ _ _ _ _ _ HR) as [Racc Pacc].
    pose proof (reloadApps_spec tx entry m _
                  (fun a Ha => Hcomplete a (or_introl Ha))
                  _ _ _ _ _ _ HR)
      as (RA & _ & _ & _ & reloadErr' & acc' & Hz & Hrf).
    simpl in Hz. injection Hz as <- <-.
    destruct (finish_status _ _ _ _ _ _ _ _ _ _ _ _ _ _ _ _ _ _ HF Hd)
      as (-> & FF & FR & FA & _).
    destruct (reloadedApps_none _ FR) as [FRa FPa].
    assert (Hok : exists info l, out = ApplyOk info l).
    { destruct Hopt as (info & l & -> & _). eauto. }
    destruct Hok as (info0 & l0 & ->). simpl in *.
    split; [|split].
    + intros Hfail. destruct reloadErr as [e|].
      * exfalso. destruct Hrf as [Hrf _]. rewrite !run_failed_app in Hfail.
        rewrite Hrf in Hfail. rewrite !orb_true_r in Hfail.
        simpl in Hfail. rewrite ?orb_true_r in Hfail. discriminate Hfail.
      * exists (applyArgsFor tx entry dryRun cch), info0, l0.
        split; [right; apply in_or_app; right; apply in_or_app; left;
                apply in_or_app; left; exact EI|].
        destruct (FilteredApps info0) eqn:Hfa; simpl; rewrite ?Hfa; auto 10.
    + intros a l msg [[=]|Hi]. exfalso.
      apply in_app_or in Hi as [Hi|Hi]; [destruct (Hcalm _ PA _ _ Hi)|].
      apply in_app_or in Hi as [Hi|Hi]; [|destruct (Hcalm _ DA _ _ Hi)].
      apply in_app_or in Hi as [Hi|Hi]; [apply EO in Hi; discriminate Hi|].
      apply in_app_or in Hi as [Hi|Hi]; [destruct (Hcalm _ LA _ _ Hi)|].
      apply in_app_or in Hi as [Hi|Hi]; [destruct (Hcalm _ RA _ _ Hi)|].
      destruct (Hcalm _ FA _ _ Hi).
    + intros a msg Hi.
      assert (Hsome : exists e, reloadErr = Some e).
      { destruct reloadErr as [e|]; [eauto|]. exfalso.
        destruct Hi as [[=]|Hi].
        apply in_app_or in Hi as [Hi|Hi]; [destruct (HcalmR _ PR _ _ Hi)|].
        apply in_app_or in Hi as [Hi|Hi]; [|destruct (HcalmR _ DR _ _ Hi)].
        apply in_app_or in Hi as [Hi|Hi]; [destruct (HcalmR _ ER _ _ Hi)|].
        apply in_app_or in Hi as [Hi|Hi]; [destruct (HcalmR _ LR _ _ Hi)|].
        apply in_app_or in Hi as [Hi|Hi]; [|destruct (HcalmR _ FR _ _ Hi)].
        apply Bool.not_true_iff_false in Hrf. apply Hrf.
        apply existsb_exists. exists (EvReloadApp a (Err msg)). auto. }
      destruct Hsome as [e ->]. simpl.
      rewrite !reloadedApps_app, !promotedApps_app.
      rewrite PRa, PPa, DRa, DPa, ERa, EPa, LRa, LPa, FRa, FPa. simpl.
      rewrite !app_nil_r, Racc, Pacc. auto.
Qed.

(** X13. What the response in the status of a run holds. After a failed Apply
    it is the empty response with the dry-run flag and the applications of the
    last run. After a failed Reload its reload and promote results are what
    the Reloads that succeeded before reported. In a run without failure it
    holds the results that Apply returned: what successful Reloads report is
    not recorded; its applications are those of Apply or, when Apply names
    none in the skip optimisation, those of the last run. *)
Theorem status_response_rule (s : Server) (inputTx : Transaction)
    (entry : SyncEntry) (dryRun cch : bool) (repoCache : option RepoCache)
    (w : World) (st : SyncJobStatus) (apps : list AppPathDomain)
    (orc : option RepoCache) (w' : World) (t : list Event) :
  runSyncJob s inputTx entry dryRun cch repoCache w
    = ((Returns (Ok (st, apps)), orc), w', t) ->
  (run_failed t = false ->
   exists a info l,
     In (EvApply a (ApplyOk info l)) t /\
     ReloadResults (ApplyResponse st) = ReloadResults info /\
     PromoteResults (ApplyResponse st) = PromoteResults info /\
     ApproveResults (ApplyResponse st) = ApproveResults info /\
     (FilteredApps (ApplyResponse st) = FilteredApps info \/
      (FilteredApps info = [] /\
       FilteredApps (ApplyResponse st)
       = FilteredApps (ApplyResponse (Status entry))))) /\
  (forall a l m, In (EvApply a (ApplyErr l m)) t ->
     ApplyResponse st
     = failedApplyInfo dryRun (FilteredApps (ApplyResponse (Status entry)))) /\
  (forall a m, In (EvReloadApp a (Err m)) t ->
     ReloadResults (ApplyResponse st) = reloadedApps t /\
     PromoteResults (ApplyResponse st) = promotedApps t).
Proof. unfold runSyncJob. apply runSyncJobN_response. Qed.

Lemma topRuns_app t1 t2 : topRuns (t1 ++ t2) = topRuns t1 ++ topRuns t2.
Proof.
  induction t1 as [|ev t1 IH]; [reflexivity|].
  destruct ev; simpl; auto. destruct checkCommitHash; simpl; congruence.
Qed.

Lemma topRuns_none t : existsb is_run t = false -> topRuns t = [].
Proof.
  induction t as [|ev t IH]; [reflexivity|]. simpl.
  intros [He Ht]%orb_false_iff. destruct ev; try discriminate He; auto.
Qed.

(** The entries into [runSyncJob] with [checkCommitHash] set that a call
    makes: itself, when it has the flag. *)
Lemma runSyncJobN_topRuns fuel :
  forall s inputTx entry dryRun (cch : bool) repoCache w o orc w' t,
    runSyncJobN fuel s inputTx entry dryRun cch repoCache w
      = ((o, orc), w', t) ->
    topRuns t = match fuel with
                | O => []
                | S _ => if cch then [Id entry] else []
                end.
Proof.
  induction fuel as [|fuel IH];
    intros s inputTx entry dryRun cch repoCache w o orc w' t H.
  { injection H as <- <- <- <-. reflexivity. }
  apply runSyncJobN_steps in H as (r1 & w1 & t1 & Htx & H).
  assert (Hk1 : onlyKinds [KBegin] t1 = true).
  { apply acquireTx_exact in Htx as [Hs Hn].
    destruct (Tx inputTx) as [h|].
    - destruct Hs as (_ & _ & ->); [discriminate|reflexivity].
    - destruct (Hn eq_refl) as (rb & -> & _). reflexivity. }
  assert (N1 : existsb is_run t1 = false) by (by_kinds Hk1).
  apply topRuns_none in N1.
  assert (Hhead : forall tl, topRuns tl = [] ->
            topRuns (EvRunSyncJob (Id entry) cch :: tl)
            = if cch then [Id entry] else []).
  { intros tl Htl. simpl. rewrite Htl. destruct cch; reflexivity. }
  destruct r1 as [[tx ds]|e].
  2:{ destruct H as (-> & -> & ->). apply Hhead. exact N1. }
  destruct H as (r2 & w2 & t2 & Hca & H).
  assert (Hk2 : onlyKinds [KDir] t2 = true).
  { apply acquireCache_exact in Hca. destruct repoCache as [rc|].
    - destruct Hca as (_ & _ & ->). reflexivity.
    - destruct Hca as (res & -> & _). reflexivity. }
  assert (N2 : existsb is_run t2 = false) by (by_kinds Hk2).
  apply topRuns_none in N2.
  destruct r2 as [[rc0 ds0]|e].
  2:{ destruct H as (rcf & tD & Hd & -> & -> & ->).
      apply runDeferred_more in Hd as (DK & _).
      assert (N4 : existsb is_run tD = false) by (by_kinds DK).
      apply topRuns_none in N4. apply Hhead.
      rewrite topRuns_app, N1. simpl. rewrite topRuns_app, N2, N4.
      reflexivity. }
  destruct H as (rc1 & ds1 & w3 & tB & rcf & tD & Hb & Hd & -> & ->).
  apply runSyncJobBody_facts in Hb
    as (out & tOwn & OK & _ & _ & _ & _ & _ & _ & _ & _ & Hb).
  assert (N3 : existsb is_run tOwn = false) by (by_kinds OK).
  apply topRuns_none in N3.
  apply runDeferred_more in Hd as (DK & _).
  assert (N4 : existsb is_run tD = false) by (by_kinds DK).
  apply topRuns_none in N4.
  assert (Hmid : exists tMid, tB = tOwn ++ tMid /\ topRuns tMid = []).
  { destruct Hb as [(_ & _ & _ & _ & rc2 & w4 & orc' & tN & HN & ->)
                   |[(_ & _ & _ & -> & _)
                    |(status & applyInfo & apps & w4 & v & tF & HF & _ & ->)]].
    - exists tN. split; [reflexivity|]. apply IH in HN. rewrite HN.
      destruct fuel; reflexivity.
    - exists []. rewrite app_nil_r. auto.
    - exists tF. split; [reflexivity|].
      apply finishRun_more in HF as (FK & _).
      apply topRuns_none. by_kinds FK. }
  destruct Hmid as (tMid & -> & N5).
  apply Hhead. rewrite topRuns_app, N1. simpl.
  rewrite !topRuns_app, N2, N3, N5, N4. reflexivity.
Qed.

Lemma finishRun_errors inputTx entry dryRun tx status applyInfo apps ds w :
  forall v ds' w' t,
    finishRun inputTx entry dryRun tx status applyInfo apps ds w
      = ((v, ds'), w', t) ->
    (forall e, In (EvBeginTransaction (Err e)) t -> v = Err e) /\
    (forall tx' id st e, In (EvUpdateSyncStatus tx' id st (Some e)) t ->
       v = Err e /\ existsb is_complete t = false) /\
    (forall tx' apps' d tag e,
       In (EvCompleteTransaction tx' apps' d tag (Some e)) t -> v = Err e).
Proof.
  intros v ds' w' t. unfold finishRun.
  unfold Rollback, BeginTransaction, UpdateSyncStatus, CompleteTransaction.
  unmonad.
  repeat destr; intros [= <- <- <- <-]; simpl; repeat split;
    intros; repeat match goal with
      | H : _ \/ _ |- _ => destruct H
      | H : False |- _ => destruct H
      end; simplify_eq; try reflexivity; try congruence.
Qed.

(** Which failures a run returns as its error. *)
Lemma runSyncJobN_errors fuel :
  forall s inputTx entry dryRun (cch : bool) repoCache w o orc w' t,
    runSyncJobN fuel s inputTx entry dryRun cch repoCache w
      = ((o, orc), w', t) ->
    (forall e, In (EvBeginTransaction (Err e)) t -> o = Returns (Err e)) /\
    (forall p q e, In (EvMkdirTemp p q (Err e)) t ->
       o = Returns (Err e) /\ existsb is_apply t = false) /\
    (forall tx' id st e, In (EvUpdateSyncStatus tx' id st (Some e)) t ->
       o = Returns (Err e) /\ existsb is_complete t = false) /\
    (forall tx' apps' d tag e,
       In (EvCompleteTransaction tx' apps' d tag (Some e)) t ->
       o = Returns (Err e)).
Proof.
  induction fuel as [|fuel IH];
    intros s inputTx entry dryRun cch repoCache w o orc w' t H.
  { injection H as <- <- <- <-. repeat split; intros; contradiction. }
  apply runSyncJobN_steps in H as (r1 & w1 & t1 & Htx & H).
  destruct r1 as [[tx ds]|e].
  2:{ destruct H as (-> & -> & ->).
      apply acquireTx_exact in Htx as [Hs Hn].
      destruct (Tx inputTx) as [h|].
      - destruct Hs as ([=] & _). discriminate.
      - destruct (Hn eq_refl) as ([tx0|e0] & -> & [= ->]).
        split; [intros e1 [[=]|[[= ->]|[]]]; reflexivity|].
        split; [intros p q e1 [[=]|[[=]|[]]]|].
        split; [intros tx' id st e1 [[=]|[[=]|[]]]|].
        intros tx' apps' d tag e1 [[=]|[[=]|[]]]. }
  assert (Hk1 : forall ev, In ev t1 -> exists tx0,
            ev = EvBeginTransaction (Ok tx0)).
  { apply acquireTx_more in Htx as (_ & _ & Hs & Hn).
    destruct (Tx inputTx) as [h|].
    - destruct Hs as (_ & _ & ->); [discriminate|]. intros ev [].
    - destruct (Hn eq_refl) as (_ & ->). intros ev [<-|[]]. eauto. }
  destruct H as (r2 & w2 & t2 & Hca & H).
  destruct r2 as [[rc0 ds0]|e].
  2:{ destruct H as (rcf & tD & Hd & -> & -> & ->).
      apply acquireCache_exact in Hca.
      destruct repoCache as [rc|]; [destruct Hca as ([=] & _)|].
      destruct Hca as ([d|e'] & -> & Hca); [destruct Hca as (? & [=])|].
      injection Hca as <-.
      apply runDeferred_more in Hd as (DK & _).
      assert (Hin : forall ev,
                In ev (EvRunSyncJob (Id entry) cch :: t1 ++
                       EvLog LvlDebug None ("Running sync job " +:+ Id entry)
                       :: [EvMkdirTemp "" "openrun_git_" (Err e)] ++ tD) ->
                kind ev = KRun \/ (exists tx0, ev = EvBeginTransaction (Ok tx0))
                \/ kind ev = KLog \/ ev = EvMkdirTemp "" "openrun_git_" (Err e)
                \/ In ev tD).
      { intros ev [<-|[Hi|[<-|[<-|Hi]]]%in_app_or]; auto. }
      assert (D : forall ev, In ev tD ->
                kind ev = KRollback \/ kind ev = KRemove).
      { intros ev Hi. pose proof (onlyKinds_In _ _ _ DK Hi) as Hb.
        apply bool_decide_eq_true_1 in Hb.
        repeat (apply elem_of_cons in Hb as [->|Hb]; [auto|]).
        apply elem_of_nil in Hb. destruct Hb. }
      assert (A1 : existsb is_apply t1 = false).
      { apply Bool.not_true_iff_false. intros Hx.
        apply existsb_exists in Hx as (ev & Hi & Hev).
        destruct (Hk1 _ Hi) as (tx0 & ->). discriminate Hev. }
      assert (A4 : existsb is_apply tD = false) by (by_kinds DK).
      split; [|split; [|split]].
      - intros e1 Hi. apply Hin in Hi
          as [Hi|[(tx0 & Hi)|[Hi|[Hi|Hi]]]]; try discriminate Hi.
        apply D in Hi as [Hi|Hi]; discriminate Hi.
      - intros p q e1 Hi. apply Hin in Hi
          as [Hi|[(tx0 & Hi)|[Hi|[Hi|Hi]]]]; try discriminate Hi.
        + injection Hi as -> -> ->. split; [reflexivity|].
          simpl. rewrite !existsb_app. simpl. rewrite A1, A4. reflexivity.
        + apply D in Hi as [Hi|Hi]; discriminate Hi.
      - intros tx' id st e1 Hi. apply Hin in Hi
          as [Hi|[(tx0 & Hi)|[Hi|[Hi|Hi]]]]; try discriminate Hi.
        apply D in Hi as [Hi|Hi]; discriminate Hi.
      - intros tx' apps' d tag e1 Hi. apply Hin in Hi
          as [Hi|[(tx0 & Hi)|[Hi|[Hi|Hi]]]]; try discriminate Hi.
        apply D in Hi as [Hi|Hi]; discriminate Hi. }
  destruct H as (rc1 & ds1 & w3 & tB & rcf & tD & Hb & Hd & -> & ->).
  assert (Hk2 : forall ev, In ev t2 -> exists p q d,
            ev = EvMkdirTemp p q (Ok d)).
  { apply acquireCache_more in Hca. destruct repoCache as [rc|].
    - destruct Hca as (_ & ->). intros ev [].
    - destruct Hca as (_ & d & ->). intros ev [<-|[]]. eauto. }
  apply runSyncJobBody_facts in Hb
    as (out & tOwn & OK & _ & _ & _ & _ & _ & _ & _ & _ & Hb).
  apply runDeferred_more in Hd as (DK & _).
  assert (C1 : existsb is_complete t1 = false).
  { apply Bool.not_true_iff_false. intros Hx.
    apply existsb_exists in Hx as (ev & Hi & Hev).
    destruct (Hk1 _ Hi) as (tx0 & ->). discriminate Hev. }
  assert (C2 : existsb is_complete t2 = false).
  { apply Bool.not_true_iff_false. intros Hx.
    apply existsb_exists in Hx as (ev & Hi & Hev).
    destruct (Hk2 _ Hi) as (p & q & d & ->). discriminate Hev. }
  assert (C3 : existsb is_complete tOwn = false) by (by_kinds OK).
  assert (C4 : existsb is_complete tD = false) by (by_kinds DK).
  assert (Hmid : exists tMid,
    tB = tOwn ++ tMid /\
    (forall e, In (EvBeginTransaction (Err e)) tMid -> o = Returns (Err e)) /\
    (forall p q e, ~ In (EvMkdirTemp p q (Err e)) tMid) /\
    (forall tx' id st e, In (EvUpdateSyncStatus tx' id st (Some e)) tMid ->
       o = Returns (Err e) /\ existsb is_complete tMid = false) /\
    (forall tx' apps' d tag e,
       In (EvCompleteTransaction tx' apps' d tag (Some e)) tMid ->
       o = Returns (Err e))).
  { destruct Hb as [(_ & _ & _ & _ & rc2 & w4 & orc' & tN & HN & ->)
                   |[(_ & _ & _ & -> & _)
                    |(status & applyInfo & apps & w4 & v & tF & HF & -> & ->)]].
    - exists tN. split; [reflexivity|].
      pose proof (runSyncJobN_cache _ _ _ _ _ _ _ _ _ _ _ _ HN)
        as (_ & Hm & _).
      apply IH in HN as (N1 & _ & N3 & N4).
      split; [exact N1|]. split; [|split; assumption].
      intros p q e. eapply (not_In_kind is_mkdir); [exact Hm|reflexivity].
    - exists []. rewrite app_nil_r.
      repeat split; unfold not; intros;
        match goal with H : In _ [] |- _ => destruct H end.
    - exists tF. split; [reflexivity|].
      pose proof (finishRun_more _ _ _ _ _ _ _ _ _ _ _ _ _ HF) as (FK & _).
      apply finishRun_errors in HF as (F1 & F3 & F4).
      split; [intros e Hi; rewrite (F1 _ Hi); reflexivity|].
      split.
      { intros p q e. eapply (not_In_kind is_mkdir); [|reflexivity].
        by_kinds FK. }
      split.
      { intros tx' id st e Hi. destruct (F3 _ _ _ _ Hi) as [-> Hc]. auto. }
      intros tx' apps' d tag e Hi. rewrite (F4 _ _ _ _ _ Hi). reflexivity. }
  destruct Hmid as (tMid & -> & M1 & M2 & M3 & M4).
  assert (Hin : forall ev,
            In ev (EvRunSyncJob (Id entry) cch :: t1 ++
                   EvLog LvlDebug None ("Running sync job " +:+ Id entry)
                   :: t2 ++ (tOwn ++ tMid) ++ tD) ->
            In ev tMid \/
            kind ev = KRun \/ (exists tx0, ev = EvBeginTransaction (Ok tx0))
            \/ kind ev = KLog \/ (exists p q d, ev = EvMkdirTemp p q (Ok d))
            \/ kind ev = KApply \/ kind ev = KLookup \/ kind ev = KReload
            \/ kind ev = KRollback \/ kind ev = KRemove).
  { intros ev Hi. apply In_run_trace in Hi as [->|[Hi|[->|[Hi|[Hi|Hi]]]]].
    - auto.
    - right. right. left. apply Hk1. exact Hi.
    - auto.
    - right. right. right. right. left. apply Hk2. exact Hi.
    - apply in_app_or in Hi as [Hi|Hi]; [|auto].
      pose proof (onlyKinds_In _ _ _ OK Hi) as Hb'.
      apply bool_decide_eq_true_1 in Hb'.
      repeat (apply elem_of_cons in Hb' as [->|Hb']; [auto 10|]).
      apply elem_of_nil in Hb'. destruct Hb'.
    - pose proof (onlyKinds_In _ _ _ DK Hi) as Hb'.
      apply bool_decide_eq_true_1 in Hb'.
      repeat (apply elem_of_cons in Hb' as [->|Hb']; [auto 10|]).
      apply elem_of_nil in Hb'. destruct Hb'. }
  split; [|split; [|split]].
  - intros e Hi. apply Hin in Hi
      as [Hi|[Hi|[(tx0 & Hi)|[Hi|[(p & q & d & Hi)|[Hi|[Hi|[Hi|[Hi|Hi]]]]]]]]];
      try discriminate Hi. apply M1. exact Hi.
  - intros p q e Hi. apply Hin in Hi
      as [Hi|[Hi|[(tx0 & Hi)|[Hi|[(p' & q' & d & Hi)|[Hi|[Hi|[Hi|[Hi|Hi]]]]]]]]];
      try discriminate Hi. destruct (M2 _ _ _ Hi).
  - intros tx' id st e Hi. apply Hin in Hi
      as [Hi|[Hi|[(tx0 & Hi)|[Hi|[(p & q & d & Hi)|[Hi|[Hi|[Hi|[Hi|Hi]]]]]]]]];
      try discriminate Hi. destruct (M3 _ _ _ _ Hi) as [-> Hc].
    split; [reflexivity|]. simpl. rewrite !existsb_app. simpl.
    rewrite !existsb_app, C1, C2, C3, Hc, C4. reflexivity.
  - intros tx' apps' d tag e Hi. apply Hin in Hi
      as [Hi|[Hi|[(tx0 & Hi)|[Hi|[(p & q & d' & Hi)|[Hi|[Hi|[Hi|[Hi|Hi]]]]]]]]];
      try discriminate Hi. eapply M4. exact Hi.
Qed.

(** X22. Which failures a run returns as its error. When a call that
    [runSyncJob] makes itself to begin a transaction, to make the root of the
    cache, to write the status or to complete the transaction fails, the run
    returns the error of that call. A run whose cache root could not be made
    has called Apply not at all, and a run whose status could not be written
    has completed no transaction. (A failed Apply or Reload is not returned as
    an error but in the status, and a failed lookup of an application starts
    the second run.) *)
Theorem runSyncJob_returned_errors (s : Server) (inputTx : Transaction)
    (entry : SyncEntry) (dryRun cch : bool) (repoCache : option RepoCache)
    (w : World) (o : outcome RunValue) (orc : option RepoCache) (w' : World)
    (t : list Event) :
  runSyncJob s inputTx entry dryRun cch repoCache w = ((o, orc), w', t) ->
  (forall e, In (EvBeginTransaction (Err e)) t -> o = Returns (Err e)) /\
  (forall p q e, In (EvMkdirTemp p q (Err e)) t ->
     o = Returns (Err e) /\ existsb is_apply t = false) /\
  (forall tx' id st e, In (EvUpdateSyncStatus tx' id st (Some e)) t ->
     o = Returns (Err e) /\ existsb is_complete t = false) /\
  (forall tx' apps' d tag e,
     In (EvCompleteTransaction tx' apps' d tag (Some e)) t ->
     o = Returns (Err e)).
Proof. unfold runSyncJob. apply runSyncJobN_errors. Qed.

End RunMore.

(** * Further properties of the scheduler and of the entry points *)

Section ApiMore.
Context {data : Data} {collab : Collaborators}.

Ltac unmonad :=
  unfold log in *; unfold bind, ret, emit, call, ask in *.

Ltac destr :=
  match goal with
  | |- context [match ?x with _ => _ end] =>
      lazymatch x with
      | context [match _ with _ => _ end] => fail
      | _ => destruct x eqn:?
      end
  end.

Ltac counts :=
  repeat match goal with
    | H : existsb ?p ?t = false |- _ =>
        lazymatch goal with
        | _ : count p t = 0%nat |- _ => fail
        | _ => pose proof (count_none p t H)
        end
    end;
  cbn [app];
  repeat first [rewrite count_cons | rewrite count_app | rewrite count_nil];
  simpl.

Ltac by_kinds H :=
  (eapply onlyKinds_none; [|exact H]);
  let ev := fresh "ev" in
  let Hev := fresh "Hev" in
  intros ev Hev; destruct ev; try reflexivity;
  vm_compute in Hev; discriminate Hev.

Lemma BeginTransaction_spec w :
  forall r w' t, BeginTransaction w = (r, w', t) ->
    t = [EvBeginTransaction r] /\ forall tx, r = Ok tx -> Tx tx <> None.
Proof.
  unfold BeginTransaction. unmonad. intros r w' t.
  destruct (db_BeginTransaction w) as [[h|e] w1]; intros [= <- <- <-];
    (split; [reflexivity|]); intros tx [= <-]. discriminate.
Qed.

Lemma committed_complete t :
  existsb is_complete t = false -> existsb is_committed t = false.
Proof.
  induction t as [|ev t IH]; [reflexivity|]. simpl.
  intros [He Ht]%orb_false_iff. rewrite (IH Ht).
  destruct ev; try reflexivity; discriminate.
Qed.

Lemma length_activations_app t1 t2 :
  length (activations (t1 ++ t2))
  = (length (activations t1) + length (activations t2))%nat.
Proof. rewrite activations_app, length_app. reflexivity. Qed.

(** The loop of a tick over the entries. *)
Lemma runEntries_more s entries :
  forall rc w x w' t, runEntries s entries rc w = (x, w', t) ->
    existsb is_mkdir t = false /\ existsb is_remove t = false /\
    (length (activations t) <= 2 * length entries)%nat /\
    (count is_apply t <= 2 * length entries)%nat /\
    (count is_update t <= length entries)%nat /\
    (count is_complete t <= length entries)%nat.
Proof.
  induction entries as [|entry rest IH]; intros rc w x w' t H; simpl in H.
  { injection H as <- <- <-. unfold count. simpl. repeat split; lia. }
  assert (Hlen : length (entry :: rest) = S (length rest)) by reflexivity.
  destruct (notScheduled entry).
  { apply IH in H as (? & ? & ? & ? & ? & ?). rewrite Hlen.
    repeat split; auto; lia. }
  apply bind_inv in H as (now & w1 & t1 & t2 & Hask & H & ->).
  unfold ask in Hask. injection Hask as <- <- <-.
  destruct (notReady entry (time_Now w)).
  { apply bind_inv in H as (u & w2 & t3 & t4 & Hlog & H & ->).
    unfold log, emit in Hlog. injection Hlog as <- <- <-.
    apply IH in H as (? & ? & ? & ? & ? & ?). rewrite Hlen. simpl.
    counts. repeat split; auto; lia. }
  destruct (failedTooOften s entry).
  { apply bind_inv in H as (u & w2 & t3 & t4 & Hlog & H & ->).
    unfold log, emit in Hlog. injection Hlog as <- <- <-.
    apply IH in H as (? & ? & ? & ? & ? & ?). rewrite Hlen. simpl.
    counts. repeat split; auto; lia. }
  apply bind_inv in H as ([o orc] & w2' & t3 & t4 & Hrun & H & ->).
  unfold runSyncJob in Hrun.
  pose proof (runSyncJobN_cache _ _ _ _ _ _ _ _ _ _ _ _ Hrun)
    as (_ & Hm & Hr).
  pose proof (runSyncJobN_bounds _ _ _ _ _ _ _ _ _ _ _ _ Hrun)
    as (Ha & _ & _ & Hu & Hc & _).
  assert (Hact : (length (activations t3) <= 2)%nat).
  { apply runSyncJobN_shape in Hrun as (_ & [(-> & _)|(_ & -> & _)]);
      simpl; lia. }
  assert (Hrest : forall y w3 t5,
            (exists rc', runEntries s rest rc' w2' = (y, w3, t5)) \/
            t5 = [] ->
            existsb is_mkdir t5 = false /\ existsb is_remove t5 = false /\
            (length (activations t5) <= 2 * length rest)%nat /\
            (count is_apply t5 <= 2 * length rest)%nat /\
            (count is_update t5 <= length rest)%nat /\
            (count is_complete t5 <= length rest)%nat).
  { intros y w3 t5 [(rc' & Hy)| ->]; [eapply IH; exact Hy|].
    unfold count. simpl. repeat split; lia. }
  assert (Htail : exists tl t5 y w3,
            t4 = tl ++ t5 /\ onlyKinds [KLog] tl = true /\
            ((exists rc', runEntries s rest rc' w2' = (y, w3, t5)) \/
             t5 = [])).
  { simpl in H. destruct o as [[v|e]| |].
    - exists [], t4, x, w'. split; [reflexivity|]. split; [reflexivity|].
      left. eexists. exact H.
    - apply bind_inv in H as (u & w4 & t5 & t6 & Hlog & H & ->).
      unfold log, emit in Hlog. injection Hlog as <- <- <-.
      eexists _, t6, x, w'. split; [reflexivity|]. split; [reflexivity|].
      left. eexists. exact H.
    - injection H as <- <- <-. exists [], [], (Panics, rc), w2'. auto.
    - injection H as <- <- <-. exists [], [], (Unfinished, rc), w2'. auto. }
  destruct Htail as (tl & t5 & y & w3 & -> & Hk & Hy).
  destruct (Hrest _ _ _ Hy) as (Rm & Rr & Ract & Ra & Ru & Rc).
  assert (Lm : existsb is_mkdir tl = false) by (by_kinds Hk).
  assert (Lr : existsb is_remove tl = false) by (by_kinds Hk).
  assert (La : existsb is_apply tl = false) by (by_kinds Hk).
  assert (Lu : existsb is_update tl = false) by (by_kinds Hk).
  assert (Lc : existsb is_complete tl = false) by (by_kinds Hk).
  assert (Lrun : existsb is_run tl = false) by (by_kinds Hk).
  assert (Lact : activations tl = []).
  { clear -Lrun. induction tl as [|ev tl IHt]; [reflexivity|].
    simpl in Lrun. apply orb_false_iff in Lrun as [He Ht].
    destruct ev; try discriminate He; simpl; auto. }
  rewrite Hlen. simpl.
  rewrite !existsb_app, !length_activations_app, Hm, Hr, Lm, Lr, Rm, Rr, Lact.
  counts. simpl in *. repeat split; auto; lia.
Qed.

Lemma NewRepoCache_spec s w :
  forall c w' t, NewRepoCache s w = (c, w', t) ->
    exists res, t = [EvMkdirTemp "" "openrun_git_" res].
Proof.
  unfold NewRepoCache, MkdirTemp. unmonad. intros c w' t.
  destruct (os_MkdirTemp w _ _) as [[d|e] w1]; intros [= <- <- <-]; eauto.
Qed.

Lemma GetSyncEntries_spec tx w :
  forall l w' t, GetSyncEntries tx w = (l, w', t) ->
    t = [EvGetSyncEntries tx] /\ db_GetSyncEntries w tx = (l, w').
Proof.
  unfold GetSyncEntries. unmonad. intros l w' t.
  destruct (db_GetSyncEntries w tx) as [l1 w1]. intros [= <- <- <-]. auto.
Qed.

Lemma rollback_last tx ds rc w :
  forall x w' t, runDeferred (ds ++ [DeferRollback tx]) rc w = (x, w', t) ->
    exists t0, t = t0 ++ [EvRollback tx].
Proof.
  revert rc w. induction ds as [|d ds IH]; intros rc w x w' t; simpl.
  - unfold Rollback. unmonad. intros [= <- <- <-]. exists []. reflexivity.
  - destruct d as [tx0|].
    + unfold Rollback. unmonad.
      destruct (runDeferred _ rc _) as [[y w1] t1] eqn:Hd.
      intros [= <- <- <-]. apply IH in Hd as (t0 & ->).
      exists (EvRollback tx0 :: t0). reflexivity.
    + destruct rc as [r|]; [|apply IH].
      unfold bind. destruct (Cleanup r w) as [[r1 w1] t1].
      destruct (runDeferred _ _ w1) as [[y w2] t2] eqn:Hd.
      intros [= <- <- <-]. apply IH in Hd as (t0 & ->).
      exists (t1 ++ t0). rewrite app_assoc. reflexivity.
Qed.

(** X14. What one tick of the scheduler costs. The events are those of
    [runSyncJobs] and [runSyncJob] themselves, not those inside Apply and
    Reload. A tick makes at most one directory, the root of the cache that all
    the entries share, and removes at most what it made. For each entry of the
    list it enters [runSyncJob] at most twice, calls Apply at most twice,
    writes at most one status and completes at most one transaction. The
    transaction in which the list was read is rolled back at the very end. *)
Theorem scheduler_tick_bounds (s : Server) (w : World) (o : outcome error)
    (w' : World) (t : list Event) :
  runSyncJobs s w = (o, w', t) ->
  (count is_mkdir t <= 1)%nat /\
  (count is_remove t <= count is_mkdir t)%nat /\
  forall tx w1 t1 rc w2 t2 entries w3,
    BeginTransaction w = (Ok tx, w1, t1) ->
    NewRepoCache s w1 = (Ok rc, w2, t2) ->
    db_GetSyncEntries w2 tx = (Ok entries, w3) ->
    (length (activations t) <= 2 * length entries)%nat /\
    (count is_apply t <= 2 * length entries)%nat /\
    (count is_update t <= length entries)%nat /\
    (count is_complete t <= length entries)%nat /\
    exists t0, t = t0 ++ [EvRollback tx].
Proof.
  intros H. unfold runSyncJobs in H.
  apply bind_inv in H as (r & w1 & t1 & t2 & Hb & H & ->).
  pose proof (BeginTransaction_spec _ _ _ _ Hb) as [-> _].
  destruct r as [tx|e].
  2:{ injection H as <- <- <-. unfold count. simpl.
      split; [lia|]. split; [lia|]. intros ? ? ? ? ? ? ? ? Hb'.
      rewrite Hb in Hb'. discriminate Hb'. }
  apply bind_inv in H as (c & w2 & t3 & t4 & Hc & H & ->).
  pose proof (NewRepoCache_spec _ _ _ _ _ Hc) as (res & ->).
  destruct c as [rc|e].
  2:{ apply bind_inv in H as (u & w3 & t5 & t6 & Hd & H & ->).
      injection H as <- <- <-.
      apply runDeferred_more in Hd as (DK & DC & _). simpl in DC.
      assert (Dm : existsb is_mkdir t5 = false) by (by_kinds DK).
      split; [counts; lia|]. split; [counts; lia|].
      intros ? ? ? ? ? ? ? ? Hb' Hc'. rewrite Hb in Hb'.
      injection Hb' as <- <- <-. rewrite Hc in Hc'. discriminate Hc'. }
  apply bind_inv in H as (l & w3 & t5 & t6 & Hl & H & ->).
  apply GetSyncEntries_spec in Hl as [-> Hl].
  destruct l as [entries|e].
  2:{ apply bind_inv in H as (u & w4 & t7 & t8 & Hd & H & ->).
      injection H as <- <- <-.
      apply runDeferred_more in Hd as (DK & DC & _). simpl in DC.
      assert (Dm : existsb is_mkdir t7 = false) by (by_kinds DK).
      split; [counts; lia|]. split; [counts; lia|].
      intros ? ? ? ? ? ? ? ? Hb' Hc' Hl'. rewrite Hb in Hb'.
      injection Hb' as <- <- <-. rewrite Hc in Hc'.
      injection Hc' as <- <- <-. rewrite Hl in Hl'. discriminate Hl'. }
  apply bind_inv in H as ([y rc'] & w4 & t7 & t8 & Hrun & H & ->).
  apply bind_inv in H as (u & w5 & t9 & t10 & Hd & H & ->).
  assert (Ht10 : t10 = []).
  { simpl in H. destruct y; injection H as <- <- <-; reflexivity. }
  subst t10. clear H.
  pose proof (rollback_last tx [DeferCleanup] (Some rc') w4 _ _ _ Hd)
    as (t0 & Ht0).
  apply runDeferred_more in Hd as (DK & DC & _). simpl in DC.
  apply runEntries_more in Hrun as (Rm & Rr & Ract & Ra & Ru & Rc).
  assert (Dm : existsb is_mkdir t9 = false) by (by_kinds DK).
  assert (Da : existsb is_apply t9 = false) by (by_kinds DK).
  assert (Du : existsb is_update t9 = false) by (by_kinds DK).
  assert (Dc : existsb is_complete t9 = false) by (by_kinds DK).
  assert (Drun : existsb is_run t9 = false) by (by_kinds DK).
  assert (Dact : activations t9 = []).
  { clear -Drun. induction t9 as [|ev tl IHt]; [reflexivity|].
    simpl in Drun. apply orb_false_iff in Drun as [He Ht].
    destruct ev; try discriminate He; simpl; auto. }
  split; [counts; lia|]. split; [counts; lia|].
  intros tx' w1' t1' rc0 w2' t2' entries' w3' Hb' Hc' Hl'.
  rewrite Hb in Hb'. injection Hb' as <- <- <-.
  rewrite Hc in Hc'. injection Hc' as <- <- <-.
  rewrite Hl in Hl'. injection Hl' as <- <-.
  rewrite app_nil_r.
  split; [simpl; rewrite !length_activations_app, Dact; simpl; lia|].
  split; [counts; lia|]. split; [counts; lia|]. split; [counts; lia|].
  rewrite Ht0. eexists. simpl. rewrite !app_comm_cons, !app_assoc.
  reflexivity.
Qed.

Lemma GetSyncEntry_spec tx id w :
  forall g w' t, GetSyncEntry tx id w = (g, w', t) ->
    t = [EvGetSyncEntry tx id] /\ db_GetSyncEntry w tx id = (g, w').
Proof.
  unfold GetSyncEntry. unmonad. intros g w' t.
  destruct (db_GetSyncEntry w tx id) as [g1 w1]. intros [= <- <- <-]. auto.
Qed.

Lemma CompleteTransaction_spec tx apps dryRun tag w :
  forall e w' t, CompleteTransaction tx apps dryRun tag w = (e, w', t) ->
    t = [EvCompleteTransaction tx apps dryRun tag e].
Proof.
  unfold CompleteTransaction. unmonad. intros e w' t.
  destruct (Server_CompleteTransaction w tx apps dryRun tag) as [e1 w1].
  intros [= <- <- <-]. reflexivity.
Qed.

Lemma rollback_only tx w :
  forall x w' t, runDeferred [DeferRollback tx] None w = (x, w', t) ->
    t = [EvRollback tx] /\ w' = Tx_Rollback w tx.
Proof.
  simpl. unfold Rollback. unmonad. intros x w' t [= <- <- <-]. auto.
Qed.

(** X15. A run on demand. [RunSync] always returns. When it returns a status,
    the status has no error text and the whole run was one transaction: it was
    begun first, the entry was read through it, the run neither began nor
    rolled back nor completed a transaction and wrote the status through it,
    and it was completed once, with the tag "sync_run", before the deferred
    rollback. When [RunSync] returns an error no transaction was completed
    without error. An entry that the store does not return gives the store's
    error, without any run. *)
Theorem RunSync_outcome (s : Server) (id : string) (dryRun : bool)
    (w : World) (o : outcome (result SyncJobStatus)) (w' : World)
    (t : list Event) :
  RunSync s id dryRun w = (o, w', t) ->
  (exists v, o = Returns v) /\
  (forall st, o = Returns (Ok st) ->
     Error st = "" /\
     exists tx idE apps t3,
       t = EvBeginTransaction (Ok tx) :: EvGetSyncEntry tx id :: t3 ++
           [EvCompleteTransaction tx apps dryRun "sync_run" None;
            EvRollback tx] /\
       existsb is_tx_boundary t3 = false /\
       existsb is_complete t3 = false /\
       In (EvUpdateSyncStatus tx idE st None) t3) /\
  (forall e, o = Returns (Err e) -> existsb is_committed t = false) /\
  (forall tx w1 t1 e w2,
     BeginTransaction w = (Ok tx, w1, t1) ->
     db_GetSyncEntry w1 tx id = (Err e, w2) ->
     o = Returns (Err e) /\
     t = [EvBeginTransaction (Ok tx); EvGetSyncEntry tx id; EvRollback tx]).
Proof.
  intros H. unfold RunSync in H.
  apply bind_inv in H as (r & w1 & t1 & t2 & Hb & H & ->).
  pose proof (BeginTransaction_spec _ _ _ _ Hb) as [-> Htx].
  destruct r as [tx|e].
  { specialize (Htx tx eq_refl).
    apply bind_inv in H as (g & w2 & t3 & t4 & Hg & H & ->).
    apply GetSyncEntry_spec in Hg as [-> Hg].
    apply bind_inv in H as (r & w3 & t5 & t6 & Hr & H & ->).
    apply bind_inv in H as (u & w4 & t7 & t8 & Hd & H & ->).
    apply rollback_only in Hd as [-> ->]. injection H as <- <- <-.
    destruct g as [entry|e].
    - apply bind_inv in Hr as ([o1 orc] & w5 & t9 & t10 & Hrun & Hr & ->).
      unfold runSyncJob in Hrun.
      pose proof (runSyncJobN_caller_tx _ _ _ _ _ _ _ _ _ _ _ Htx Hrun) as Hc.
      pose proof (runSyncJobN_in_tx _ _ _ _ _ _ _ _ _ _ _ _ Htx Hrun)
        as (_ & _ & _ & Hs).
      apply runSyncJobN_shape in Hrun as ([v ->] & _); [|simpl; lia].
      simpl in Hr.
      assert (Hcm : existsb is_committed t9 = false)
        by (apply committed_complete; exact Hc).
      destruct v as [[st apps]|e].
      + destruct (decide (Error st = "")) as [He|He].
        * destruct (Hs _ _ eq_refl He) as [Hbd Hup].
          apply bind_inv in Hr as (e & w6 & t11 & t12 & Hct & Hr & ->).
          apply CompleteTransaction_spec in Hct as ->.
          destruct e as [e|]; injection Hr as <- <- <-.
          -- split; [eauto|]. split; [discriminate|]. split.
             ++ intros e0 _. simpl. rewrite !existsb_app, Hcm. reflexivity.
             ++ intros tx' w1' t1' e' w2' Hb' Hg'. rewrite Hb in Hb'.
                injection Hb' as <- <- <-. rewrite Hg in Hg'. discriminate Hg'.
          -- split; [eauto|]. split; [|split].
             ++ intros st' [= <-]. split; [exact He|].
                exists tx, (Id entry), apps, t9.
                split; [simpl; rewrite <- ?app_assoc; reflexivity|]. auto.
             ++ discriminate.
             ++ intros tx' w1' t1' e' w2' Hb' Hg'. rewrite Hb in Hb'.
                injection Hb' as <- <- <-. rewrite Hg in Hg'. discriminate Hg'.
        * injection Hr as <- <- <-.
          split; [eauto|]. split; [discriminate|]. split.
          -- intros e0 _. simpl. rewrite !existsb_app, Hcm. reflexivity.
          -- intros tx' w1' t1' e' w2' Hb' Hg'. rewrite Hb in Hb'.
             injection Hb' as <- <- <-. rewrite Hg in Hg'. discriminate Hg'.
      + injection Hr as <- <- <-.
        split; [eauto|]. split; [discriminate|]. split.
        * intros e0 _. simpl. rewrite !existsb_app, Hcm. reflexivity.
        * intros tx' w1' t1' e' w2' Hb' Hg'. rewrite Hb in Hb'.
          injection Hb' as <- <- <-. rewrite Hg in Hg'. discriminate Hg'.
    - injection Hr as <- <- <-.
      split; [eauto|]. split; [discriminate|]. split; [reflexivity|].
      intros tx' w1' t1' e' w2' Hb' Hg'. rewrite Hb in Hb'.
      injection Hb' as <- <- <-. rewrite Hg in Hg'.
      injection Hg' as <- <-. auto. }
  injection H as <- <- <-.
  split; [eauto|]. split; [discriminate|]. split; [reflexivity|].
  intros tx' w1' t1' e' w2' Hb'. rewrite Hb in Hb'. discriminate Hb'.
Qed.

(** The entry that [prepareSyncEntry] builds and writes. *)
Lemma prepareSyncEntry_entry s userId tx path scheduled sync w :
  forall e w' t,
    prepareSyncEntry s userId tx path scheduled sync w = (Ok e, w', t) ->
    t = [EvCreateSync tx e None] /\
    (exists genId, Id e = "cl_syn_" +:+ strings_ToLower genId) /\
    Path e = path /\ IsScheduled e = scheduled /\ UserID e = userId /\
    Status e = SyncJobStatus_zero /\
    Reload (Metadata e) = Reload sync /\
    GitBranch (Metadata e) = GitBranch sync /\
    GitAuth (Metadata e) = GitAuth sync /\
    WebhookUrl (Metadata e) = WebhookUrl sync /\
    (if scheduled
     then WebhookSecret (Metadata e) = WebhookSecret sync /\
          ScheduleFrequency (Metadata e)
          = (if bool_decide (ScheduleFrequency sync <= 0)
             then DefaultScheduleMins s else ScheduleFrequency sync)
     else (exists secret,
             WebhookSecret (Metadata e)
             = "cl_tkn_" +:+ base64_EncodeToString secret) /\
          ScheduleFrequency (Metadata e) = ScheduleFrequency sync).
Proof.
  intros e w' t. unfold prepareSyncEntry, CreateSync. unmonad.
  destruct (ksuid_NewRandom w) as [[genId|e0] w1]; [|discriminate].
  destruct scheduled; simpl.
  - destruct (bool_decide (ScheduleFrequency sync <= 0)); simpl;
      destruct (db_CreateSync w1 tx _) as [[e1|] w2]; try discriminate;
      intros [= <- <- <-]; simpl; repeat split; eauto.
  - destruct (passwd_GeneratePassword w1) as [[secret|e0] w2];
      [|discriminate]. simpl.
    destruct (db_CreateSync w2 tx _) as [[e1|] w3]; try discriminate.
    intros [= <- <- <-]; simpl; repeat split; eauto.
Qed.

(** X16. The answer of a successful [CreateSyncEntry]. The identifier is
    "cl_syn_" followed by the lowered random id, the webhook URL is empty and
    the status is that of the first run, without error text. An entry that is
    not scheduled gets a generated secret behind "cl_tkn_" and keeps the
    frequency it was given; a scheduled entry keeps the secret it was given
    and gets the default frequency of the server when its own is not positive.
    The entry was written with an empty status, the first run completed no
    transaction, and the transaction of the whole call was completed once,
    with the tag "create_sync", before the deferred rollback. *)
Theorem CreateSyncEntry_success (s : Server) (userId path : string)
    (scheduled dryRun : bool) (sync : SyncMetadata) (w : World)
    (resp : SyncCreateResponse) (w' : World) (t : list Event) :
  CreateSyncEntry s userId path scheduled dryRun sync w
    = (Returns (Ok resp), w', t) ->
  crDryRun resp = dryRun /\ crWebhookUrl resp = "" /\
  Error (crSyncJobStatus resp) = "" /\
  (exists genId, crId resp = "cl_syn_" +:+ strings_ToLower genId) /\
  (if scheduled
   then crWebhookSecret resp = WebhookSecret sync /\
        crScheduleFrequency resp
        = (if bool_decide (ScheduleFrequency sync <= 0)
           then DefaultScheduleMins s else ScheduleFrequency sync)
   else (exists secret,
           crWebhookSecret resp
           = "cl_tkn_" +:+ base64_EncodeToString secret) /\
        crScheduleFrequency resp = ScheduleFrequency sync) /\
  exists tx entry apps t3,
    t = EvBeginTransaction (Ok tx) :: EvCreateSync tx entry None :: t3 ++
        [EvCompleteTransaction tx apps dryRun "create_sync" None;
         EvRollback tx] /\
    Id entry = crId resp /\ Path entry = path /\
    IsScheduled entry = scheduled /\ UserID entry = userId /\
    Status entry = SyncJobStatus_zero /\
    existsb is_tx_boundary t3 = false /\ existsb is_complete t3 = false /\
    In (EvUpdateSyncStatus tx (Id entry) (crSyncJobStatus resp) None) t3.
Proof.
  intros H. unfold CreateSyncEntry in H.
  apply bind_inv in H as (r & w1 & t1 & t2 & Hb & H & ->).
  pose proof (BeginTransaction_spec _ _ _ _ Hb) as [-> Htx].
  destruct r as [tx|e]; [|discriminate H].
  specialize (Htx tx eq_refl).
  apply bind_inv in H as (p & w2 & t3 & t4 & Hp & H & ->).
  apply bind_inv in H as (r & w3 & t5 & t6 & Hr & H & ->).
  apply bind_inv in H as (u & w4 & t7 & t8 & Hd & H & ->).
  apply rollback_only in Hd as [-> ->]. injection H as -> <- <-.
  destruct p as [entry|e]; [|discriminate Hr].
  apply prepareSyncEntry_entry in Hp
    as (-> & Hid & Hpath & Hsch & Huser & Hst & _ & _ & _ & _ & Hmeta).
  apply bind_inv in Hr as ([o1 orc] & w5 & t9 & t10 & Hrun & Hr & ->).
  unfold runSyncJob in Hrun.
  pose proof (runSyncJobN_caller_tx _ _ _ _ _ _ _ _ _ _ _ Htx Hrun) as Hc.
  pose proof (runSyncJobN_in_tx _ _ _ _ _ _ _ _ _ _ _ _ Htx Hrun)
    as (_ & _ & _ & Hs).
  simpl in Hr. unfold concludeCreate in Hr.
  destruct o1 as [[[st apps]|e]| |]; try discriminate Hr.
  destruct (decide (Error st = "")) as [He|He]; [|discriminate Hr].
  destruct (Hs _ _ eq_refl He) as [Hbd Hup].
  apply bind_inv in Hr as (e & w6 & t11 & t12 & Hct & Hr & ->).
  apply CompleteTransaction_spec in Hct as ->.
  destruct e as [e|]; [discriminate Hr|]. injection Hr as <- <- <-.
  simpl. split; [reflexivity|]. split; [reflexivity|]. split; [exact He|].
  split; [exact Hid|]. split; [exact Hmeta|].
  exists tx, entry, apps, t9.
  split; [simpl; rewrite <- ?app_assoc; reflexivity|]. auto 10.
Qed.

(** X17. Entries that the scheduler never runs. An entry made by
    [prepareSyncEntry] as not scheduled (a webhook entry), or as scheduled
    with a frequency that is not positive while the default of the server is
    not positive either, is passed over by every tick, whatever status it has
    by then: the tick goes on as if the entry were not in the list. *)
Theorem unscheduled_entry_never_runs (s : Server) (userId : string)
    (tx : Transaction) (path : string) (scheduled : bool)
    (sync : SyncMetadata) (w : World) (e : SyncEntry) (w' : World)
    (t : list Event) :
  prepareSyncEntry s userId tx path scheduled sync w = (Ok e, w', t) ->
  scheduled = false \/
  (ScheduleFrequency sync <= 0 /\ DefaultScheduleMins s <= 0) ->
  forall st rest rc w2,
    runEntries s (set_Status e st :: rest) rc w2 = runEntries s rest rc w2.
Proof.
  intros H Hcase st rest rc w2.
  apply prepareSyncEntry_entry in H
    as (_ & _ & _ & Hsch & _ & _ & _ & _ & _ & _ & Hmeta).
  assert (Hskip : notScheduled (set_Status e st) = true).
  { unfold notScheduled. simpl. rewrite Hsch.
    destruct Hcase as [->|[Hf Hd]]; [reflexivity|].
    destruct scheduled; [|reflexivity]. simpl.
    destruct Hmeta as [_ ->]. rewrite (bool_decide_eq_true_2 _ Hf).
    apply bool_decide_eq_true_2. exact Hd. }
  simpl. rewrite Hskip. reflexivity.
Qed.

(** X18. [ListSyncEntries] shows every entry of the store with an empty
    webhook URL, whatever URL is stored, and otherwise as stored. It only
    reads: the transaction it begins is rolled back and none is completed. *)
Theorem ListSyncEntries_blank_url (w : World) (r : result (list SyncEntry))
    (w' : World) (t : list Event) :
  ListSyncEntries w = (r, w', t) ->
  existsb is_complete t = false /\
  (forall tx, In (EvBeginTransaction (Ok tx)) t -> In (EvRollback tx) t) /\
  (forall entries, r = Ok entries ->
     Forall (fun e => WebhookUrl (Metadata e) = "") entries /\
     exists tx w1 t1 stored w2,
       BeginTransaction w = (Ok tx, w1, t1) /\
       db_GetSyncEntries w1 tx = (Ok stored, w2) /\
       length entries = length stored /\
       Id <$> entries = Id <$> stored /\
       Status <$> entries = Status <$> stored /\
       (WebhookSecret ∘ Metadata) <$> entries
       = (WebhookSecret ∘ Metadata) <$> stored).
Proof.
  intros H. unfold ListSyncEntries in H.
  apply bind_inv in H as (rb & w1 & t1 & t2 & Hb & H & ->).
  pose proof (BeginTransaction_spec _ _ _ _ Hb) as [-> Htx].
  destruct rb as [tx|e].
  2:{ injection H as <- <- <-. split; [reflexivity|].
      split; [intros tx [[=]|[]]|discriminate]. }
  apply bind_inv in H as (l & w2 & t3 & t4 & Hl & H & ->).
  apply GetSyncEntries_spec in Hl as [-> Hl].
  apply bind_inv in H as (u & w3 & t5 & t6 & Hd & H & ->).
  apply rollback_only in Hd as [-> ->]. injection H as <- <- <-.
  split; [reflexivity|]. split.
  { intros tx' [[= <-]|[[=]|[[=]|[]]]]. simpl. auto. }
  intros entries Hr. destruct l as [stored|e]; [|discriminate Hr].
  injection Hr as <-. split.
  - clear. induction stored as [|e stored IH]; constructor; auto.
  - exists tx, w1, [EvBeginTransaction (Ok tx)], stored, w2.
    split; [exact Hb|]. split; [exact Hl|].
    split; [apply length_fmap|].
    rewrite <- !list_fmap_compose. repeat split.
Qed.

(** X19. A tick runs the entries in the order of the list and none of them
    twice: the identifiers of the runs that the loop starts form a subsequence
    of the identifiers of the list. *)
Theorem tick_runs_in_list_order (s : Server) (entries : list SyncEntry)
    (rc : RepoCache) (w : World) (x : outcome unit * RepoCache) (w' : World)
    (t : list Event) :
  runEntries s entries rc w = (x, w', t) ->
  sublist (topRuns t) (Id <$> entries).
Proof.
  revert rc w x w' t.
  induction entries as [|entry rest IH]; intros rc w x w' t H; simpl in H.
  { injection H as <- <- <-. constructor. }
  rewrite fmap_cons.
  destruct (notScheduled entry).
  { apply sublist_cons. eapply IH. exact H. }
  apply bind_inv in H as (now & w1 & t1 & t2 & Hask & H & ->).
  unfold ask in Hask. injection Hask as <- <- <-.
  destruct (notReady entry (time_Now w)).
  { apply bind_inv in H as (u & w2 & t3 & t4 & Hlog & H & ->).
    unfold log, emit in Hlog. injection Hlog as <- <- <-.
    apply sublist_cons. simpl. eapply IH. exact H. }
  destruct (failedTooOften s entry).
  { apply bind_inv in H as (u & w2 & t3 & t4 & Hlog & H & ->).
    unfold log, emit in Hlog. injection Hlog as <- <- <-.
    apply sublist_cons. simpl. eapply IH. exact H. }
  apply bind_inv in H as ([o orc] & w2' & t3 & t4 & Hrun & H & ->).
  unfold runSyncJob in Hrun. apply runSyncJobN_topRuns in Hrun.
  simpl. rewrite topRuns_app, Hrun. simpl. apply sublist_skip.
  simpl in H. destruct o as [[v|e]| |].
  - eapply IH. exact H.
  - apply bind_inv in H as (u & w4 & t5 & t6 & Hlog & H & ->).
    unfold log, emit in Hlog. injection Hlog as <- <- <-.
    simpl. eapply IH. exact H.
  - injection H as <- <- <-. apply sublist_nil_l.
  - injection H as <- <- <-. apply sublist_nil_l.
Qed.

(** X21. A run on demand does not look at the schedule. For every entry that
    the store returns, scheduled or not, ready or not, disabled by its failure
    count or not, [RunSync] enters [runSyncJob] once with [checkCommitHash]
    set. When it returns a status after a run without a failed Apply or
    Reload, the status counts no failure and is "Enabled", it was written
    through the transaction of the call and that transaction was completed: a
    run on demand that works puts a disabled entry back into service. *)
Theorem RunSync_ignores_schedule (s : Server) (id : string) (dryRun : bool)
    (w : World) (tx : Transaction) (w1 : World) (t1 : list Event)
    (entry : SyncEntry) (w2 : World) (o : outcome (result SyncJobStatus))
    (w' : World) (t : list Event) :
  BeginTransaction w = (Ok tx, w1, t1) ->
  db_GetSyncEntry w1 tx id = (Ok entry, w2) ->
  RunSync s id dryRun w = (o, w', t) ->
  topRuns t = [Id entry] /\
  (forall st, o = Returns (Ok st) -> run_failed t = false ->
     FailureCount st = 0 /\ State st = "Enabled" /\
     In (EvUpdateSyncStatus tx (Id entry) st None) t /\
     exists apps,
       In (EvCompleteTransaction tx apps dryRun "sync_run" None) t).
Proof.
  intros Hb Hg H. unfold RunSync in H.
  apply bind_inv in H as (r & w1' & t1' & t2 & Hb' & H & ->).
  rewrite Hb in Hb'. injection Hb' as <- <- <-.
  pose proof (BeginTransaction_spec _ _ _ _ Hb) as [-> Htx].
  specialize (Htx tx eq_refl).
  apply bind_inv in H as (g & w2' & t3 & t4 & Hg' & H & ->).
  apply GetSyncEntry_spec in Hg' as [-> Hg'].
  rewrite Hg in Hg'. injection Hg' as <- <-.
  apply bind_inv in H as (r & w3 & t5 & t6 & Hr & H & ->).
  apply bind_inv in H as (u & w4 & t7 & t8 & Hd & H & ->).
  apply rollback_only in Hd as [-> ->]. injection H as <- <- <-.
  apply bind_inv in Hr as ([o1 orc] & w5 & t9 & t10 & Hrun & Hr & ->).
  unfold runSyncJob in Hrun.
  pose proof (runSyncJobN_topRuns _ _ _ _ _ _ _ _ _ _ _ _ Hrun) as Htop.
  pose proof (runSyncJobN_in_tx _ _ _ _ _ _ _ _ _ _ _ _ Htx Hrun)
    as (_ & _ & _ & Hs).
  simpl in Hr.
  assert (Ht10 : topRuns t10 = [] /\ run_failed t10 = false /\
            forall st, r = Returns (Ok st) ->
              exists apps, o1 = Returns (Ok (st, apps)) /\ Error st = "" /\
                t10 = [EvCompleteTransaction tx apps dryRun "sync_run" None]).
  { destruct o1 as [[[st apps]|e]| |];
      try (injection Hr as <- <- <-; repeat split; discriminate).
    destruct (decide (Error st = "")) as [He|He];
      [|injection Hr as <- <- <-; repeat split; discriminate].
    apply bind_inv in Hr as (e & w6 & t11 & t12 & Hct & Hr & ->).
    apply CompleteTransaction_spec in Hct as ->.
    destruct e as [e|]; injection Hr as <- <- <-;
      (split; [reflexivity|]); (split; [reflexivity|]).
    - discriminate.
    - intros st' [= <-]. exists apps. auto. }
  destruct Ht10 as (Htop10 & Hf10 & Hok).
  split.
  { simpl. rewrite !topRuns_app, Htop, Htop10. reflexivity. }
  intros st Ho Hrf. destruct (Hok st Ho) as (apps & -> & He & ->).
  simpl in Hrf. rewrite !run_failed_app in Hrf.
  apply orb_false_iff in Hrf as [Hrf _].
  apply orb_false_iff in Hrf as [Hrf _].
  apply runSyncJobN_status in Hrun as ((_ & Hgood) & _).
  destruct (Hgood Hrf) as (Hc & Hst & _).
  destruct (Hs _ _ eq_refl He) as [_ Hup].
  split; [exact Hc|]. split; [exact Hst|]. split.
  - simpl. rewrite !in_app_iff. auto.
  - exists apps. simpl. rewrite !in_app_iff. simpl. auto 10.
Qed.

Section Delete.
Variable db_DeleteSync : World -> Transaction -> string -> error * World.
Variable Tx_Commit : World -> Transaction -> error * World.

(** X20. [DeleteSyncEntry] and its dry run. A dry run never commits: the
    deletion stays in the transaction, which is rolled back. Outside a dry run
    the transaction is committed at most once, and only after [DeleteSync]
    succeeded. A response is returned only when [DeleteSync] succeeded and,
    outside a dry run, the commit too; it repeats the identifier and the
    dry-run flag. When [DeleteSync] fails its error is returned and nothing is
    committed. Every call that began a transaction ends with the rollback of
    that transaction, also after the commit. *)
Theorem DeleteSyncEntry_dry_run (id : string) (dryRun : bool) (w : World)
    (r : result SyncDeleteResponse) (w' : World)
    (t : list (Event + StoreCall)) :
  DeleteSyncEntry db_DeleteSync Tx_Commit id dryRun w = (r, w', t) ->
  (dryRun = true -> existsb is_commit_call t = false) /\
  (length (List.filter is_commit_call t) <= 1)%nat /\
  (forall resp, r = Ok resp ->
     drId resp = id /\ drDryRun resp = dryRun /\
     exists tx,
       In (inr (CallDeleteSync tx id None)) t /\
       (dryRun = false -> In (inr (CallCommit tx None)) t)) /\
  (forall tx e, In (inr (CallCommit tx e)) t ->
     dryRun = false /\ In (inr (CallDeleteSync tx id None)) t) /\
  (forall tx e, In (inr (CallDeleteSync tx id (Some e))) t ->
     r = Err e /\ existsb is_commit_call t = false) /\
  (forall tx, In (inl (EvBeginTransaction (Ok tx))) t ->
     exists t0, t = t0 ++ [inl (EvRollback tx)]).
Proof.
  unfold DeleteSyncEntry, deleteAndCommit, BeginTransaction.
  simpl. unfold Rollback. unmonad.
  destruct (db_BeginTransaction w) as [[h|e] w1]; simpl.
  2:{ intros [= <- <- <-]. simpl. split; [reflexivity|]. split; [lia|].
      split; [discriminate|].
      split; [intros tx e0 [[=]|[]]|].
      split; [intros tx e0 [[=]|[]]|]. intros tx [[=]|[]]. }
  destruct (db_DeleteSync w1 _ id) as [[e|] w2]; simpl.
  { intros [= <- <- <-]. simpl. split; [reflexivity|]. split; [lia|].
    split; [discriminate|].
    split; [intros tx e0 [[=]|[[=]|[[=]|[]]]]|].
    split.
    - intros tx e0 [[=]|[[= <- <-]|[[=]|[]]]]. auto.
    - intros tx [[= <-]|[[=]|[[=]|[]]]].
      exists [inl (EvBeginTransaction (Ok {| Tx := Some h |}));
              inr (CallDeleteSync {| Tx := Some h |} id (Some e))].
      reflexivity. }
  destruct dryRun; simpl.
  { intros [= <- <- <-]. simpl. split; [reflexivity|]. split; [lia|].
    split.
    - intros resp [= <-]. simpl. split; [reflexivity|].
      split; [reflexivity|]. eexists. split; [right; left; reflexivity|].
      discriminate.
    - split; [intros tx e0 [[=]|[[=]|[[=]|[]]]]|].
      split; [intros tx e0 [[=]|[[=]|[[=]|[]]]]|].
      intros tx [[= <-]|[[=]|[[=]|[]]]].
      exists [inl (EvBeginTransaction (Ok {| Tx := Some h |}));
              inr (CallDeleteSync {| Tx := Some h |} id None)].
      reflexivity. }
  destruct (Tx_Commit w2 _) as [[e|] w3]; simpl;
    intros [= <- <- <-]; simpl; (split; [discriminate|]); (split; [lia|]).
  - split; [discriminate|].
    split.
    { intros tx e0 [[=]|[[=]|[[= <- <-]|[[=]|[]]]]].
      split; [reflexivity|]. right. left. reflexivity. }
    split; [intros tx e0 [[=]|[[=]|[[=]|[[=]|[]]]]]|].
    intros tx [[= <-]|[[=]|[[=]|[[=]|[]]]]].
    exists [inl (EvBeginTransaction (Ok {| Tx := Some h |}));
            inr (CallDeleteSync {| Tx := Some h |} id None);
            inr (CallCommit {| Tx := Some h |} (Some e))].
    reflexivity.
  - split.
    { intros resp [= <-]. simpl. split; [reflexivity|].
      split; [reflexivity|]. eexists. split; [right; left; reflexivity|].
      intros _. right. right. left. reflexivity. }
    split.
    { intros tx e0 [[=]|[[=]|[[= <- <-]|[[=]|[]]]]].
      split; [reflexivity|]. right. left. reflexivity. }
    split; [intros tx e0 [[=]|[[=]|[[=]|[[=]|[]]]]]|].
    intros tx [[= <-]|[[=]|[[=]|[[=]|[]]]]].
    exists [inl (EvBeginTransaction (Ok {| Tx := Some h |}));
            inr (CallDeleteSync {| Tx := Some h |} id None);
            inr (CallCommit {| Tx := Some h |} None)].
    reflexivity.
Qed.

End Delete.

End ApiMore.

(** * What a failed reload leaves behind *)

Section StatusFacts.
Context {data : Data} {collab : Collaborators}.




End StatusFacts.

(** * The selection of the entries in a tick *)

Section TickFacts.
Context {data : Data} {collab : Collaborators}.

Ltac unmonad :=
  unfold log in *; unfold bind, ret, emit, call, ask in *.

Ltac by_kinds H :=
  (eapply onlyKinds_none; [|exact H]);
  let ev := fresh "ev" in
  let Hev := fresh "Hev" in
  intros ev Hev; destruct ev; try reflexivity;
  vm_compute in Hev; discriminate Hev.

(** One turn of the loop of [runSyncJobs], whatever the entries that follow:
    a skipped entry leaves cache and world as they are and starts no run;
    an entry that is not skipped is handed to [runSyncJob], and the loop goes
    on from the cache and the world that call leaves. *)
Lemma runEntries_turn s entry rc w :
  exists rcE wE tE,
    (forall rest,
       runEntries s (entry :: rest) rc w
       = (fst (runEntries s rest rcE wE),
          tE ++ snd (runEntries s rest rcE wE))) /\
    (skipEntry s entry (time_Now w) = true ->
       rcE = rc /\ wE = w /\ topRuns tE = [] /\ activations tE = []) /\
    (skipEntry s entry (time_Now w) = false ->
       topRuns tE = [Id entry] /\
       exists v orc t1,
         runSyncJob s Transaction_zero entry false true (Some rc) w
           = ((Returns v, orc), wE, t1) /\
         rcE = match orc with Some rc' => rc' | None => rc end /\
         exists tl, tE = t1 ++ tl /\ onlyKinds [KLog] tl = true).
Proof.
  destruct (skipEntry s entry (time_Now w)) eqn:Hskip.
  - unfold skipEntry in Hskip.
    destruct (notScheduled entry) eqn:H1.
    { exists rc, w, []. split; [|split; [auto|discriminate]].
      intros rest. simpl. rewrite H1.
      destruct (runEntries s rest rc w) as [[y w2] t2]. reflexivity. }
    destruct (notReady entry (time_Now w)) eqn:H2.
    { exists rc, w,
        [EvLog LvlTrace None ("Sync job " +:+ Id entry +:+ " not ready to run")].
      split; [|split; [auto|discriminate]].
      intros rest. simpl. rewrite H1. unfold bind at 1, ask at 1. rewrite H2.
      unfold bind, log, emit.
      destruct (runEntries s rest rc w) as [[y w2] t2]. reflexivity. }
    simpl in Hskip.
    exists rc, w,
      [EvLog LvlTrace None
         ("Sync job " +:+ Id entry +:+ " has failed too many times, skipping")].
    split; [|split; [auto|discriminate]].
    intros rest. simpl. rewrite H1. unfold bind at 1, ask at 1.
    rewrite H2, Hskip. unfold bind, log, emit.
    destruct (runEntries s rest rc w) as [[y w2] t2]. reflexivity.
  - destruct (runSyncJob s Transaction_zero entry false true (Some rc) w)
      as [[[o orc] w1] t1] eqn:Hrun.
    destruct (runSyncJob_head s Transaction_zero entry false true (Some rc) w)
      as (v & tail & Hv & _).
    rewrite Hrun in Hv. simpl in Hv. subst o.
    pose proof Hrun as Htop. unfold runSyncJob in Htop.
    apply runSyncJobN_topRuns in Htop. simpl in Htop.
    exists (match orc with Some rc' => rc' | None => rc end), w1,
      (t1 ++ match v with
             | Err e =>
                 [EvLog LvlError (Some e)
                    ("Error running sync job " +:+ Id entry)]
             | Ok _ => []
             end).
    split; [|split; [discriminate|]].
    + intros rest.
      rewrite (runEntries_run _ _ rest _ _ Hskip _ _ _ _ Hrun).
      rewrite <- app_assoc. reflexivity.
    + intros _. split.
      * rewrite topRuns_app, Htop. destruct v; reflexivity.
      * exists v, orc, t1. split; [reflexivity|]. split; [reflexivity|].
        eexists. split; [reflexivity|]. destruct v; reflexivity.
Qed.

(** The loop over a list in two parts: the second part starts from the cache
    and the world the first part leaves. *)
Lemma runEntries_app s l1 l2 :
  forall rc w,
    runEntries s (l1 ++ l2) rc w
    = (fst (runEntries s l2 (snd (fst (fst (runEntries s l1 rc w))))
              (snd (fst (runEntries s l1 rc w)))),
       snd (runEntries s l1 rc w) ++
       snd (runEntries s l2 (snd (fst (fst (runEntries s l1 rc w))))
              (snd (fst (runEntries s l1 rc w))))).
Proof.
  induction l1 as [|entry rest IH]; intros rc w.
  { simpl. destruct (runEntries s l2 rc w) as [[y w2] t2]. reflexivity. }
  change ((entry :: rest) ++ l2) with (entry :: (rest ++ l2)).
  destruct (runEntries_turn s entry rc w) as (rcE & wE & tE & Heq & _).
  rewrite (Heq (rest ++ l2)), (Heq rest), IH. simpl.
  rewrite <- app_assoc. reflexivity.
Qed.

(** The trace of a tick whose entry list was loaded. *)
Lemma runSyncJobs_trace s w tx w1 t1 rc w2 t2 entries w3 :
  BeginTransaction w = (Ok tx, w1, t1) ->
  NewRepoCache s w1 = (Ok rc, w2, t2) ->
  db_GetSyncEntries w2 tx = (Ok entries, w3) ->
  exists tD,
    snd (runSyncJobs s w)
    = t1 ++ t2 ++ [EvGetSyncEntries tx] ++
      snd (runEntries s entries rc w3) ++ tD /\
    topRuns t1 = [] /\ topRuns t2 = [] /\ topRuns tD = [] /\
    activations t1 = [] /\ activations t2 = [] /\ activations tD = [].
Proof.
  intros Hb Hc Hl.
  pose proof (runEntries_returns s entries rc w3) as Hret.
  destruct (runEntries s entries rc w3) as [[[o rc'] w4] t4] eqn:Hrun.
  simpl in Hret. subst o.
  destruct (runDeferred [DeferCleanup; DeferRollback tx] (Some rc') w4)
    as [[u w5] tD] eqn:Hd.
  exists tD.
  assert (Heq : snd (runSyncJobs s w)
                = t1 ++ t2 ++ [EvGetSyncEntries tx] ++ t4 ++ tD).
  { unfold runSyncJobs. unfold bind at 1. rewrite Hb.
    unfold bind at 1. rewrite Hc.
    unfold bind at 1, GetSyncEntries at 1. unmonad. rewrite Hl, Hrun.
    cbn [fst snd]. rewrite Hd. simpl.
    rewrite ?app_nil_r, <- ?app_assoc. reflexivity. }
  split; [exact Heq|].
  apply BeginTransaction_spec in Hb as [-> _].
  apply NewRepoCache_spec in Hc as (res & ->).
  pose proof (runDeferred_calm _ _ _ _ _ _ Hd) as (_ & _ & _ & DAct & _).
  apply runDeferred_more in Hd as (DK & _).
  assert (Drun : existsb is_run tD = false) by (by_kinds DK).
  repeat split; try reflexivity; [apply topRuns_none; exact Drun|exact DAct].
Qed.

(** C3.  A tick of the scheduler whose entry list was loaded, and an entry
    at any place of that list.  [now] is the clock when the loop reaches the
    entry, after the turns of the entries before it.  The runs the tick
    starts are those of the entries before, then one run of the entry with
    [checkCommitHash] set or none, then those of the entries after; the loop
    goes on from the cache and the world that [runSyncJob] leaves, or from
    where it stood when the entry is skipped.  The entry is skipped exactly
    when it is not scheduled, or its frequency is not positive, or it has run
    before and [now] is earlier than the last run plus the frequency the
    code computes, or its failure count has reached [MaxSyncFailureCount].
    When the number of minutes times one minute fits a [Duration], and the
    entry has run before or the clock is more than a maximal [Duration] past
    the zero time, this is the condition "the time since the last run is
    shorter than the frequency".  The [State] of the status occurs in none
    of the conditions: changing it does not change the decision. *)
Theorem scheduler_skip_rule (s : Server) (w : World) (tx : Transaction)
    (w1 : World) (t1 : list Event) (rc : RepoCache) (w2 : World)
    (t2 : list Event) (pre : list SyncEntry) (entry : SyncEntry)
    (post : list SyncEntry) (w3 : World) :
  BeginTransaction w = (Ok tx, w1, t1) ->
  NewRepoCache s w1 = (Ok rc, w2, t2) ->
  db_GetSyncEntries w2 tx = (Ok (pre ++ entry :: post), w3) ->
  let before := runEntries s pre rc w3 in
  let rcK := snd (fst (fst before)) in
  let wK := snd (fst before) in
  let now := time_Now wK in
  let freq := ScheduleFrequency (Metadata entry) in
  let last := LastExecutionTime (Status entry) in
  exists (ran : bool) (rcE : RepoCache) (wE : World),
    topRuns (snd (runSyncJobs s w))
    = topRuns (snd before) ++ (if ran then [Id entry] else []) ++
      topRuns (snd (runEntries s post rcE wE)) /\
    (if ran then
       exists v orc tE,
         runSyncJob s Transaction_zero entry false true (Some rcK) wK
           = ((Returns v, orc), wE, tE) /\
         rcE = match orc with Some rc' => rc' | None => rcK end
     else rcE = rcK /\ wE = wK) /\
    (ran = false <->
       IsScheduled entry = false \/ freq <= 0 \/
       (last <> 0 /\ now < last + frequencyDuration entry) \/
       FailureCount (Status entry) >= MaxSyncFailureCount s) /\
    (int_min <= freq * time_Minute <= int_max ->
     last <> 0 \/ int_max < now ->
     (ran = false <->
        IsScheduled entry = false \/ freq <= 0 \/
        now - last < freq * time_Minute \/
        FailureCount (Status entry) >= MaxSyncFailureCount s)) /\
    ran = negb (skipEntry s entry now) /\
    (forall state,
       skipEntry s (set_Status entry (set_State (Status entry) state)) now
       = skipEntry s entry now).
Proof.
  intros Hb Hc Hl before rcK wK now freq last.
  destruct (runSyncJobs_trace _ _ _ _ _ _ _ _ _ _ Hb Hc Hl)
    as (tD & Ht & T1 & T2 & TD & _).
  rewrite Ht, runEntries_app. fold before rcK wK. cbn [snd].
  destruct (runEntries_turn s entry rcK wK)
    as (rcE & wE & tE & Heq & Hskip & Hrun).
  rewrite (Heq post). cbn [snd].
  rewrite !topRuns_app, T1, T2, TD, app_nil_r. cbn [topRuns app].
  fold now in Hskip, Hrun.
  assert (Hiff :
    skipEntry s entry now = true <->
    IsScheduled entry = false \/ freq <= 0 \/
    (last <> 0 /\ now < last + frequencyDuration entry) \/
    FailureCount (Status entry) >= MaxSyncFailureCount s).
  { unfold skipEntry, notScheduled, notReady, failedTooOften, Time_IsZero,
      Time_After, Time_Add. fold freq last.
    rewrite !orb_true_iff, andb_true_iff, !negb_true_iff,
      !bool_decide_eq_true, bool_decide_eq_false.
    tauto. }
  exists (negb (skipEntry s entry now)), rcE, wE.
  split; [|split; [|split; [|split; [|split]]]].
  - destruct (skipEntry s entry now); simpl.
    + destruct (Hskip eq_refl) as (_ & _ & -> & _). reflexivity.
    + destruct (Hrun eq_refl) as (-> & _). reflexivity.
  - destruct (skipEntry s entry now); simpl.
    + destruct (Hskip eq_refl) as (-> & -> & _). auto.
    + destruct (Hrun eq_refl) as (_ & v & orc & t0 & Hr & -> & _).
      exists v, orc, t0. auto.
  - rewrite negb_false_iff. exact Hiff.
  - intros Hfit Hclock. rewrite negb_false_iff, Hiff.
    assert (Hd : frequencyDuration entry = freq * time_Minute).
    { unfold frequencyDuration, int_mul. apply wrap64_id. exact Hfit. }
    rewrite Hd. split.
    + intros [H|[H|[[H1 H2]|H]]]; auto. right. right. left. lia.
    + intros [H|[H|[H|H]]]; auto. right. right. left.
      split; [|lia]. destruct Hclock as [Hz|Hz]; [exact Hz|]. lia.
  - reflexivity.
  - intros state. reflexivity.
Qed.

End TickFacts.

(** * The further properties on the concrete world *)

Section MoreExamples.
Import Scenario DevScenario.
#[local] Existing Instance scenarioData.

Lemma tuple4_eta {A B C D : Type} (x : A * B * C * D) :
  x = (fst (fst (fst x)), snd (fst (fst x)), snd (fst x), snd x).
Proof. destruct x as [[[a b] c] d]. reflexivity. Qed.

Lemma tuple3_eta {A B C : Type} (x : A * B * C) :
  x = (fst (fst x), snd (fst x), snd x).
Proof. destruct x as [[a b] c]. reflexivity. Qed.

Lemma tuple2 {A B : Type} (x : A * B) (a : A) :
  fst x = a -> x = (a, snd x).
Proof. destruct x as [a' b]. simpl. intros ->. reflexivity. Qed.

(** A remote with the branch "dev" and two references named
    "refs/heads/main": the hash of the first of the two is the answer. *)
Lemma latestCommitSHA_first_match_witness :
  let dev := {| refName := "refs/heads/dev"; refHash := "d1" |} in
  let main1 := {| refName := "refs/heads/main"; refHash := "m1" |} in
  let main2 := {| refName := "refs/heads/main"; refHash := "m2" |} in
  latestCommitSHA (collab := devWorld [] [dev; main1; main2])
    "https://github.com/org/repo" "main" None worldEmpty
  = (Ok "m1", worldEmpty, [EvRemoteList "https://github.com/org/repo" None]).
Proof.
  intros dev main1 main2.
  apply (proj1 (proj2 (latestCommitSHA_first_match
                         (collab := devWorld [] [dev; main1; main2])
                         "https://github.com/org/repo" "main" None
                         worldEmpty worldEmpty))
           [dev] main1 [main2]).
  - reflexivity.
  - constructor; [vm_compute; discriminate|constructor].
  - reflexivity.
Defined.

(** With "/src/foo" and "/src/foo2" present the unused name is "/src/foo3". *)
Lemma getUnusedRepoPath_first_fit_witness :
  getUnusedRepoPath (collab := devWorld ["/src/foo"; "/src/foo2"] []) 5
    worldEmpty "/src/" "foo"
  = Some "/src/foo3".
Proof.
  apply (proj1 (proj2 (getUnusedRepoPath_first_fit
                         (collab := devWorld ["/src/foo"; "/src/foo2"] [])
                         5 worldEmpty "/src/" "foo")) 3).
  - vm_compute. reflexivity.
  - lia.
  - lia.
  - unfold int_max. lia.
  - intros j Hj. assert (j = 2) as -> by lia. vm_compute. reflexivity.
  - vm_compute. reflexivity.
Defined.

(** The cleanup of a cache with a root removes the root once; the second
    cleanup does nothing. *)
Lemma Cleanup_idempotent_witness :
  let x := Cleanup (collab := scenario applyFails) cache0 worldEmpty in
  rootDir (fst (fst x)) = "" /\
  snd x = [EvRemoveAll "/tmp/openrun_git_0"] /\
  Cleanup (collab := scenario applyFails) (fst (fst x)) (snd (fst x))
  = (fst (fst x), snd (fst x), []).
Proof.
  intros x.
  destruct (Cleanup_idempotent (collab := scenario applyFails)
              cache0 worldEmpty _ _ _ (tuple3_eta x))
    as (Hroot & _ & _ & _ & _ & _ & Hagain).
  split; [exact Hroot|]. split; [reflexivity|exact Hagain].
Defined.

(** A first checkout on the empty cache: the root stays, and the cache now
    holds the key of the call. *)
Lemma CheckoutRepo_cache_grows_witness :
  let x := CheckoutRepo (collab := scenario applyFails) 0 cache0
             "https://github.com/org/repo" "main" "" "" false worldEmpty in
  rootDir (snd (fst (fst x))) = "/tmp/openrun_git_0" /\
  cache cache0 ⊆ cache (snd (fst (fst x))) /\
  dir <$> (cache (snd (fst (fst x)))
             !! Build_Repo "https://github.com/org/repo" "main" "" "")
  = Some "/tmp/openrun_git_0/repo_0".
Proof.
  intros x.
  destruct (CheckoutRepo_cache_grows (collab := scenario applyFails)
              _ _ _ _ _ _ _ _ _ _ _ _ (tuple4_eta x))
    as (_ & Hroot & _ & Hsub & _).
  split; [exact Hroot|]. split; [exact Hsub|]. vm_compute. reflexivity.
Defined.

(** A first [GetSha] on the empty cache lists the remote once and leaves the
    checkout cache empty. *)
Lemma GetSha_cache_grows_witness :
  let x := GetSha (collab := scenario applyFails) cache0
             "https://github.com/org/repo" "main" "" worldEmpty in
  fst (fst (fst x)) = Ok "abc123" /\
  cache (snd (fst (fst x))) = ∅ /\
  (count is_remote_list (snd x) <= 1)%nat.
Proof.
  intros x.
  destruct (GetSha_cache_grows (collab := scenario applyFails)
              _ _ _ _ _ _ _ _ _ (tuple4_eta x))
    as (_ & _ & Hcache & _ & _ & _ & Hcount).
  split; [vm_compute; reflexivity|]. split; [exact Hcache|exact Hcount].
Defined.

(** A checkout of the branch "main" outside dev mode: one clone, of that
    branch only, of depth 1, without authentication, into a directory made
    under the root. *)
Lemma CheckoutRepo_clone_shape_witness :
  let x := CheckoutRepo (collab := scenario applyFails) 0 cache0
             "https://github.com/org/repo" "main" "" "" false worldEmpty in
  let o := {| URL := "https://github.com/org/repo";
              ReferenceName := "refs/heads/main"; SingleBranch := true;
              Depth := 1; Auth := None |} in
  In (EvPlainClone "/tmp/openrun_git_0/repo_0" o) (snd x) /\
  In (EvMkdirTemp "/tmp/openrun_git_0" "repo_"
        (Ok "/tmp/openrun_git_0/repo_0")) (snd x).
Proof.
  intros x o.
  assert (Hin : In (EvPlainClone "/tmp/openrun_git_0/repo_0" o) (snd x)).
  { vm_compute. tauto. }
  split; [exact Hin|].
  destruct (CheckoutRepo_clone_shape (collab := scenario applyFails)
              _ _ _ _ _ _ _ _ _ _ _ _ (tuple4_eta x))
    as (Hclone & _ & _).
  destruct (Hclone _ _ Hin) as (_ & _ & _ & Htmp & _).
  apply Htmp. reflexivity.
Defined.

(** A checkout, a cleanup, and the same checkout again: the second one is a
    hit on the removed directory. *)
Lemma Cleanup_then_checkout_witness :
  let x := CheckoutRepo (collab := scenario applyFails) 0 cache0
             "https://github.com/org/repo" "main" "" "" false worldEmpty in
  let y := Cleanup (collab := scenario applyFails) (snd (fst (fst x)))
             (snd (fst x)) in
  In (EvRemoveAll "/tmp/openrun_git_0") (snd y) /\
  fst (fst (fst (CheckoutRepo (collab := scenario applyFails) 0 (fst (fst y))
                   "https://github.com/org/repo" "main" "" "" false
                   (snd (fst y)))))
  = Some (Ok ("/tmp/openrun_git_0/repo_0", "", "initial commit", "abc123")).
Proof.
  intros x y. split; [vm_compute; tauto|].
  destruct (Cleanup_then_checkout (collab := scenario applyFails) 0
              _ _ _ _ _ "https://github.com/org/repo" "main" "" ""
              (tuple3_eta y)) as [Hhit _].
  rewrite (Hhit
             {| user := "git"; key := ""; password := "token";
                usingSSH := false |}
             "https://github.com/org/repo" ""
             {| dir := "/tmp/openrun_git_0/repo_0";
                commitMessage := "initial commit"; hash := "abc123" |}
             false); [reflexivity|reflexivity|reflexivity|].
  vm_compute. reflexivity.
Defined.

(** A run of the scheduler's kind whose Apply updates one application: the
    status and the completion go through the transaction the run began, which
    is rolled back afterwards. *)
Lemma runSyncJob_success_commits_witness :
  let x := runSyncJob (collab := scenario applyWorks) srv Transaction_zero
             (entry1 "none") false true None (world1 "none") in
  exists st tx t1 t2,
    fst (fst (fst x)) = Returns (Ok (st, ["/app1"])) /\
    snd x = t1 ++
            [EvUpdateSyncStatus tx "cl_syn_1" st None;
             EvCompleteTransaction tx ["/app1"] false "sync" None] ++ t2 /\
    existsb is_complete t1 = false /\ existsb is_complete t2 = false /\
    In (EvRollback tx) t2.
Proof.
  intros x.
  assert (Hx : exists st,
            fst (fst (fst x)) = Returns (Ok (st, ["/app1"])) /\ Error st = "").
  { eexists. split; vm_compute; reflexivity. }
  destruct Hx as (st & Hx & He).
  destruct (runSyncJob_success_commits (collab := scenario applyWorks)
              srv Transaction_zero (entry1 "none") false true None
              (world1 "none") st ["/app1"] _ _ _
              eq_refl (tuple4 x _ Hx) He)
    as (tx & t1 & t2 & Ht & _ & _ & Hc1 & Hc2 & Hr).
  exists st, tx, t1, t2. auto.
Defined.

(** The same run inside a transaction of the caller: nothing is begun,
    rolled back or completed. *)
Lemma runSyncJob_in_caller_tx_witness :
  let wB := snd (fst (BeginTransaction (collab := scenario applyWorks)
                        (world1 "none"))) in
  let x := runSyncJob (collab := scenario applyWorks) srv
             {| Tx := Some 0%nat |} (entry1 "none") false true None wB in
  existsb is_complete (snd x) = false /\
  existsb is_tx_boundary (snd x) = false.
Proof.
  intros wB x.
  assert (Hx : exists st,
            fst (fst (fst x)) = Returns (Ok (st, ["/app1"])) /\ Error st = "").
  { eexists. split; vm_compute; reflexivity. }
  destruct Hx as (st & Hx & He).
  destruct (runSyncJob_in_caller_tx (collab := scenario applyWorks)
              srv {| Tx := Some 0%nat |} (entry1 "none") false true None wB
              _ _ _ _
              ltac:(discriminate) (tuple4_eta x))
    as (Hc & _ & _ & _ & Hs).
  split; [exact Hc|]. apply (Hs st ["/app1"] Hx He).
Defined.

(** The same run with the cache of the caller: no directory is made or
    removed. *)
Lemma runSyncJob_cache_ownership_witness :
  let x := runSyncJob (collab := scenario applyWorks) srv Transaction_zero
             (entry1 "none") false true (Some cache0) (world1 "none") in
  existsb is_mkdir (snd x) = false /\ existsb is_remove (snd x) = false.
Proof.
  intros x.
  destruct (runSyncJob_cache_ownership (collab := scenario applyWorks)
              _ _ _ _ _ _ _ _ _ _ _ (tuple4_eta x)) as [Hsome _].
  apply (Hsome cache0 eq_refl).
Defined.

(** A skipped Apply followed by the reload of the one application of the
    last run: one Apply, at most one Reload. *)
Lemma runSyncJob_call_bounds_witness :
  let x := runSyncJob (collab := scenario reloadWorks) srv Transaction_zero
             (entry1 "matched") false true None (world1 "matched") in
  (count is_apply (snd x) <= 2)%nat /\ (count is_reload (snd x) <= 1)%nat /\
  reloadsAfterFailure (snd x) = 0%nat.
Proof.
  intros x.
  destruct (runSyncJob_call_bounds (collab := scenario reloadWorks)
              _ _ _ _ _ _ _ _ _ _ _ (tuple4_eta x))
    as (Ha & Hr & Hf & _).
  split; [exact Ha|]. split; [exact Hr|exact Hf].
Defined.

(** The same run: the Reload reports "/app1" as reloaded, the response in
    the status has the reload results of Apply, which are empty. *)
Lemma status_response_rule_witness :
  let x := runSyncJob (collab := scenario reloadWorks) srv Transaction_zero
             (entry1 "matched") false true None (world1 "matched") in
  exists st a info l,
    fst (fst (fst x)) = Returns (Ok (st, [])) /\
    In (EvApply a (ApplyOk info l)) (snd x) /\
    ReloadResults (ApplyResponse st) = ReloadResults info /\
    ReloadResults (ApplyResponse st) = [] /\
    reloadedApps (snd x) = ["/app1"].
Proof.
  intros x.
  assert (Hx : exists st,
            fst (fst (fst x)) = Returns (Ok (st, [])) /\
            ReloadResults (ApplyResponse st) = []).
  { eexists. split; vm_compute; reflexivity. }
  destruct Hx as (st & Hx & He).
  destruct (status_response_rule (collab := scenario reloadWorks)
              _ _ _ _ _ _ _ _ _ _ _ _ (tuple4 x _ Hx)) as (Hok & _).
  destruct (Hok ltac:(vm_compute; reflexivity))
    as (a & info & l & Hin & Hr & _).
  exists st, a, info, l. split; [exact Hx|]. split; [exact Hin|].
  split; [exact Hr|]. split; [exact He|]. vm_compute. reflexivity.
Defined.

(** A tick on two entries whose application is gone: one root is made for
    the shared cache and one is removed. *)
Lemma scheduler_tick_bounds_witness :
  let x := runSyncJobs (collab := scenario appGone) srv world2 in
  (count is_mkdir (snd x) <= 1)%nat /\
  (count is_remove (snd x) <= count is_mkdir (snd x))%nat /\
  count is_run (snd x) = 4%nat.
Proof.
  intros x.
  destruct (scheduler_tick_bounds (collab := scenario appGone)
              _ _ _ _ _ (tuple3_eta x)) as (Hm & Hr & _).
  split; [exact Hm|]. split; [exact Hr|]. vm_compute. reflexivity.
Defined.

(** An on-demand run of the persisted entry. *)
Lemma RunSync_outcome_witness :
  let x := RunSync (collab := scenario applyWorks) srv "cl_syn_1" false
             (world1 "none") in
  exists st,
    fst (fst x) = Returns (Ok st) /\ Error st = "" /\
    count is_complete (snd x) = 1%nat.
Proof.
  intros x.
  assert (Hx : exists st, fst (fst x) = Returns (Ok st)).
  { eexists. vm_compute. reflexivity. }
  destruct Hx as (st & Hx).
  destruct (RunSync_outcome (collab := scenario applyWorks)
              _ _ _ _ _ _ _ (tuple3_eta x)) as (_ & Hok & _).
  destruct (Hok st Hx) as [He _].
  exists st. split; [exact Hx|]. split; [exact He|]. vm_compute. reflexivity.
Defined.

(** The creation of a webhook entry. *)
Lemma CreateSyncEntry_success_witness :
  let x := CreateSyncEntry (collab := scenario applyWorks) srv "admin"
             "/apps.star" false false (meta "none") worldEmpty in
  exists resp,
    fst (fst x) = Returns (Ok resp) /\
    crId resp = "cl_syn_2abc" /\ crWebhookUrl resp = "" /\
    crWebhookSecret resp = "cl_tkn_secret" /\
    Error (crSyncJobStatus resp) = "".
Proof.
  intros x.
  assert (Hx : exists resp,
            fst (fst x) = Returns (Ok resp) /\ crId resp = "cl_syn_2abc" /\
            crWebhookSecret resp = "cl_tkn_secret").
  { eexists. repeat split; vm_compute; reflexivity. }
  destruct Hx as (resp & Hx & Hid & Hsec).
  destruct (CreateSyncEntry_success (collab := scenario applyWorks)
              _ _ _ _ _ _ _ _ _ _ (tuple3 x _ Hx))
    as (_ & Hurl & He & _).
  exists resp. auto.
Defined.

(** A webhook entry, given the status of a run, in the list of a tick: the
    tick does nothing. *)
Lemma unscheduled_entry_never_runs_witness :
  let wB := snd (fst (BeginTransaction (collab := scenario applyWorks)
                        worldEmpty)) in
  let p := prepareSyncEntry (collab := scenario applyWorks) srv "admin"
             {| Tx := Some 0%nat |} "/apps.star" false (meta "none") wB in
  exists e,
    fst (fst p) = Ok e /\ IsScheduled e = false /\
    runEntries (collab := scenario applyWorks) srv
      [set_Status e lastStatus] cache0 (world1 "none")
    = runEntries (collab := scenario applyWorks) srv [] cache0
        (world1 "none").
Proof.
  intros wB p.
  assert (Hx : exists e, fst (fst p) = Ok e /\ IsScheduled e = false).
  { eexists. split; vm_compute; reflexivity. }
  destruct Hx as (e & Hx & Hs).
  exists e. split; [exact Hx|]. split; [exact Hs|].
  apply (unscheduled_entry_never_runs (collab := scenario applyWorks)
           srv "admin" {| Tx := Some 0%nat |} "/apps.star" false
           (meta "none") wB e _ _ (tuple3 p _ Hx)).
  left. reflexivity.
Defined.

(** The list of the two persisted entries. *)
Lemma ListSyncEntries_blank_url_witness :
  let x := ListSyncEntries (collab := scenario applyWorks) world2 in
  exists entries,
    fst (fst x) = Ok entries /\ length entries = 2%nat /\
    Forall (fun e => WebhookUrl (Metadata e) = "") entries /\
    existsb is_complete (snd x) = false.
Proof.
  intros x.
  assert (Hx : exists entries,
            fst (fst x) = Ok entries /\ length entries = 2%nat).
  { eexists. split; vm_compute; reflexivity. }
  destruct Hx as (entries & Hx & Hlen).
  destruct (ListSyncEntries_blank_url (collab := scenario applyWorks)
              _ _ _ _ (tuple3_eta x)) as (Hc & _ & Hok).
  destruct (Hok entries Hx) as [Hurl _].
  exists entries. auto.
Defined.

(** A tick over the two persisted entries runs the first, then the
    second. *)
Lemma tick_runs_in_list_order_witness :
  let x := runEntries (collab := scenario appGone) srv
             [entry1 "matched"; entry2] cache0 world2 in
  topRuns (snd x) = ["cl_syn_1"; "cl_syn_2"] /\
  sublist (topRuns (snd x)) ["cl_syn_1"; "cl_syn_2"].
Proof.
  intros x. split; [vm_compute; reflexivity|].
  apply (tick_runs_in_list_order (collab := scenario appGone) srv
           [entry1 "matched"; entry2] cache0 world2 _ _ _ (tuple3_eta x)).
Defined.

(** The dry run of a deletion leaves the entry in the store; the deletion
    proper removes it and leaves the other entry. *)
Lemma DeleteSyncEntry_dry_run_witness :
  let x := DeleteSyncEntry (collab := scenario applyWorks) sDeleteSync
             sCommit "cl_syn_1" true world2 in
  let y := DeleteSyncEntry (collab := scenario applyWorks) sDeleteSync
             sCommit "cl_syn_1" false world2 in
  existsb is_commit_call (snd x) = false /\
  Id <$> (table (snd (fst x)) !! "cl_syn_1") = Some "cl_syn_1" /\
  (length (List.filter is_commit_call (snd y)) <= 1)%nat /\
  table (snd (fst y)) !! "cl_syn_1" = None /\
  Id <$> (table (snd (fst y)) !! "cl_syn_2") = Some "cl_syn_2".
Proof.
  intros x y.
  destruct (DeleteSyncEntry_dry_run (collab := scenario applyWorks)
              sDeleteSync sCommit "cl_syn_1" true world2 _ _ _
              (tuple3_eta x)) as (Hdry & _).
  destruct (DeleteSyncEntry_dry_run (collab := scenario applyWorks)
              sDeleteSync sCommit "cl_syn_1" false world2 _ _ _
              (tuple3_eta y)) as (_ & Hone & _).
  split; [apply Hdry; reflexivity|]. split; [vm_compute; reflexivity|].
  split; [exact Hone|]. split; vm_compute; reflexivity.
Defined.

(** An entry that three failures have disabled is passed over by the
    scheduler; a run on demand runs it, and when Apply works the persisted
    entry counts no failure any more. *)
Lemma RunSync_ignores_schedule_witness :
  let x := RunSync (collab := scenario applyWorks) srv "cl_syn_1" false
             worldDisabled in
  skipEntry srv disabledEntry (clock worldDisabled) = true /\
  topRuns (snd x) = ["cl_syn_1"] /\
  exists st,
    fst (fst x) = Returns (Ok st) /\
    FailureCount st = 0 /\ State st = "Enabled" /\
    (FailureCount ∘ Status) <$> (table (snd (fst x)) !! "cl_syn_1") = Some 0.
Proof.
  intros x.
  pose (b := BeginTransaction (collab := scenario applyWorks) worldDisabled).
  destruct (RunSync_ignores_schedule (collab := scenario applyWorks)
              srv "cl_syn_1" false worldDisabled
              {| Tx := Some 0%nat |} (snd (fst b)) (snd b) disabledEntry
              _ _ _ _
              (tuple3 b _ ltac:(vm_compute; reflexivity))
              (tuple2 _ _ ltac:(vm_compute; reflexivity))
              (tuple3_eta x))
    as [Htop Hok].
  split; [vm_compute; reflexivity|]. split; [exact Htop|].
  assert (Hx : exists st, fst (fst x) = Returns (Ok st)).
  { eexists. vm_compute. reflexivity. }
  destruct Hx as (st & Hx).
  destruct (Hok st Hx ltac:(vm_compute; reflexivity)) as (Hc & Hst & _).
  exists st. split; [exact Hx|]. split; [exact Hc|]. split; [exact Hst|].
  vm_compute. reflexivity.
Defined.

(** A run in a transaction that is not open: the status cannot be
    written, the run returns that error and completes nothing. *)
Lemma runSyncJob_returned_errors_witness :
  let x := runSyncJob (collab := scenario applyWorks) srv
             {| Tx := Some 7%nat |} (entry1 "none") false true None
             (world1 "none") in
  fst (fst (fst x)) = Returns (Err "transaction is closed") /\
  existsb is_complete (snd x) = false.
Proof.
  intros x.
  assert (Hin : exists st,
            In (EvUpdateSyncStatus {| Tx := Some 7%nat |} "cl_syn_1" st
                  (Some "transaction is closed")) (snd x)).
  { eexists. vm_compute. do 4 right. left. reflexivity. }
  destruct Hin as (st & Hin).
  destruct (runSyncJob_returned_errors (collab := scenario applyWorks)
              _ _ _ _ _ _ _ _ _ _ _ (tuple4_eta x)) as (_ & _ & Hup & _).
  apply (Hup _ _ _ _ Hin).
Defined.

(** A checkout that fails after the clone: the cache stores nothing, and the
    same call made again clones again. *)
Lemma CheckoutRepo_cached_counterexample :
  let x := CheckoutRepo (collab := checkoutFails) 0 cache0
             "https://github.com/org/repo" "main" "" "" false
             (world1 "none") in
  let y := CheckoutRepo (collab := checkoutFails) 0 (snd (fst (fst x)))
             "https://github.com/org/repo" "main" "" "" false
             (snd (fst x)) in
  let e := "error checking out branch main commit : reference not found" in
  fst (fst (fst x)) = Some (Err e) /\
  snd (fst (fst x)) = cache0 /\
  fst (fst (fst y)) = Some (Err e) /\
  count is_clone (snd x) = 1%nat /\
  count is_clone (snd y) = 1%nat /\
  count is_clone (snd x ++ snd y) = 2%nat.
Proof.
  intros x y e. repeat split; vm_compute; reflexivity.
Qed.

(** Five minutes after its last run an entry with a frequency of ten
    minutes is skipped by the tick; twenty minutes after, the tick runs
    it. *)
Lemma scheduler_skip_rule_witness :
  topRuns (snd (runSyncJobs (collab := scenario applyFails) srv world5)) = [] /\
  topRuns (snd (runSyncJobs (collab := scenario applyFails) srv
                  (world1 "none"))) = ["cl_syn_1"].
Proof.
  split; [|vm_compute; reflexivity].
  pose (b := BeginTransaction (collab := scenario applyFails) world5).
  pose (c := NewRepoCache (collab := scenario applyFails) srv (snd (fst b))).
  pose (tx := {| Tx := Some 0%nat |}).
  pose (l := @db_GetSyncEntries _ (scenario applyFails) (snd (fst c)) tx).
  pose (rc := {| server := srv; rootDir := "/openrun_git_0"; cache := ∅;
                 shaCache := ∅ |}).
  destruct (scheduler_skip_rule (collab := scenario applyFails) srv world5
              tx (snd (fst b)) (snd b) rc (snd (fst c)) (snd c)
              [] (entry1 "none") [] (snd l)
              (tuple3 b _ ltac:(vm_compute; reflexivity))
              (tuple3 c (Ok rc) ltac:(vm_compute; reflexivity))
              (tuple2 l (Ok [entry1 "none"]) ltac:(vm_compute; reflexivity)))
    as (ran & rcE & wE & Htop & _ & Hiff & _).
  assert (Hran : ran = false).
  { apply Hiff. right. right. left.
    split; [vm_compute; discriminate|vm_compute; reflexivity]. }
  rewrite Hran in Htop. exact Htop.
Defined.

(** An entry scheduled every 153722868 minutes that ran five minutes ago:
    it is scheduled, its frequency is positive, the time since its last run
    is shorter than its frequency and it has no failure, yet the tick runs
    it. *)
Lemma scheduler_skip_rule_counterexample :
  let x := runSyncJobs (collab := scenario applyFails) srv worldRare in
  table worldRare !! "cl_syn_1" = Some entryRare /\
  IsScheduled entryRare = true /\
  0 < ScheduleFrequency (Metadata entryRare) /\
  clock worldRare - LastExecutionTime (Status entryRare) = 5 * time_Minute /\
  5 * time_Minute < ScheduleFrequency (Metadata entryRare) * time_Minute /\
  FailureCount (Status entryRare) < MaxSyncFailureCount srv /\
  int_max < ScheduleFrequency (Metadata entryRare) * time_Minute /\
  frequencyDuration entryRare = -9223371993709551616 /\
  topRuns (snd x) = ["cl_syn_1"] /\
  count is_apply (snd x) = 1%nat.
Proof.
  intros x. repeat split; vm_compute; reflexivity.
Qed.

(** The count is not capped, and failures in a row do not add up.  A failed
    run on an entry whose count is three, the maximum, returns the count
    four.  Three ticks in a row on a persisted entry without failures, whose
    Apply fails every time: each tick runs the entry, each status written
    has the count one and the state [Failing], and the persisted count is
    zero at the end. *)
Lemma failure_count_rule_counterexample :
  let x := runSyncJob (collab := scenario applyFails) srv Transaction_zero
             disabledEntry false true None worldDisabled in
  let y := syncLoop (collab := scenario applyFails) srv 3 (world1 "none") in
  MaxSyncFailureCount srv = 3 /\
  FailureCount (Status disabledEntry) = 3 /\
  run_failed (snd x) = true /\
  (exists st,
     fst (fst (fst x)) = Returns (Ok (st, [])) /\ FailureCount st = 4) /\
  (FailureCount ∘ Status) <$> (table (world1 "none") !! "cl_syn_1") = Some 0 /\
  topRuns (snd y) = ["cl_syn_1"; "cl_syn_1"; "cl_syn_1"] /\
  count is_failure (snd y) = 3%nat /\
  FailureCount <$> writtenStatuses (snd y) = [1; 1; 1] /\
  State <$> writtenStatuses (snd y) = ["Failing"; "Failing"; "Failing"] /\
  (FailureCount ∘ Status) <$> (table (snd (fst y)) !! "cl_syn_1") = Some 0.
Proof.
  intros x y.
  repeat match goal with |- _ /\ _ => split end;
    try (vm_compute; reflexivity).
  eexists. split; vm_compute; reflexivity.
Qed.


End MoreExamples.
